(** * WatermarkRemover: the adaptive frame-processing pipeline

    A shallow embedding of [watermark_remover.py]: the perceptual frame
    cache ([FrameCache]), the temporal skip policy ([FrameSkipDetector]),
    watermark localisation by voting ([WatermarkDetector]) and the per-frame
    driver with its feathered compositor ([WatermarkProcessor]).

    Python objects that are mutated in place are modelled by explicit state
    passing in a state-and-exception monad: a [raise] keeps the mutations
    made before it, as it does in Python.  Calls into OpenCV, imagehash and
    the inpainting model are parameters of the sections that use them. *)

From Stdlib Require Import String.
From Stdlib Require Import ZArith NArith List Lia Bool.
From Stdlib Require Import Floats.SpecFloat.
Import ListNotations.
Open Scope Z_scope.

(* ===================================================================== *)
(** * Python runtime fragments *)
(* ===================================================================== *)

Module Py.

(** The exceptions the modelled code can raise. *)
Inductive exn : Type :=
| ValueError (msg : string)
| KeyError
| ZeroDivisionError
| TypeError
| CvError.

Inductive result (A : Type) : Type :=
| Ok (a : A)
| Raise (e : exn).
Arguments Ok {A} a.
Arguments Raise {A} e.

(** Pure, fallible computations. *)
Definition rbind {A B} (r : result A) (k : A -> result B) : result B :=
  match r with
  | Ok a => k a
  | Raise e => Raise e
  end.

(** Methods of an object with state [S]: the state reached when an exception
    escapes is part of the outcome. *)
Definition M (S A : Type) : Type := S -> result A * S.

Definition ret {S A} (a : A) : M S A := fun s => (Ok a, s).

Definition bind {S A B} (m : M S A) (k : A -> M S B) : M S B :=
  fun s =>
    match m s with
    | (Ok a, s') => k a s'
    | (Raise e, s') => (Raise e, s')
    end.

Definition raise {S A} (e : exn) : M S A := fun s => (Raise e, s).
Definition gets {S A} (f : S -> A) : M S A := fun s => (Ok (f s), s).
Definition modify {S} (f : S -> S) : M S unit := fun s => (Ok tt, f s).

(** [d[k]] and [del d[k]] on a missing key. *)
Definition or_raise {S A} (e : exn) (o : option A) : M S A :=
  match o with
  | Some a => ret a
  | None => raise e
  end.

(** Lifting a pure fallible computation. *)
Definition lift {S A} (r : result A) : M S A := fun s => (r, s).

(** Running a method of a component stored in a field of the object. *)
Definition zoom {S T A} (proj : S -> T) (upd : T -> S -> S) (m : M T A) : M S A :=
  fun s => let (r, t') := m (proj s) in (r, upd t' s).

(** An [int] compared with [float('inf')]. *)
Inductive num : Type :=
| Int (z : Z)
| Inf.

Definition num_ltb (a b : num) : bool :=
  match a, b with
  | Int x, Int y => x <? y
  | Int _, Inf => true
  | Inf, _ => false
  end.

Definition num_leb (a b : num) : bool :=
  match a, b with
  | Int x, Int y => x <=? y
  | _, Inf => true
  | Inf, Int _ => false
  end.

(** [a % b] on Python integers: floored, and [ZeroDivisionError] for [b = 0]. *)
Definition py_mod (a b : Z) : result Z :=
  if b =? 0 then Raise ZeroDivisionError else Ok (a mod b).

(** ** Insertion-ordered dictionaries

    A [dict] iterates in insertion order; assigning to a key that is present
    keeps its position, deleting one keeps the order of the others. *)
Section Dict.
Context {K V : Type}.
Variable K_eq_dec : forall x y : K, {x = y} + {x <> y}.

Definition dict : Type := list (K * V).

Definition keys (d : dict) : list K := map fst d.

Definition len (d : dict) : Z := Z.of_nat (length d).

Fixpoint getitem (k : K) (d : dict) : option V :=
  match d with
  | [] => None
  | (k', v) :: d' => if K_eq_dec k k' then Some v else getitem k d'
  end.

Fixpoint setitem (k : K) (v : V) (d : dict) : dict :=
  match d with
  | [] => [(k, v)]
  | (k', v') :: d' =>
      if K_eq_dec k k' then (k', v) :: d' else (k', v') :: setitem k v d'
  end.

Fixpoint remove (k : K) (d : dict) : dict :=
  match d with
  | [] => []
  | (k', v') :: d' =>
      if K_eq_dec k k' then d' else (k', v') :: remove k d'
  end.

(** [del d[k]]: [None] stands for [KeyError]. *)
Definition delitem (k : K) (d : dict) : option dict :=
  match getitem k d with
  | Some _ => Some (remove k d)
  | None => None
  end.
End Dict.
Arguments dict K V : clear implicits.

(** [min(d, key=d.get)] for integer values: the first key, in iteration
    order, whose value is minimal; [None] stands for the [ValueError] that
    [min] raises on an empty dictionary. *)
Fixpoint min_from {K} (best : K) (bv : Z) (d : dict K Z) : K :=
  match d with
  | [] => best
  | (k, v) :: d' => if v <? bv then min_from k v d' else min_from best bv d'
  end.

Definition min_key {K} (d : dict K Z) : option K :=
  match d with
  | [] => None
  | (k, v) :: d' => Some (min_from k v d')
  end.

End Py.

Import Py.

Declare Scope py_scope.
Delimit Scope py_scope with py.
Notation "x <- m ;; k" := (bind m (fun x => k))
  (at level 61, m at next level, right associativity) : py_scope.
Notation "m ;;; k" := (bind m (fun _ => k))
  (at level 61, right associativity) : py_scope.

Open Scope py_scope.

(* ===================================================================== *)
(** * FrameCache *)
(* ===================================================================== *)

Module FrameCache.

(** An [imagehash.ImageHash] as produced by [phash]: a 64-bit pattern.  Two
    hashes are equal, and hash alike as dictionary keys, when their bits are;
    [h1 - h2] is the number of bits in which they differ. *)
Definition ImageHash : Type := N.

Fixpoint popcount (p : positive) : nat :=
  match p with
  | xH => 1
  | xO q => popcount q
  | xI q => S (popcount q)
  end.

Definition count_nonzero (n : N) : Z :=
  match n with
  | N0 => 0
  | Npos p => Z.of_nat (popcount p)
  end.

Definition hash_sub (h1 h2 : ImageHash) : Z := count_nonzero (N.lxor h1 h2).

(** [ImageHash.__eq__] *)
Definition hash_eq_dec : forall h1 h2 : ImageHash, {h1 = h2} + {h1 <> h2} :=
  N.eq_dec.

Section WithRegions.
(** [Roi] is the pixel content of a region, [Buf] a regenerated buffer.
    [compute_hash] stands for [cv2.resize] to 64x64 followed by
    [imagehash.phash]. *)
Context {Roi Buf : Type}.
Variable compute_hash : Roi -> ImageHash.

Record t : Type := mk {
  cache : dict ImageHash Buf;
  cache_size : Z;
  similarity_threshold : Z;
  access_count : dict ImageHash Z
}.

Definition set_cache (c : dict ImageHash Buf) (s : t) : t :=
  mk c (cache_size s) (similarity_threshold s) (access_count s).

Definition set_access_count (a : dict ImageHash Z) (s : t) : t :=
  mk (cache s) (cache_size s) (similarity_threshold s) a.

(** [FrameCache.__init__] *)
Definition init (cache_size similarity_threshold : Z) : t :=
  mk [] cache_size similarity_threshold [].

(** The scan of [get]: [best_match] and [min_distance] after the loop over
    the stored hashes. *)
Definition scan_step (frame_hash : ImageHash) (acc : option ImageHash * num)
    (cached_hash : ImageHash) : option ImageHash * num :=
  let distance := hash_sub frame_hash cached_hash in
  if num_ltb (Int distance) (snd acc)
  then (Some cached_hash, Int distance)
  else acc.

Definition scan (frame_hash : ImageHash) (ks : list ImageHash)
    : option ImageHash * num :=
  fold_left (scan_step frame_hash) ks (None, Inf).

(** [FrameCache.get]; the result [None] is Python's [None]. *)
Definition get (roi : Roi) : M t (option Buf) :=
  let frame_hash := compute_hash roi in
  ks <- gets (fun s => keys (cache s)) ;;
  let '(best_match, min_distance) := scan frame_hash ks in
  thr <- gets similarity_threshold ;;
  match best_match with
  | Some bm =>
      if num_leb min_distance (Int thr) then
        ac <- gets access_count ;;
        n <- or_raise KeyError (getitem hash_eq_dec bm ac) ;;
        modify (set_access_count (setitem hash_eq_dec bm (n + 1) ac)) ;;;
        c <- gets cache ;;
        v <- or_raise KeyError (getitem hash_eq_dec bm c) ;;
        ret (Some v)
      else ret None
  | None => ret None
  end.

(** [FrameCache.put] *)
Definition put (roi : Roi) (processed_result : Buf) : M t unit :=
  let frame_hash := compute_hash roi in
  c <- gets cache ;;
  size <- gets cache_size ;;
  (if size <=? len c then
     ac <- gets access_count ;;
     least_used <- or_raise (ValueError "min() arg is an empty sequence")
                     (min_key ac) ;;
     c' <- or_raise KeyError (delitem hash_eq_dec least_used c) ;;
     modify (set_cache c') ;;;
     ac' <- or_raise KeyError (delitem hash_eq_dec least_used ac) ;;
     modify (set_access_count ac')
   else ret tt) ;;;
  modify (fun s => set_cache (setitem hash_eq_dec frame_hash processed_result (cache s)) s) ;;;
  modify (fun s => set_access_count (setitem hash_eq_dec frame_hash 1 (access_count s)) s).

(** A client's calls, and the cache they leave behind; a call that raises
    leaves the cache as it was at the [raise]. *)
Inductive call : Type :=
| Put (roi : Roi) (processed_result : Buf)
| Get (roi : Roi).

Definition after (c : call) (s : t) : t :=
  match c with
  | Put roi p => snd (put roi p s)
  | Get roi => snd (get roi s)
  end.

Definition after_all (cs : list call) (s : t) : t :=
  fold_left (fun s c => after c s) cs s.

(** The two dictionaries of a cache hold the same keys in the same order,
    each key once. *)
Definition consistent (s : t) : Prop :=
  keys (cache s) = keys (access_count s) /\ NoDup (keys (cache s)).

End WithRegions.

Arguments t Buf : clear implicits.
Arguments call Roi Buf : clear implicits.

End FrameCache.

(** ** Hashing that can fail

    [compute_hash] (lines 24-27 of the source) calls [cv2.resize],
    [cv2.cvtColor] and [imagehash.phash], and [cv2.resize] raises on an
    empty region.  [get] and [put] hash the region in their first
    statement: an exception of the hashing leaves them before the cache is
    read or written, and otherwise they go on with the hash obtained. *)
Module FrameCacheHashing.
Import FrameCache.

Section WithRegions.
Context {Roi Buf : Type}.
Variable compute_hash : Roi -> result ImageHash.

(** [FrameCache.get] *)
Definition get (roi : Roi) : M (FrameCache.t Buf) (option Buf) :=
  frame_hash <- lift (compute_hash roi) ;;
  FrameCache.get (fun h : ImageHash => h) frame_hash.

(** [FrameCache.put] *)
Definition put (roi : Roi) (processed_result : Buf) : M (FrameCache.t Buf) unit :=
  frame_hash <- lift (compute_hash roi) ;;
  FrameCache.put (fun h : ImageHash => h) frame_hash processed_result.

(** The cache that a client's calls leave behind. *)
Definition after (c : call Roi Buf) (s : FrameCache.t Buf) : FrameCache.t Buf :=
  match c with
  | Put roi p => snd (put roi p s)
  | Get roi => snd (get roi s)
  end.

Definition after_all (cs : list (call Roi Buf)) (s : FrameCache.t Buf)
    : FrameCache.t Buf :=
  fold_left (fun s c => after c s) cs s.

End WithRegions.

End FrameCacheHashing.

(* ===================================================================== *)
(** * NumPy arrays and IEEE arithmetic *)
(* ===================================================================== *)

Module Np.

(** A two-dimensional array: its [shape] is [(rows, cols)], and [data] holds
    [rows] lists of [cols] items.  The shape is kept apart from the data
    because an array with no row still has a width. *)
Record ndarray (A : Type) : Type := mk {
  rows : nat;
  cols : nat;
  data : list (list A)
}.
Arguments mk {A} rows cols data.
Arguments rows {A} n.
Arguments cols {A} n.
Arguments data {A} n.

Definition well_shaped {A} (a : ndarray A) : Prop :=
  length (data a) = rows a /\ Forall (fun r => length r = cols a) (data a).

(** [a[i, j]] for indices within the shape. *)
Definition item {A} (d : A) (a : ndarray A) (i j : nat) : A :=
  nth j (nth i (data a) []) d.

(** [a[i, j]] once [a] is broadcast: an axis of length 1 is read at 0. *)
Definition bitem {A} (d : A) (a : ndarray A) (i j : nat) : A :=
  item d a (if (rows a =? 1)%nat then 0%nat else i)
           (if (cols a =? 1)%nat then 0%nat else j).

(** A slice bound [i] on an axis of length [n]: a negative bound counts from
    the end, and both ends are clipped to the axis. *)
Definition clip (n : nat) (i : Z) : nat :=
  if i <? 0 then Z.to_nat (Z.max 0 (i + Z.of_nat n))
  else Z.to_nat (Z.min i (Z.of_nat n)).

Definition sub {A} (lo hi : nat) (l : list A) : list A :=
  firstn (hi - lo) (skipn lo l).

(** [a[y0:y1, x0:x1]] *)
Definition getslice {A} (a : ndarray A) (y0 y1 x0 x1 : Z) : ndarray A :=
  let ly := clip (rows a) y0 in
  let hy := clip (rows a) y1 in
  let lx := clip (cols a) x0 in
  let hx := clip (cols a) x1 in
  mk (hy - ly) (hx - lx) (List.map (sub lx hx) (sub ly hy (data a))).

(** Broadcasting: two axes go together when they are equal or one of them
    is 1; an axis of length 1 is repeated. *)
Definition broadcast_error : exn :=
  ValueError "operands could not be broadcast together".

Definition bdim (n m : nat) : result nat :=
  if (n =? m)%nat then Ok n
  else if (n =? 1)%nat then Ok m
  else if (m =? 1)%nat then Ok n
  else Raise broadcast_error.

Definition stretch {A} (n : nat) (l : list A) : list A :=
  match l with
  | [x] => repeat x n
  | _ => l
  end.

Definition broadcast_to {A} (h w : nat) (a : ndarray A) : list (list A) :=
  stretch h (List.map (stretch w) (data a)).

Definition zip_with {A B C} (f : A -> B -> C) (l1 : list A) (l2 : list B)
    : list C :=
  List.map (fun p => f (fst p) (snd p)) (combine l1 l2).

(** An elementwise operation on one array, and on two with broadcasting. *)
Definition map {A B} (f : A -> B) (a : ndarray A) : ndarray B :=
  mk (rows a) (cols a) (List.map (List.map f) (data a)).

Definition map2 {A B C} (f : A -> B -> C) (a : ndarray A) (b : ndarray B)
    : result (ndarray C) :=
  rbind (bdim (rows a) (rows b)) (fun h =>
  rbind (bdim (cols a) (cols b)) (fun w =>
  Ok (mk h w (zip_with (zip_with f) (broadcast_to h w a) (broadcast_to h w b))))).

(** [a[y0:y1, x0:x1] = v]: [v] must have the shape of the slice, up to axes
    of length 1. *)
Definition fits (n target : nat) : bool :=
  (n =? target)%nat || (n =? 1)%nat.

Definition splice {A} (lo n : nat) (old new : list A) : list A :=
  firstn lo old ++ new ++ skipn (lo + n) old.

Definition setslice {A} (a : ndarray A) (y0 y1 x0 x1 : Z) (v : ndarray A)
    : result (ndarray A) :=
  let ly := clip (rows a) y0 in
  let hy := clip (rows a) y1 in
  let lx := clip (cols a) x0 in
  let hx := clip (cols a) x1 in
  let th := (hy - ly)%nat in
  let tw := (hx - lx)%nat in
  if fits (rows v) th && fits (cols v) tw then
    Ok (mk (rows a) (cols a)
          (splice ly th (data a)
             (zip_with (splice lx tw) (sub ly hy (data a))
                (broadcast_to th tw v))))
  else Raise (ValueError "could not broadcast input array").

(** The cells that [a[y0:y1, x0:x1]] denotes. *)
Definition in_slice {A} (a : ndarray A) (y0 y1 x0 x1 : Z) (i j : nat) : Prop :=
  (clip (rows a) y0 <= i < clip (rows a) y1)%nat /\
  (clip (cols a) x0 <= j < clip (cols a) x1)%nat.

Definition in_sliceb {A} (a : ndarray A) (y0 y1 x0 x1 : Z) (i j : nat) : bool :=
  (clip (rows a) y0 <=? i)%nat && (i <? clip (rows a) y1)%nat &&
  (clip (cols a) x0 <=? j)%nat && (j <? clip (cols a) x1)%nat.

(** [a[i, j] > 0], for a cell that the data holds. *)
Definition positive_at (a : ndarray Z) (i j : nat) : Prop :=
  exists r v, nth_error (data a) i = Some r /\ nth_error r j = Some v /\ 0 < v.

(** [np.zeros_like] *)
Definition zeros_like {A} (a : ndarray A) : ndarray Z :=
  mk (rows a) (cols a) (repeat (repeat 0 (cols a)) (rows a)).

(** [np.where(a > 0)]: the coordinates, in row-major order, of the positive
    cells. *)
Definition positive_in_row (i : nat) (r : list Z) : list (nat * nat) :=
  List.map (fun jv => (i, fst jv))
    (filter (fun jv => 0 <? snd jv) (combine (seq 0 (length r)) r)).

Definition where_positive (a : ndarray Z) : list (nat * nat) :=
  concat (List.map (fun ir => positive_in_row (fst ir) (snd ir))
            (combine (seq 0 (length (data a))) (data a))).

End Np.

(** [float32] and [float64] values are IEEE 754 numbers with the operations
    of the standard library's specification. *)
Module Float32.

Definition prec : Z := 24.
Definition emax : Z := 128.

Definition of_int (z : Z) : spec_float := binary_normalize prec emax z 0 false.
Definition mul : spec_float -> spec_float -> spec_float := SFmul prec emax.
Definition add : spec_float -> spec_float -> spec_float := SFadd prec emax.
Definition sub : spec_float -> spec_float -> spec_float := SFsub prec emax.

(** Conversion to an integer drops the fraction. *)
Definition trunc (x : spec_float) : Z :=
  match x with
  | S754_finite s m e =>
      let mag := if 0 <=? e then Zpos m * 2 ^ e else Zpos m / 2 ^ (- e) in
      if s then - mag else mag
  | _ => 0
  end.

(** Storing a [float32] into a [uint8] cell.  For values in [0, 256) this is
    the truncation; outside that range C leaves the conversion undefined,
    and the low byte is what x86 builds of NumPy store. *)
Definition to_uint8 (x : spec_float) : Z := trunc x mod 256.

End Float32.

Module Float64.

Definition prec : Z := 53.
Definition emax : Z := 1024.

Definition of_int (z : Z) : spec_float := binary_normalize prec emax z 0 false.

(** [float('inf')] *)
Definition inf : spec_float := S754_infinity false.

(** [a > b] *)
Definition gtb (a b : spec_float) : bool := SFltb b a.

End Float64.

(** A pixel in OpenCV's channel order, and a frame. *)
Definition pixel : Type := Z * Z * Z.
Definition image : Type := Np.ndarray pixel.

Definition black : pixel := (0, 0, 0).
Definition white : pixel := (255, 255, 255).

(** [cv2.cvtColor] with [COLOR_BGR2RGB] or [COLOR_RGB2BGR]: the first and the
    third channel change places. *)
Definition swap_channels (p : pixel) : pixel :=
  let '(c0, c1, c2) := p in (c2, c1, c0).

Definition cvtColor_swap (a : image) : image := Np.map swap_channels a.

(* ===================================================================== *)
(** * FrameSkipDetector *)
(* ===================================================================== *)

Module FrameSkipDetector.

Section WithRegions.
(** [gray_mse roi1 roi2] stands for the last three lines of
    [calculate_frame_difference]: both regions converted to gray by
    [cv2.cvtColor], and [np.mean] of the squared differences, a [float64]. *)
Context {Roi : Type}.
Variable gray_mse : Roi -> Roi -> result spec_float.

Record t : Type := mk {
  keyframe_interval : Z;
  scene_change_threshold : spec_float;
  prev_roi : option Roi
}.

Definition set_prev_roi (r : option Roi) (s : t) : t :=
  mk (keyframe_interval s) (scene_change_threshold s) r.

(** [FrameSkipDetector.__init__] *)
Definition init (keyframe_interval : Z) (scene_change_threshold : spec_float) : t :=
  mk keyframe_interval scene_change_threshold None.

(** [calculate_frame_difference]; [None] is Python's [None]. *)
Definition calculate_frame_difference (roi1 roi2 : option Roi)
    : result spec_float :=
  match roi1, roi2 with
  | Some r1, Some r2 => gray_mse r1 r2
  | _, _ => Ok Float64.inf
  end.

(** [should_process_frame] *)
Definition should_process_frame (frame_index : Z) (roi : option Roi) : M t bool :=
  k <- gets keyframe_interval ;;
  r <- lift (py_mod frame_index k) ;;
  let is_keyframe := r =? 0 in
  if is_keyframe then ret true
  else
    prev <- gets prev_roi ;;
    match prev with
    | Some p =>
        diff <- lift (calculate_frame_difference roi (Some p)) ;;
        thr <- gets scene_change_threshold ;;
        if Float64.gtb diff thr then ret true else ret false
    | None => ret false
    end.

(** [update_prev_roi] *)
Definition update_prev_roi (roi : option Roi) : M t unit :=
  match roi with
  | Some r => modify (set_prev_roi (Some r))
  | None => ret tt
  end.

End WithRegions.

Arguments t Roi : clear implicits.

End FrameSkipDetector.

(* ===================================================================== *)
(** * WatermarkDetector *)
(* ===================================================================== *)

Module WatermarkDetector.

(** A region of interest [(x, y, width, height)] and the bounds
    [(y_min, y_max, x_min, x_max)] of a rectangle. *)
Definition rect : Type := Z * Z * Z * Z.

Definition no_watermark : exn := ValueError "No watermark region found in mask".

(** ** Dilation, as [cv2.dilate] documents it

    Each output cell is the maximum of the input over the cells that a
    [k] x [k] block of ones covers when it is anchored at its centre
    [(k / 2, k / 2)].  Cells outside the image take no part, which for the
    non-negative cells of a [uint8] image is the same as reading them as 0.
    An empty structuring element stands for the 3 x 3 block, and an empty
    image is refused. *)
Definition cell (a : Np.ndarray Z) (i j : Z) : Z :=
  if (0 <=? i) && (i <? Z.of_nat (Np.rows a))
     && (0 <=? j) && (j <? Z.of_nat (Np.cols a))
  then Np.item 0 a (Z.to_nat i) (Z.to_nat j)
  else 0.

Definition window (k : nat) (c : Z) : list Z :=
  List.map (fun d => c + Z.of_nat d - Z.of_nat (k / 2)) (seq 0 k).

Definition dilate_at (k : nat) (a : Np.ndarray Z) (i j : Z) : Z :=
  fold_left Z.max
    (flat_map (fun y => List.map (fun x => cell a y x) (window k j)) (window k i))
    0.

Definition dilate_once (k : nat) (a : Np.ndarray Z) : Np.ndarray Z :=
  Np.mk (Np.rows a) (Np.cols a)
    (List.map (fun i =>
       List.map (fun j => dilate_at k a (Z.of_nat i) (Z.of_nat j))
         (seq 0 (Np.cols a)))
       (seq 0 (Np.rows a))).

Definition dilate (a : Np.ndarray Z) (k : nat) (iterations : nat)
    : result (Np.ndarray Z) :=
  if (Np.rows a =? 0)%nat || (Np.cols a =? 0)%nat then Raise CvError
  else Ok (Nat.iter iterations (dilate_once (if (k =? 0)%nat then 3%nat else k)) a).

(** [a] is below [b]: same shape, and cell by cell not greater. *)
Definition below (a b : Np.ndarray Z) : Prop :=
  Np.rows a = Np.rows b /\ Np.cols a = Np.cols b /\
  forall i j, Np.item 0 a i j <= Np.item 0 b i j.

(** ** The detector *)

Section WithOpenCV.
(** [otsu_binary roi_frame] stands for [cv2.cvtColor] to gray followed by
    [cv2.threshold] with Otsu's method; [selected] is the region that
    [select_roi] returns, scaled back from the one the user draws.  A
    [select_roi] that raises before it assigns the region (in the frame
    grab, the resize or the window) leaves the detector without one and is
    not covered: what is stated of [generate_mask] is stated of detectors
    that have a region, or of calls in which [select_roi] returned. *)
Variable otsu_binary : image -> result (Np.ndarray Z).
Variable selected : rect.

Record t : Type := mk {
  num_sample_frames : Z;
  min_frame_count : Z;
  dilation_kernel_size : Z;
  roi : option rect
}.

Definition set_roi (r : option rect) (s : t) : t :=
  mk (num_sample_frames s) (min_frame_count s) (dilation_kernel_size s) r.

(** [WatermarkDetector.__init__] *)
Definition init (num_sample_frames min_frame_count dilation_kernel_size : Z) : t :=
  mk num_sample_frames min_frame_count dilation_kernel_size None.

(** [select_roi] *)
Definition select_roi : M t rect :=
  modify (set_roi (Some selected)) ;;; ret selected.

(** [detect_watermark_in_frame] *)
Definition detect_watermark_in_frame (s : t) (frame : image)
    : result (Np.ndarray Z) :=
  match roi s with
  | None =>
      Raise (ValueError "ROI hasn't been selected yet. Call select_roi first.")
  | Some (x, y, w, h) =>
      let roi_frame := Np.getslice frame y (y + h) x (x + w) in
      rbind (otsu_binary roi_frame) (fun binary_frame =>
      let mask := Np.zeros_like frame in
      Np.setslice mask y (y + h) x (x + w) binary_frame)
  end.

Fixpoint detect_all (s : t) (frames : list image)
    : result (list (Np.ndarray Z)) :=
  match frames with
  | [] => Ok []
  | f :: fs =>
      rbind (detect_watermark_in_frame s f) (fun m =>
      rbind (detect_all s fs) (fun ms => Ok (m :: ms)))
  end.

(** [(mask == 255).astype(np.uint8)] *)
Definition is_255 (m : Np.ndarray Z) : Np.ndarray Z :=
  Np.map (fun v => if v =? 255 then 1 else 0) m.

(** The sum of [uint8] arrays wraps around at 256. *)
Definition add_uint8 (a b : Np.ndarray Z) : result (Np.ndarray Z) :=
  Np.map2 (fun x y => (x + y) mod 256) a b.

(** [sum(...)] over the marks of at least one mask: Python starts from the
    integer 0, and [0 + m] is [m]. *)
Fixpoint sum_from (acc : Np.ndarray Z) (ms : list (Np.ndarray Z))
    : result (Np.ndarray Z) :=
  match ms with
  | [] => Ok acc
  | m :: ms' => rbind (add_uint8 acc (is_255 m)) (fun acc' => sum_from acc' ms')
  end.

(** The vote count of every cell: the masks of the sampled frames, and the
    sum of their marks. *)
Definition count_votes (s : t) (frame0 : image) (frames : list image)
    : result (Np.ndarray Z) :=
  rbind (detect_watermark_in_frame s frame0) (fun m =>
  rbind (detect_all s frames) (fun ms =>
  sum_from (is_255 m) ms)).

(** [np.where(final_mask >= self.min_frame_count, 255, 0)] *)
Definition threshold_votes (min_count : Z) (votes : Np.ndarray Z) : Np.ndarray Z :=
  Np.map (fun v => if min_count <=? v then 255 else 0) votes.

(** [generate_mask], for the frames [frame0 :: frames] sampled from the clip.
    There is at least one: with [num_sample_frames = 0] Python's [sum] is the
    integer 0 and no array reaches the later steps. *)
Definition generate_mask (frame0 : image) (frames : list image)
    : M t (Np.ndarray Z) :=
  r <- gets roi ;;
  match r with
  | None => _ <- select_roi ;; ret tt
  | Some _ => ret tt
  end ;;;
  s <- gets (fun s => s) ;;
  votes <- lift (count_votes s frame0 frames) ;;
  let final_mask := threshold_votes (min_frame_count s) votes in
  k <- (if dilation_kernel_size s <? 0
        then raise (ValueError "negative dimensions are not allowed")
        else ret (Z.to_nat (dilation_kernel_size s))) ;;
  lift (dilate final_mask k 2).

(** The detector once [generate_mask] has made sure of a region. *)
Definition with_roi (s : t) : t :=
  match roi s with
  | None => set_roi (Some selected) s
  | Some _ => s
  end.

(** [np.min] and [np.max] of a non-empty index array. *)
Definition minimum (x : Z) (xs : list Z) : Z := fold_left Z.min xs x.
Definition maximum (x : Z) (xs : list Z) : Z := fold_left Z.max xs x.

(** [get_roi_coordinates] *)
Definition get_roi_coordinates (watermark_mask : Np.ndarray Z) (margin : Z)
    : result rect :=
  let found := Np.where_positive watermark_mask in
  let y_indices := List.map (fun p => Z.of_nat (fst p)) found in
  let x_indices := List.map (fun p => Z.of_nat (snd p)) found in
  match y_indices, x_indices with
  | y :: ys, x :: xs =>
      let y_min := Z.max 0 (minimum y ys - margin) in
      let y_max := Z.min (Z.of_nat (Np.rows watermark_mask)) (maximum y ys + margin) in
      let x_min := Z.max 0 (minimum x xs - margin) in
      let x_max := Z.min (Z.of_nat (Np.cols watermark_mask)) (maximum x xs + margin) in
      Ok (y_min, y_max, x_min, x_max)
  | _, _ => Raise no_watermark
  end.

(** [extract_roi_mask] *)
Definition extract_roi_mask (watermark_mask : Np.ndarray Z) (roi_coords : rect)
    : Np.ndarray Z :=
  let '(y_min, y_max, x_min, x_max) := roi_coords in
  Np.getslice watermark_mask y_min y_max x_min x_max.

End WithOpenCV.

End WatermarkDetector.

(* ===================================================================== *)
(** * WatermarkProcessor *)
(* ===================================================================== *)

Module WatermarkProcessor.
Import WatermarkDetector.

(** ** The compositor: the last statements of [process_frame] *)

Definition f32_pixel : Type := spec_float * spec_float * spec_float.

(** [w * p] for a weight and the three [uint8] channels of a pixel. *)
Definition scale (w : spec_float) (p : pixel) : f32_pixel :=
  let '(c0, c1, c2) := p in
  (Float32.mul w (Float32.of_int c0),
   Float32.mul w (Float32.of_int c1),
   Float32.mul w (Float32.of_int c2)).

Definition add_pixels (p q : f32_pixel) : f32_pixel :=
  let '(p0, p1, p2) := p in
  let '(q0, q1, q2) := q in
  (Float32.add p0 q0, Float32.add p1 q1, Float32.add p2 q2).

Definition store_pixel (p : f32_pixel) : pixel :=
  let '(p0, p1, p2) := p in
  (Float32.to_uint8 p0, Float32.to_uint8 p1, Float32.to_uint8 p2).

Definition one_minus (w : spec_float) : spec_float :=
  Float32.sub (Float32.of_int 1) w.

(** One channel of an output pixel: [w * regenerated + (1 - w) * raw] in
    [float32], stored into the [uint8] frame. *)
Definition blend_channel (w : spec_float) (regenerated raw : Z) : Z :=
  Float32.to_uint8
    (Float32.add (Float32.mul w (Float32.of_int regenerated))
                 (Float32.mul (one_minus w) (Float32.of_int raw))).

Definition blend_pixel (w : spec_float) (regenerated raw : pixel) : pixel :=
  let '(p0, p1, p2) := regenerated in
  let '(r0, r1, r2) := raw in
  (blend_channel w p0 r0, blend_channel w p1 r1, blend_channel w p2 r2).

(** [result = frame_bgr.copy()] and the assignment to its region. *)
Definition composite (frame_bgr : image) (roi_coords : rect)
    (blend_mask : Np.ndarray spec_float) (processed_roi : option image)
    (roi : image) : result image :=
  let '(y_min, y_max, x_min, x_max) := roi_coords in
  match processed_roi with
  | None => Raise TypeError
  | Some processed =>
      rbind (Np.map2 scale blend_mask processed) (fun regenerated_part =>
      rbind (Np.map2 scale (Np.map one_minus blend_mask) roi) (fun raw_part =>
      rbind (Np.map2 add_pixels regenerated_part raw_part) (fun blended =>
      Np.setslice frame_bgr y_min y_max x_min x_max
        (Np.map store_pixel blended))))
  end.

Section WithServices.
(** The collaborators: [compute_hash] and [gray_mse] as in the cache and the
    skip detector; [model roi mask] is the inpainting call of [lama_inpaint]
    with the normalisation of its output; [gaussian_blur mask] is
    [cv2.GaussianBlur(mask.astype(np.float32), (21, 21), 0) / 255.0]. *)
Variable compute_hash : image -> FrameCache.ImageHash.
Variable gray_mse : image -> image -> result spec_float.
Variable model : image -> Np.ndarray Z -> result image.
Variable gaussian_blur : Np.ndarray Z -> result (Np.ndarray spec_float).

Record t : Type := mk {
  roi_coords : rect;
  roi_mask : Np.ndarray Z;
  frame_cache : FrameCache.t image;
  skip_detector : FrameSkipDetector.t image;
  prev_processed_roi : option image
}.

Definition set_frame_cache (c : FrameCache.t image) (s : t) : t :=
  mk (roi_coords s) (roi_mask s) c (skip_detector s) (prev_processed_roi s).

Definition set_skip_detector (d : FrameSkipDetector.t image) (s : t) : t :=
  mk (roi_coords s) (roi_mask s) (frame_cache s) d (prev_processed_roi s).

Definition set_prev_processed_roi (p : option image) (s : t) : t :=
  mk (roi_coords s) (roi_mask s) (frame_cache s) (skip_detector s) p.

(** [WatermarkProcessor.__init__] *)
Definition init (roi_coords : rect) (roi_mask : Np.ndarray Z) : t :=
  mk roi_coords roi_mask
     (FrameCache.init 100 3)
     (FrameSkipDetector.init 5 (Float64.of_int 50))
     None.

(** [lama_inpaint] *)
Definition lama_inpaint (frame : image) (mask : Np.ndarray Z) : result image :=
  let mask_binary := Np.map (fun v => if 0 <? v then 255 else 0) mask in
  model frame mask_binary.

(** [extract_roi] *)
Definition extract_roi (s : t) (frame_bgr : image) : image :=
  let '(y_min, y_max, x_min, x_max) := roi_coords s in
  Np.getslice frame_bgr y_min y_max x_min x_max.

(** The branch of [process_frame] that regenerates the region. *)
Definition regenerate (roi : image) : M t (option image) :=
  cached <- zoom frame_cache set_frame_cache (FrameCache.get compute_hash roi) ;;
  processed_roi <-
    match cached with
    | Some p => ret p
    | None =>
        mask <- gets roi_mask ;;
        inpainted <- lift (lama_inpaint roi mask) ;;
        let p := cvtColor_swap inpainted in
        zoom frame_cache set_frame_cache (FrameCache.put compute_hash roi p) ;;;
        ret p
    end ;;
  zoom skip_detector set_skip_detector
    (FrameSkipDetector.update_prev_roi (Some roi)) ;;;
  modify (set_prev_processed_roi (Some processed_roi)) ;;;
  ret (Some processed_roi).

(** [process_frame] *)
Definition process_frame (frame_bgr : image) (frame_index : Z) : M t image :=
  coords <- gets roi_coords ;;
  roi <- gets (fun s => extract_roi s frame_bgr) ;;
  process_this_frame <-
    zoom skip_detector set_skip_detector
      (FrameSkipDetector.should_process_frame gray_mse frame_index (Some roi)) ;;
  processed_roi <-
    (if process_this_frame : bool then regenerate roi
     else gets prev_processed_roi) ;;
  mask <- gets roi_mask ;;
  blend_mask <- lift (gaussian_blur mask) ;;
  lift (composite frame_bgr coords blend_mask processed_roi roi).

(** The frame loop of [process_video]: [process_frame_wrapper] is called on
    the frames in order while [frame_count] counts from its start value;
    an exception ends the loop. *)
Definition process_frame_wrapper (frame : image) (frame_count : Z) : M t image :=
  let frame_bgr := cvtColor_swap frame in
  result <- process_frame frame_bgr frame_count ;;
  ret (cvtColor_swap result).

Fixpoint process_frames (frames : list image) (frame_count : Z)
    : M t (list image) :=
  match frames with
  | [] => ret []
  | f :: fs =>
      out <- process_frame_wrapper f frame_count ;;
      outs <- process_frames fs (frame_count + 1) ;;
      ret (out :: outs)
  end.

End WithServices.

(** The first statements of [process_video], for a clip of height [clip_h]
    and width [clip_w]: the coordinates of the mask's foreground with the
    margin 50, the mask cropped to them, and the processor made of the two.
    [None] is the early return for a mask without foreground. *)
Definition process_video_setup (clip_h clip_w : Z) (watermark_mask : Np.ndarray Z)
    : option t :=
  let found := Np.where_positive watermark_mask in
  let y_indices := List.map (fun p => Z.of_nat (fst p)) found in
  let x_indices := List.map (fun p => Z.of_nat (snd p)) found in
  match y_indices, x_indices with
  | y :: ys, x :: xs =>
      let margin := 50 in
      let y_min := Z.max 0 (minimum y ys - margin) in
      let y_max := Z.min clip_h (maximum y ys + margin) in
      let x_min := Z.max 0 (minimum x xs - margin) in
      let x_max := Z.min clip_w (maximum x xs + margin) in
      let roi_coords := (y_min, y_max, x_min, x_max) in
      let roi_mask := Np.getslice watermark_mask y_min y_max x_min x_max in
      Some (init roi_coords roi_mask)
  | _, _ => None
  end.

End WatermarkProcessor.

(* ===================================================================== *)
(** * process_video and the report of the main loop *)
(* ===================================================================== *)

Module Main.
Import WatermarkDetector WatermarkProcessor.
Local Open Scope string_scope.

(** What the dictionaries of [get_video_info] and [process_video] hold. *)
#[local] Unset Elimination Schemes.
Inductive value : Type :=
| VStr (s : string)
| VInt (n : Z)
| VDict (d : list (string * value)).
#[local] Set Elimination Schemes.

(** [get_video_info]: [resolution], [duration] and [fps] are the texts that
    the format strings give for the clip. *)
Definition get_video_info (resolution duration fps : string) (total_frames : Z)
    : @dict string value :=
  [("resolution", VStr resolution);
   ("duration", VStr duration);
   ("total_frames", VInt total_frames);
   ("fps", VStr fps);
   ("format", VStr "mp4")].

(** [v[k]] for a string [k]: a dictionary is looked up, a string or an
    integer cannot be indexed by a string. *)
Definition subscript (v : value) (k : string) : result value :=
  match v with
  | VDict d =>
      match getitem string_dec k d with
      | Some x => Ok x
      | None => Raise KeyError
      end
  | VStr _ | VInt _ => Raise TypeError
  end.

Section WithServices.
Variable compute_hash : image -> FrameCache.ImageHash.
Variable gray_mse : image -> image -> result spec_float.
Variable model : image -> Np.ndarray Z -> result image.
Variable gaussian_blur : Np.ndarray Z -> result (Np.ndarray spec_float).

(** [process_video]: [video_info] is what [get_video_info] returned for the
    clip, [frames] are the frames in the order in which the clip hands them
    to [process_frame_wrapper], and [processing_time] is the text of the
    time spent.  Without foreground in the mask the bare [video_info] is
    returned. *)
Definition process_video (video_info : @dict string value)
    (clip_h clip_w : Z) (frames : list image) (watermark_mask : Np.ndarray Z)
    (processing_time : string) : result value :=
  match process_video_setup clip_h clip_w watermark_mask with
  | None => Ok (VDict video_info)
  | Some processor =>
      match process_frames compute_hash gray_mse model gaussian_blur
              frames 0 processor with
      | (Ok _, _) =>
          Ok (VDict [("video_info", VDict video_info);
                     ("processing_time", VStr processing_time)])
      | (Raise e, _) => Raise e
      end
  end.

End WithServices.

(** The five values that the main loop prints after [process_video], looked
    up in the order of its [print] calls. *)
Definition report (processing_info : value) : result (list value) :=
  rbind (rbind (subscript processing_info "video_info")
               (fun info => subscript info "resolution")) (fun resolution =>
  rbind (rbind (subscript processing_info "video_info")
               (fun info => subscript info "duration")) (fun duration =>
  rbind (rbind (subscript processing_info "video_info")
               (fun info => subscript info "fps")) (fun fps =>
  rbind (rbind (subscript processing_info "video_info")
               (fun info => subscript info "total_frames")) (fun total_frames =>
  rbind (subscript processing_info "processing_time") (fun processing_time =>
  Ok [resolution; duration; fps; total_frames; processing_time]))))).

End Main.

(* ===================================================================== *)
(** * Sample data *)
(* ===================================================================== *)

Module Samples.

(** On frames that are black and white only, Otsu's threshold separates the
    two values: white cells are marked 255 and black cells 0. *)
Definition otsu_black_white (roi_frame : image) : result (Np.ndarray Z) :=
  Ok (Np.map (fun p : pixel => let '(_, c1, _) := p in
                               if 127 <? c1 then 255 else 0) roi_frame).

Definition black_frame : image :=
  Np.mk 2 2 [[black; black]; [black; black]].

(** A 1 x 5 strip with a white cell at its left end, and one without. *)
Definition marked_strip : image :=
  Np.mk 1 5 [[white; black; black; black; black]].
Definition plain_strip : image :=
  Np.mk 1 5 [[black; black; black; black; black]].

(** Weights 0, 1/2 and 1 in [float32]. *)
Definition weight_zero : spec_float := S754_zero false.
Definition weight_half : spec_float := S754_finite false 8388608 (-24).
Definition weight_one : spec_float := Float32.of_int 1.

(** Stand-ins for the services of the processor: every region hashes alike,
    frames never differ, the model paints the region white, and the blur
    leaves the mask sharp. *)
Definition same_hash (roi : image) : FrameCache.ImageHash := 0%N.
Definition no_difference (roi1 roi2 : image) : result spec_float :=
  Ok (Float64.of_int 0).
Definition paint_white (roi : image) (mask : Np.ndarray Z) : result image :=
  Ok (Np.map (fun _ => white) roi).
Definition sharp_mask (mask : Np.ndarray Z) : result (Np.ndarray spec_float) :=
  Ok (Np.map (fun v => if 0 <? v then weight_one else weight_zero) mask).

(** A blur that leaves the weight 1/2 on the cells of the mask. *)
Definition soft_mask (mask : Np.ndarray Z) : result (Np.ndarray spec_float) :=
  Ok (Np.map (fun v => if 0 <? v then weight_half else weight_zero) mask).

Definition gray (v : Z) : pixel := (v, v, v).

(** A 2 x 3 frame, and a region made of the first two cells of its first
    row, of which the first belongs to the watermark. *)
Definition small_frame : image :=
  Np.mk 2 3 [[gray 10; gray 20; gray 30]; [gray 40; gray 50; gray 60]].
Definition small_coords : WatermarkDetector.rect := (0, 1, 0, 2).
Definition small_mask : Np.ndarray Z := Np.mk 1 2 [[255; 0]].

(** A detector with the defaults of the source and the region already
    selected. *)
Definition default_detector (r : WatermarkDetector.rect) : WatermarkDetector.t :=
  WatermarkDetector.mk 10 7 7 (Some r).

End Samples.

(* ===================================================================== *)
(** * Properties *)
(* ===================================================================== *)

(** ** Dictionaries *)

Module DictFacts.
Section Facts.
Context {K : Type}.
Variable K_eq_dec : forall x y : K, {x = y} + {x <> y}.

Lemma getitem_None_iff {V} (k : K) (d : dict K V) :
  getitem K_eq_dec k d = None <-> ~ In k (keys d).
Proof.
  induction d as [|[k' v'] d IH]; simpl.
  - tauto.
  - destruct (K_eq_dec k k') as [->|Hne].
    + split; [discriminate | intros H; exfalso; apply H; now left].
    + rewrite IH. split; intros H; [intros [E|I]; [congruence | tauto] | tauto].
Qed.

Lemma getitem_Some_In {V} (k : K) (v : V) (d : dict K V) :
  getitem K_eq_dec k d = Some v -> In k (keys d).
Proof.
  intros H. destruct (in_dec K_eq_dec k (keys d)) as [I|NI]; [exact I|].
  apply getitem_None_iff in NI. congruence.
Qed.

Lemma In_getitem {V} (k : K) (d : dict K V) :
  In k (keys d) -> exists v, getitem K_eq_dec k d = Some v.
Proof.
  intros I. destruct (getitem K_eq_dec k d) as [v|] eqn:E; [eauto|].
  apply getitem_None_iff in E. contradiction.
Qed.

Lemma getitem_setitem_eq {V} (k : K) (v : V) (d : dict K V) :
  getitem K_eq_dec k (setitem K_eq_dec k v d) = Some v.
Proof.
  induction d as [|[k' v'] d IH]; simpl.
  - destruct (K_eq_dec k k); congruence.
  - destruct (K_eq_dec k k') as [->|Hne]; simpl.
    + destruct (K_eq_dec k' k'); congruence.
    + destruct (K_eq_dec k k'); [contradiction | exact IH].
Qed.

Lemma getitem_setitem_ne {V} (k k0 : K) (v : V) (d : dict K V) :
  k0 <> k -> getitem K_eq_dec k0 (setitem K_eq_dec k v d) = getitem K_eq_dec k0 d.
Proof.
  intros Hne. induction d as [|[k' v'] d IH]; simpl.
  - destruct (K_eq_dec k0 k); [contradiction | reflexivity].
  - destruct (K_eq_dec k k') as [->|Hne']; simpl.
    + destruct (K_eq_dec k0 k'); [contradiction | reflexivity].
    + destruct (K_eq_dec k0 k'); [reflexivity | exact IH].
Qed.

(** Assignment keeps the position of a key that is present and appends a
    new one. *)
Lemma keys_setitem_In {V} (k : K) (v : V) (d : dict K V) :
  In k (keys d) -> keys (setitem K_eq_dec k v d) = keys d.
Proof.
  induction d as [|[k' v'] d IH]; simpl; [tauto|].
  intros [E|I]; destruct (K_eq_dec k k') as [->|Hne]; simpl; try reflexivity.
  - congruence.
  - now rewrite IH.
Qed.

Lemma keys_setitem_notin {V} (k : K) (v : V) (d : dict K V) :
  ~ In k (keys d) -> keys (setitem K_eq_dec k v d) = keys d ++ [k].
Proof.
  induction d as [|[k' v'] d IH]; simpl; [reflexivity|].
  intros H. destruct (K_eq_dec k k') as [->|Hne]; simpl.
  - exfalso. apply H. now left.
  - rewrite IH; [reflexivity | tauto].
Qed.

(** The keys after an assignment or a deletion depend on the keys only. *)
Lemma keys_setitem_sync {V W} (k : K) (v : V) (w : W)
    (d : dict K V) (e : dict K W) :
  keys d = keys e ->
  keys (setitem K_eq_dec k v d) = keys (setitem K_eq_dec k w e).
Proof.
  intros H. destruct (in_dec K_eq_dec k (keys d)) as [I|NI].
  - rewrite !keys_setitem_In; congruence.
  - rewrite !keys_setitem_notin; congruence.
Qed.

Lemma keys_remove_sync {V W} (k : K) (d : dict K V) (e : dict K W) :
  keys d = keys e -> keys (remove K_eq_dec k d) = keys (remove K_eq_dec k e).
Proof.
  revert e. induction d as [|[k' v'] d IH]; intros [|[k2 w2] e]; simpl;
    try discriminate; [reflexivity|].
  intros H. injection H as -> H.
  destruct (K_eq_dec k k2); simpl; [exact H | f_equal; now apply IH].
Qed.

Lemma remove_middle {V} (k : K) (v : V) (l1 l2 : dict K V) :
  ~ In k (keys l1) ->
  remove K_eq_dec k (l1 ++ (k, v) :: l2) = l1 ++ l2.
Proof.
  induction l1 as [|[k' v'] l1 IH]; simpl; intros H.
  - destruct (K_eq_dec k k); congruence.
  - destruct (K_eq_dec k k') as [->|Hne]; [exfalso; apply H; now left|].
    rewrite IH; [reflexivity | tauto].
Qed.

Lemma In_keys_remove {V} (k k0 : K) (d : dict K V) :
  In k0 (keys (remove K_eq_dec k d)) -> In k0 (keys d).
Proof.
  induction d as [|[k' v'] d IH]; simpl; [tauto|].
  destruct (K_eq_dec k k'); simpl; [tauto|]. intros [E|I]; [now left | right; auto].
Qed.

Lemma In_keys_remove_ne {V} (k k0 : K) (d : dict K V) :
  k0 <> k -> In k0 (keys d) -> In k0 (keys (remove K_eq_dec k d)).
Proof.
  intros Hne. induction d as [|[k' v'] d IH]; simpl; [tauto|].
  destruct (K_eq_dec k k') as [->|Hne']; simpl.
  - intros [E|I]; [congruence | exact I].
  - intros [E|I]; [now left | right; auto].
Qed.

Lemma NoDup_keys_remove {V} (k : K) (d : dict K V) :
  NoDup (keys d) -> NoDup (keys (remove K_eq_dec k d)).
Proof.
  induction d as [|[k' v'] d IH]; simpl; intros H; [exact H|].
  inversion H as [|? ? Hn Hd]; subst.
  destruct (K_eq_dec k k'); simpl; [exact Hd|].
  constructor; [|auto]. intros I. apply Hn. eapply In_keys_remove; eauto.
Qed.

Lemma notin_keys_remove {V} (k : K) (d : dict K V) :
  NoDup (keys d) -> ~ In k (keys (remove K_eq_dec k d)).
Proof.
  induction d as [|[k' v'] d IH]; simpl; intros H; [tauto|].
  inversion H as [|? ? Hn Hd]; subst.
  destruct (K_eq_dec k k') as [->|Hne]; simpl; [exact Hn|].
  intros [E|I]; [congruence | now apply IH].
Qed.

Lemma NoDup_keys_setitem {V} (k : K) (v : V) (d : dict K V) :
  NoDup (keys d) -> NoDup (keys (setitem K_eq_dec k v d)).
Proof.
  intros H. destruct (in_dec K_eq_dec k (keys d)) as [I|NI].
  - now rewrite keys_setitem_In.
  - rewrite keys_setitem_notin by exact NI.
    apply NoDup_app; [exact H | repeat constructor; simpl; tauto |].
    intros x Hx [<-|[]]. contradiction.
Qed.

Lemma length_remove_In {V} (k : K) (d : dict K V) :
  In k (keys d) -> S (length (remove K_eq_dec k d)) = length d.
Proof.
  induction d as [|[k' v'] d IH]; simpl; [tauto|].
  intros [E|I]; destruct (K_eq_dec k k') as [->|Hne]; simpl; try reflexivity.
  - congruence.
  - now rewrite IH.
Qed.

Lemma length_setitem_In {V} (k : K) (v : V) (d : dict K V) :
  In k (keys d) -> length (setitem K_eq_dec k v d) = length d.
Proof.
  intros I. rewrite <- (length_map fst (setitem _ _ _ _)), <- (length_map fst d).
  fold (keys (setitem K_eq_dec k v d)). now rewrite keys_setitem_In.
Qed.

Lemma length_setitem_notin {V} (k : K) (v : V) (d : dict K V) :
  ~ In k (keys d) -> length (setitem K_eq_dec k v d) = S (length d).
Proof.
  intros NI. rewrite <- (length_map fst (setitem _ _ _ _)), <- (length_map fst d).
  fold (keys (setitem K_eq_dec k v d)). rewrite keys_setitem_notin by exact NI.
  rewrite length_app. simpl. fold (keys d). lia.
Qed.

Lemma getitem_Some_In_entry {V} (k : K) (v : V) (d : dict K V) :
  getitem K_eq_dec k d = Some v -> In (k, v) d.
Proof.
  induction d as [|[k' v'] d IH]; simpl; [discriminate|].
  destruct (K_eq_dec k k') as [->|Hne].
  - intros H. injection H as ->. now left.
  - intros H. right. auto.
Qed.

Lemma getitem_middle {V} (k : K) (v : V) (l1 l2 : dict K V) :
  ~ In k (keys l1) -> getitem K_eq_dec k (l1 ++ (k, v) :: l2) = Some v.
Proof.
  induction l1 as [|[k' v'] l1 IH]; simpl; intros H.
  - destruct (K_eq_dec k k); congruence.
  - destruct (K_eq_dec k k') as [->|Hne]; [exfalso; apply H; now left|].
    apply IH. tauto.
Qed.

Lemma length_setitem_le {V} (k : K) (v : V) (d : dict K V) :
  (length (setitem K_eq_dec k v d) <= S (length d))%nat.
Proof.
  induction d as [|[k' v'] d IH]; simpl; [lia|].
  destruct (K_eq_dec k k'); simpl; lia.
Qed.

End Facts.

(** [min] returns the first of the entries with the least value. *)
Lemma min_from_spec {K} (d : dict K Z) (best : K) (bv : Z) :
  (min_from best bv d = best /\ Forall (fun e => bv <= snd e) d) \/
  (exists l1 k v l2,
      d = l1 ++ (k, v) :: l2 /\ min_from best bv d = k /\ v < bv /\
      Forall (fun e => v < snd e) l1 /\ Forall (fun e => v <= snd e) l2).
Proof.
  revert best bv. induction d as [|[k0 v0] d IH]; intros best bv; simpl.
  - left. split; [reflexivity | constructor].
  - destruct (Z.ltb_spec v0 bv) as [Hlt|Hge].
    + right. destruct (IH k0 v0) as [[E F]|(l1 & k & v & l2 & -> & E & Hv & F1 & F2)].
      * exists [], k0, v0, d.
        split; [reflexivity|]. split; [exact E|]. split; [exact Hlt|].
        split; [constructor | exact F].
      * exists ((k0, v0) :: l1), k, v, l2.
        split; [reflexivity|]. split; [exact E|]. split; [lia|].
        split; [constructor; [simpl; lia | exact F1] | exact F2].
    + destruct (IH best bv) as [[E F]|(l1 & k & v & l2 & -> & E & Hv & F1 & F2)].
      * left. split; [exact E|]. constructor; [simpl; lia | exact F].
      * right. exists ((k0, v0) :: l1), k, v, l2.
        split; [reflexivity|]. split; [exact E|]. split; [exact Hv|].
        split; [constructor; [simpl; lia | exact F1] | exact F2].
Qed.

Lemma min_key_spec {K} (d : dict K Z) (k : K) :
  min_key d = Some k ->
  exists l1 v l2,
    d = l1 ++ (k, v) :: l2 /\
    Forall (fun e => v < snd e) l1 /\ Forall (fun e => v <= snd e) l2.
Proof.
  destruct d as [|[k0 v0] d]; simpl; [discriminate|].
  intros H. injection H as H.
  destruct (min_from_spec d k0 v0) as [[E F]|(l1 & k' & v & l2 & -> & E & Hv & F1 & F2)].
  - exists [], v0, d. rewrite <- H, E.
    split; [reflexivity|]. split; [constructor | exact F].
  - exists ((k0, v0) :: l1), v, l2. rewrite <- H, E.
    split; [reflexivity|].
    split; [constructor; [simpl; lia | exact F1] | exact F2].
Qed.

Lemma min_key_nonempty {K} (d : dict K Z) :
  d <> [] -> exists k, min_key d = Some k.
Proof. destruct d as [|[k v] d]; [congruence | simpl; eauto]. Qed.

End DictFacts.

(** ** The frame cache *)

Module FrameCacheFacts.
Import DictFacts FrameCache.

Lemma count_nonzero_zero_iff (n : N) : count_nonzero n = 0 <-> n = 0%N.
Proof.
  destruct n as [|p]; simpl; [tauto|].
  split; [|discriminate]. intros H. exfalso.
  assert (Hp : (0 < popcount p)%nat) by (induction p; simpl; lia).
  lia.
Qed.

Lemma count_nonzero_nonneg (n : N) : 0 <= count_nonzero n.
Proof. destruct n; simpl; lia. Qed.

(** Equal hashes are at distance 0, and only they are. *)
Lemma hash_sub_zero_iff (h1 h2 : ImageHash) : hash_sub h1 h2 = 0 <-> h1 = h2.
Proof.
  unfold hash_sub. rewrite count_nonzero_zero_iff. apply N.lxor_eq_0_iff.
Qed.

(** Decide the key comparisons left in a goal. *)
Ltac destruct_keys :=
  repeat match goal with
         | |- context [hash_eq_dec ?x ?y] =>
             destruct (hash_eq_dec x y); try congruence; simpl
         end.

Section WithRegions.
Context {Roi Buf : Type}.
Variable compute_hash : Roi -> ImageHash.

Local Abbreviation put := (put compute_hash).
Local Abbreviation get := (get compute_hash).
Local Abbreviation state := (FrameCache.t Buf).

(** *** [put] in closed form *)

Lemma put_room (s : state) (roi : Roi) (p : Buf) :
  len (cache s) < cache_size s ->
  put roi p s =
    (Ok tt, mk (setitem hash_eq_dec (compute_hash roi) p (cache s))
               (cache_size s) (similarity_threshold s)
               (setitem hash_eq_dec (compute_hash roi) 1 (access_count s))).
Proof.
  intros H. unfold FrameCache.put, bind, gets, modify, ret. simpl.
  destruct (Z.leb_spec (cache_size s) (len (cache s))); [lia|]. reflexivity.
Qed.

Lemma put_full (s : state) (roi : Roi) (p : Buf) (victim : ImageHash) :
  consistent s ->
  cache_size s <= len (cache s) ->
  min_key (access_count s) = Some victim ->
  put roi p s =
    (Ok tt, mk (setitem hash_eq_dec (compute_hash roi) p
                  (remove hash_eq_dec victim (cache s)))
               (cache_size s) (similarity_threshold s)
               (setitem hash_eq_dec (compute_hash roi) 1
                  (remove hash_eq_dec victim (access_count s)))).
Proof.
  intros [Hk Hnd] Hfull Hmin.
  destruct (min_key_spec _ _ Hmin) as (l1 & v & l2 & Hac & _ & _).
  assert (Hin : In victim (keys (access_count s))).
  { rewrite Hac. unfold keys. rewrite map_app. apply in_or_app. right. now left. }
  destruct (In_getitem hash_eq_dec victim (access_count s) Hin) as [n Hn].
  rewrite <- Hk in Hin.
  destruct (In_getitem hash_eq_dec victim (cache s) Hin) as [b Hb].
  unfold FrameCache.put, bind, gets, modify, ret, or_raise, delitem. simpl.
  destruct (Z.leb_spec (cache_size s) (len (cache s))); [|lia].
  rewrite Hmin. simpl. rewrite Hb. simpl. rewrite Hn. simpl. reflexivity.
Qed.

(** With nothing stored and no room, [min] has nothing to choose from. *)
Lemma put_nothing_to_evict (s : state) (roi : Roi) (p : Buf) :
  cache s = [] -> access_count s = [] -> cache_size s <= 0 ->
  put roi p s = (Raise (ValueError "min() arg is an empty sequence"), s).
Proof.
  intros Hc Ha Hsz. unfold FrameCache.put, bind, gets, modify, ret, or_raise. simpl.
  destruct (Z.leb_spec (cache_size s) (len (cache s))) as [_|H].
  - rewrite Ha. reflexivity.
  - rewrite Hc in H. unfold len in H. simpl in H. lia.
Qed.

Lemma put_empty_min (s : state) (roi : Roi) (p : Buf) :
  cache_size s <= len (cache s) ->
  min_key (access_count s) = None ->
  put roi p s = (Raise (ValueError "min() arg is an empty sequence"), s).
Proof.
  intros Hfull Hmin. unfold FrameCache.put, bind, gets, modify, ret, or_raise. simpl.
  destruct (Z.leb_spec (cache_size s) (len (cache s))); [|lia].
  rewrite Hmin. reflexivity.
Qed.

(** *** [get] on a hit *)

Lemma get_hit (s : state) (roi : Roi) (bm : ImageHash) (d n : Z) (v : Buf) :
  scan (compute_hash roi) (keys (cache s)) = (Some bm, Int d) ->
  d <= similarity_threshold s ->
  getitem hash_eq_dec bm (access_count s) = Some n ->
  getitem hash_eq_dec bm (cache s) = Some v ->
  get roi s =
    (Ok (Some v), set_access_count
                    (setitem hash_eq_dec bm (n + 1) (access_count s)) s).
Proof.
  intros Hscan Hd Hn Hv.
  unfold FrameCache.get, bind, gets, modify, ret, or_raise. simpl.
  rewrite Hscan. simpl.
  destruct (Z.leb_spec d (similarity_threshold s)); [|lia].
  rewrite Hn. simpl. rewrite Hv. reflexivity.
Qed.

(** *** What the calls preserve *)

Lemma get_frame (s : state) (roi : Roi) :
  cache (snd (get roi s)) = cache s /\
  keys (access_count (snd (get roi s))) = keys (access_count s) /\
  cache_size (snd (get roi s)) = cache_size s /\
  similarity_threshold (snd (get roi s)) = similarity_threshold s.
Proof.
  unfold FrameCache.get, bind, gets, modify, ret, or_raise. simpl.
  destruct (scan (compute_hash roi) (keys (cache s))) as [[bm|] md]; simpl; auto.
  destruct (num_leb md (Int (similarity_threshold s))); simpl; auto.
  destruct (getitem hash_eq_dec bm (access_count s)) as [n|] eqn:En; simpl; auto.
  assert (Hk : keys (setitem hash_eq_dec bm (n + 1) (access_count s))
               = keys (access_count s)).
  { apply keys_setitem_In. eapply getitem_Some_In; eauto. }
  destruct (getitem hash_eq_dec bm (cache s)); simpl; auto.
Qed.

Lemma get_consistent (s : state) (roi : Roi) :
  consistent s -> consistent (snd (get roi s)).
Proof.
  intros [Hk Hnd]. destruct (get_frame s roi) as (Hc & Ha & _).
  unfold consistent. rewrite Hc, Ha. auto.
Qed.

Lemma min_key_None {K} (d : dict K Z) : min_key d = None -> d = [].
Proof. destruct d as [|[k v] d]; [reflexivity | discriminate]. Qed.

Lemma put_frame (s : state) (roi : Roi) (p : Buf) :
  consistent s ->
  consistent (snd (put roi p s)) /\
  cache_size (snd (put roi p s)) = cache_size s /\
  similarity_threshold (snd (put roi p s)) = similarity_threshold s.
Proof.
  intros Hs. pose proof Hs as [Hk Hnd].
  destruct (Z.lt_ge_cases (len (cache s)) (cache_size s)) as [Hroom|Hfull].
  - rewrite put_room by exact Hroom. simpl. repeat split.
    + simpl. now apply keys_setitem_sync.
    + simpl. now apply NoDup_keys_setitem.
  - destruct (min_key (access_count s)) as [victim|] eqn:Hmin.
    + rewrite (put_full s roi p victim Hs Hfull Hmin). simpl. repeat split.
      * simpl. apply keys_setitem_sync. now apply keys_remove_sync.
      * simpl. apply NoDup_keys_setitem. now apply NoDup_keys_remove.
    + rewrite put_empty_min by assumption. simpl. auto.
Qed.

Lemma put_size (s : state) (roi : Roi) (p : Buf) :
  consistent s -> 0 <= cache_size s ->
  len (cache s) <= cache_size s ->
  len (cache (snd (put roi p s))) <= cache_size s.
Proof.
  intros Hs Hc Hb. pose proof Hs as [Hk Hnd].
  destruct (Z.lt_ge_cases (len (cache s)) (cache_size s)) as [Hroom|Hfull].
  - rewrite put_room by exact Hroom. simpl. unfold len in *.
    pose proof (length_setitem_le hash_eq_dec (compute_hash roi) p (cache s)).
    lia.
  - destruct (min_key (access_count s)) as [victim|] eqn:Hmin.
    + rewrite (put_full s roi p victim Hs Hfull Hmin). simpl. unfold len in *.
      destruct (min_key_spec _ _ Hmin) as (l1 & v & l2 & Hac & _ & _).
      assert (Hin : In victim (keys (cache s))).
      { rewrite Hk, Hac. unfold keys. rewrite map_app. apply in_or_app.
        right. now left. }
      pose proof (length_remove_In hash_eq_dec victim (cache s) Hin).
      pose proof (length_setitem_le hash_eq_dec (compute_hash roi) p
                    (remove hash_eq_dec victim (cache s))). lia.
    + rewrite put_empty_min by assumption. simpl. exact Hb.
Qed.

(** The invariant of a cache driven by its two methods from [init]. *)
Lemma after_all_invariant (C T : Z) (cs : list (call Roi Buf)) :
  0 <= C ->
  let s := after_all compute_hash cs (init C T) in
  consistent s /\ cache_size s = C /\ similarity_threshold s = T /\
  len (cache s) <= C.
Proof.
  intros HC. unfold after_all.
  assert (H0 : consistent (init (Buf := Buf) C T) /\
               cache_size (init (Buf := Buf) C T) = C /\
               similarity_threshold (init (Buf := Buf) C T) = T /\
               len (cache (init (Buf := Buf) C T)) <= C).
  { unfold consistent, init, len. simpl. repeat split; auto. constructor. }
  revert H0. generalize (init (Buf := Buf) C T) as s.
  induction cs as [|c cs IH]; intros s Hs; simpl; [exact Hs|].
  apply IH. destruct Hs as (Hcons & Hsz & Hthr & Hlen).
  destruct c as [roi p|roi]; simpl.
  - destruct (put_frame s roi p Hcons) as (H1 & H2 & H3).
    split; [exact H1|]. split; [congruence|]. split; [congruence|].
    rewrite <- Hsz. apply put_size; auto; lia.
  - destruct (get_frame s roi) as (H1 & H2 & H3 & H4).
    split; [exact (get_consistent s roi Hcons)|].
    split; [congruence|]. split; [congruence|].
    rewrite H1. exact Hlen.
Qed.

(** *** Capacity and eviction *)

(** C2. Drive a cache of capacity [C >= 1] from empty by any calls of [put]
    and [get]: it never holds more than [C] entries, and a [put] that finds
    it holding at least [C] returns normally after deleting exactly one entry
    and then storing the new one.  The deleted entry [victim] has the least
    access count at that moment, and is the first such entry in iteration
    order: the counts before it are strictly greater, those after it are not
    smaller. *)
Theorem cache_bounded_evicts_least_used
    (C T : Z) (cs : list (call Roi Buf)) (roi : Roi) (p : Buf) :
  1 <= C ->
  let s := after_all compute_hash cs (init C T) in
  len (cache s) <= C /\
  (C <= len (cache s) ->
   exists l1 victim n l2,
     access_count s = l1 ++ (victim, n) :: l2 /\
     Forall (fun e => n < snd e) l1 /\
     Forall (fun e => n <= snd e) l2 /\
     keys (cache s) = keys l1 ++ victim :: keys l2 /\
     keys (remove hash_eq_dec victim (cache s)) = keys l1 ++ keys l2 /\
     put roi p s =
       (Ok tt, mk (setitem hash_eq_dec (compute_hash roi) p
                     (remove hash_eq_dec victim (cache s)))
                  C T
                  (setitem hash_eq_dec (compute_hash roi) 1 (l1 ++ l2)))).
Proof.
  intros HC s.
  destruct (after_all_invariant C T cs ltac:(lia)) as (Hcons & Hsz & Hthr & Hlen).
  fold s in Hcons, Hsz, Hthr, Hlen.
  split; [exact Hlen|]. intros Hfull.
  assert (Hne : access_count s <> []).
  { intros E. destruct Hcons as [Hk _]. rewrite E in Hk.
    destruct (cache s); [unfold len in Hfull; simpl in Hfull; lia | discriminate]. }
  destruct (min_key_nonempty _ Hne) as [victim Hmin].
  destruct (min_key_spec _ _ Hmin) as (l1 & n & l2 & Hac & F1 & F2).
  pose proof Hcons as [Hk Hnd].
  assert (Hkeys : keys (cache s) = keys l1 ++ victim :: keys l2).
  { rewrite Hk, Hac. unfold keys. now rewrite map_app. }
  assert (Hnotin : ~ In victim (keys l1)).
  { rewrite Hkeys in Hnd. apply NoDup_remove_2 in Hnd.
    intros I. apply Hnd. apply in_or_app. now left. }
  assert (Hrm : remove hash_eq_dec victim (access_count s) = l1 ++ l2).
  { rewrite Hac. now apply remove_middle. }
  exists l1, victim, n, l2.
  split; [exact Hac|]. split; [exact F1|]. split; [exact F2|].
  split; [exact Hkeys|]. split.
  - rewrite (keys_remove_sync hash_eq_dec victim (cache s) (access_count s) Hk).
    rewrite Hrm. unfold keys. now rewrite map_app.
  - rewrite (put_full s roi p victim Hcons) by (try lia; assumption).
    now rewrite Hrm, Hsz, Hthr.
Qed.

(** The scenario of the specification: capacity 2, insert A, insert B, look
    A up, insert C; B is evicted and A retained. *)
Lemma scenario_evicts_B (a b c : Roi) (pa pb pc : Buf) (T : Z) :
  0 <= T ->
  compute_hash a <> compute_hash b ->
  compute_hash c <> compute_hash a ->
  cache (after_all compute_hash [Put a pa; Put b pb; Get a; Put c pc] (init 2 T))
  = [(compute_hash a, pa); (compute_hash c, pc)].
Proof.
  intros HT Hab Hca.
  assert (Hd : 0 < hash_sub (compute_hash a) (compute_hash b)).
  { pose proof (count_nonzero_nonneg (N.lxor (compute_hash a) (compute_hash b))).
    pose proof (hash_sub_zero_iff (compute_hash a) (compute_hash b)).
    unfold hash_sub in *. lia. }
  pose proof (proj2 (hash_sub_zero_iff (compute_hash a) (compute_hash a)) eq_refl) as Haa.
  set (s1 := mk [(compute_hash a, pa)] 2 T [(compute_hash a, 1)]).
  set (s2 := mk [(compute_hash a, pa); (compute_hash b, pb)] 2 T
                [(compute_hash a, 1); (compute_hash b, 1)]).
  set (s3 := mk [(compute_hash a, pa); (compute_hash b, pb)] 2 T
                [(compute_hash a, 2); (compute_hash b, 1)]).
  assert (E1 : after compute_hash (Put a pa) (init 2 T) = s1).
  { unfold after. rewrite put_room by (unfold len; simpl; lia). reflexivity. }
  assert (E2 : after compute_hash (Put b pb) s1 = s2).
  { unfold after. rewrite put_room by (unfold len; simpl; lia).
    simpl. destruct_keys; try reflexivity. }
  assert (E3 : after compute_hash (Get a) s2 = s3).
  { assert (Hscan : scan (compute_hash a) (keys (cache s2))
                    = (Some (compute_hash a), Int 0)).
    { unfold scan. simpl. unfold scan_step at 2. rewrite Haa. simpl.
      unfold scan_step. simpl.
      destruct (Z.ltb_spec (hash_sub (compute_hash a) (compute_hash b)) 0);
        [lia | reflexivity]. }
    assert (Hn : getitem hash_eq_dec (compute_hash a) (access_count s2) = Some 1).
    { simpl. destruct_keys; try reflexivity. }
    assert (Hv : getitem hash_eq_dec (compute_hash a) (cache s2) = Some pa).
    { simpl. destruct_keys; try reflexivity. }
    unfold after. rewrite (get_hit s2 a _ _ _ _ Hscan HT Hn Hv).
    simpl. unfold set_access_count. simpl. destruct_keys; try reflexivity. }
  assert (E4 : cache (after compute_hash (Put c pc) s3)
               = [(compute_hash a, pa); (compute_hash c, pc)]).
  { unfold after.
    rewrite (put_full s3 c pc (compute_hash b)).
    - simpl. destruct_keys; try reflexivity.
    - split; simpl; [reflexivity|].
      repeat constructor; simpl; intuition congruence.
    - unfold len. simpl. lia.
    - reflexivity. }
  unfold after_all. cbn [fold_left]. rewrite E1, E2, E3. exact E4.
Qed.

(** *** Round trip *)

(** C7. On an empty cache (of capacity at least 1) with a similarity
    threshold [T >= 0], so in particular with any positive one, [put R P]
    followed by [get R] returns [P]: the hash of [R] is at distance 0 from
    itself. *)
Theorem put_then_get_returns_buffer (C T : Z) (R : Roi) (P : Buf) :
  1 <= C -> 0 <= T ->
  put R P (init C T)
    = (Ok tt, mk [(compute_hash R, P)] C T [(compute_hash R, 1)]) /\
  get R (mk [(compute_hash R, P)] C T [(compute_hash R, 1)])
    = (Ok (Some P), mk [(compute_hash R, P)] C T [(compute_hash R, 2)]).
Proof.
  intros HC HT. split.
  - rewrite put_room by (unfold init, len; simpl; lia). reflexivity.
  - pose proof (proj2 (hash_sub_zero_iff (compute_hash R) (compute_hash R)) eq_refl)
      as Hdiag.
    rewrite (get_hit _ R (compute_hash R) 0 1 P).
    + unfold set_access_count. simpl. destruct_keys; try reflexivity.
    + unfold scan, scan_step. simpl. rewrite Hdiag. reflexivity.
    + exact HT.
    + simpl. destruct_keys; try reflexivity.
    + simpl. destruct_keys; try reflexivity.
Qed.

(** *** Storing under a signature that is already present *)

Lemma put_same_signature (s : state) (roi : Roi) (p : Buf) :
  consistent s ->
  In (compute_hash roi) (keys (cache s)) ->
  exists s',
    put roi p s = (Ok tt, s') /\
    consistent s' /\
    getitem hash_eq_dec (compute_hash roi) (cache s') = Some p /\
    getitem hash_eq_dec (compute_hash roi) (access_count s') = Some 1 /\
    len (cache s') <= len (cache s) /\
    (len (cache s) < cache_size s -> keys (cache s') = keys (cache s)) /\
    (cache_size s <= len (cache s) ->
     exists victim n,
       min_key (access_count s) = Some victim /\
       getitem hash_eq_dec victim (access_count s) = Some n /\
       (forall k m, getitem hash_eq_dec k (access_count s) = Some m -> n <= m) /\
       (victim <> compute_hash roi ->
        ~ In victim (keys (cache s')) /\ len (cache s') = len (cache s) - 1) /\
       (victim = compute_hash roi -> len (cache s') = len (cache s))).
Proof.
  intros Hs Hin. pose proof Hs as [Hk Hnd].
  destruct (put_frame s roi p Hs) as (Hcons' & _ & _).
  destruct (Z.lt_ge_cases (len (cache s)) (cache_size s)) as [Hroom|Hfull].
  - rewrite put_room in * by exact Hroom. eexists. split; [reflexivity|].
    simpl in *. split; [exact Hcons'|].
    split; [apply getitem_setitem_eq|]. split; [apply getitem_setitem_eq|].
    split; [unfold len; rewrite length_setitem_In by exact Hin; lia|].
    split; [intros _; now apply keys_setitem_In | intros; lia].
  - assert (Hne : access_count s <> []).
    { intros E. rewrite E in Hk. destruct (cache s); [contradiction | discriminate]. }
    destruct (min_key_nonempty _ Hne) as [victim Hmin].
    destruct (min_key_spec _ _ Hmin) as (l1 & n & l2 & Hac & F1 & F2).
    assert (Hkeys : keys (cache s) = keys l1 ++ victim :: keys l2).
    { rewrite Hk, Hac. unfold keys. now rewrite map_app. }
    assert (Hnotin : ~ In victim (keys l1)).
    { rewrite Hkeys in Hnd. apply NoDup_remove_2 in Hnd.
      intros I. apply Hnd. apply in_or_app. now left. }
    assert (Hvin : In victim (keys (cache s))).
    { rewrite Hkeys. apply in_or_app. right. now left. }
    rewrite (put_full s roi p victim Hs Hfull Hmin) in *.
    eexists. split; [reflexivity|]. simpl in *. split; [exact Hcons'|].
    split; [apply getitem_setitem_eq|]. split; [apply getitem_setitem_eq|].
    pose proof (length_remove_In hash_eq_dec victim (cache s) Hvin) as Hlen.
    assert (Hcase :
      (victim <> compute_hash roi ->
       ~ In victim (keys (setitem hash_eq_dec (compute_hash roi) p
                            (remove hash_eq_dec victim (cache s)))) /\
       len (setitem hash_eq_dec (compute_hash roi) p
              (remove hash_eq_dec victim (cache s))) = len (cache s) - 1) /\
      (victim = compute_hash roi ->
       len (setitem hash_eq_dec (compute_hash roi) p
              (remove hash_eq_dec victim (cache s))) = len (cache s))).
    { split.
      - intros Hneq.
        assert (Hin' : In (compute_hash roi)
                          (keys (remove hash_eq_dec victim (cache s)))).
        { apply In_keys_remove_ne; [congruence | exact Hin]. }
        split.
        + rewrite keys_setitem_In by exact Hin'. now apply notin_keys_remove.
        + unfold len. rewrite length_setitem_In by exact Hin'. lia.
      - intros <-. unfold len. rewrite length_setitem_notin; [lia|].
        now apply notin_keys_remove. }
    split.
    { destruct (hash_eq_dec victim (compute_hash roi)) as [E|N].
      - rewrite (proj2 Hcase E). lia.
      - rewrite (proj2 (proj1 Hcase N)). lia. }
    split; [intros; lia|]. intros _. exists victim, n.
    split; [exact Hmin|].
    split; [rewrite Hac; now apply getitem_middle|].
    split; [|exact Hcase].
    intros k m Hg. apply getitem_Some_In_entry in Hg. rewrite Hac in Hg.
    apply in_app_or in Hg. destruct Hg as [I|[E|I]].
    + rewrite Forall_forall in F1. specialize (F1 _ I). simpl in F1. lia.
    + injection E as _ <-. lia.
    + rewrite Forall_forall in F2. specialize (F2 _ I). simpl in F2. lia.
Qed.

(** Two entries, both looked up equally often, fill a cache of capacity 2;
    storing again under the younger entry's signature evicts the older one
    and leaves a single entry. *)
Lemma put_same_signature_can_shrink (a b : Roi) (pa pb p : Buf) (T : Z) :
  compute_hash a <> compute_hash b ->
  let s := after_all compute_hash [Put a pa; Put b pb] (init 2 T) in
  consistent s /\
  In (compute_hash b) (keys (cache s)) /\
  len (cache s) = 2 /\
  len (cache (snd (put b p s))) = 1.
Proof.
  intros Hab.
  set (s1 := mk [(compute_hash a, pa)] 2 T [(compute_hash a, 1)]).
  set (s2 := mk [(compute_hash a, pa); (compute_hash b, pb)] 2 T
                [(compute_hash a, 1); (compute_hash b, 1)]).
  assert (E1 : after compute_hash (Put a pa) (init 2 T) = s1).
  { unfold after. rewrite put_room by (unfold len; simpl; lia). reflexivity. }
  assert (E2 : after compute_hash (Put b pb) s1 = s2).
  { unfold after. rewrite put_room by (unfold len; simpl; lia).
    simpl. destruct_keys; try reflexivity. }
  unfold after_all. cbn [fold_left]. rewrite E1, E2.
  assert (Hc : consistent s2).
  { split; simpl; [reflexivity|]. repeat constructor; simpl; intuition congruence. }
  split; [exact Hc|]. split; [simpl; tauto|]. split; [reflexivity|].
  rewrite (put_full s2 b p (compute_hash a) Hc); [|unfold len; simpl; lia|reflexivity].
  simpl. destruct_keys; try reflexivity.
Qed.

(** C10. In a cache whose two dictionaries are consistent, [put] with a
    region whose signature is already stored returns normally and leaves one
    entry under that signature, holding the new buffer with access count 1;
    the cache does not grow.  With room to spare the keys are unchanged.  At
    capacity an entry of least access count is evicted first: unless that
    entry is the one being overwritten, the cache ends one entry smaller,
    and this does happen. *)
Theorem put_existing_signature_overwrites :
  (forall (s : state) (roi : Roi) (p : Buf),
      consistent s ->
      In (compute_hash roi) (keys (cache s)) ->
      exists s',
        put roi p s = (Ok tt, s') /\
        NoDup (keys (cache s')) /\
        keys (cache s') = keys (access_count s') /\
        getitem hash_eq_dec (compute_hash roi) (cache s') = Some p /\
        getitem hash_eq_dec (compute_hash roi) (access_count s') = Some 1 /\
        len (cache s') <= len (cache s) /\
        (len (cache s) < cache_size s -> keys (cache s') = keys (cache s)) /\
        (cache_size s <= len (cache s) ->
         exists victim n,
           min_key (access_count s) = Some victim /\
           getitem hash_eq_dec victim (access_count s) = Some n /\
           (forall k m,
               getitem hash_eq_dec k (access_count s) = Some m -> n <= m) /\
           (victim <> compute_hash roi ->
            ~ In victim (keys (cache s')) /\
            len (cache s') = len (cache s) - 1) /\
           (victim = compute_hash roi -> len (cache s') = len (cache s)))) /\
  (forall (a b : Roi) (pa pb p : Buf) (T : Z),
      compute_hash a <> compute_hash b ->
      let s := after_all compute_hash [Put a pa; Put b pb] (init 2 T) in
      In (compute_hash b) (keys (cache s)) /\
      len (cache (snd (put b p s))) < len (cache s)).
Proof.
  split.
  - intros s roi p Hs Hin.
    destruct (put_same_signature s roi p Hs Hin)
      as (s' & Hput & [Hk Hnd] & Hrest).
    exists s'. split; [exact Hput|]. split; [exact Hnd|]. split; [exact Hk|].
    exact Hrest.
  - intros a b pa pb p T Hab s.
    destruct (put_same_signature_can_shrink a b pa pb p T Hab)
      as (_ & Hin & H2 & H1).
    fold s in Hin, H2, H1. split; [exact Hin | lia].
Qed.

End WithRegions.
End FrameCacheFacts.

(** *** Instances *)

Module FrameCacheWitnesses.
Import FrameCache FrameCacheFacts.

(** Regions and buffers are numbers, each region its own signature: a cache
    of capacity 2 after two insertions and a lookup. *)
Lemma cache_bounded_evicts_least_used_witness :
  1 <= 2 /\
  len (cache (after_all (fun r : N => r)
                [Put 1%N 10%N; Put 2%N 20%N; Get 1%N] (init 2 3))) <= 2 /\
  2 <= len (cache (after_all (fun r : N => r)
                     [Put 1%N 10%N; Put 2%N 20%N; Get 1%N] (init 2 3))) /\
  exists l1 victim n l2,
    access_count (after_all (fun r : N => r)
                    [Put 1%N 10%N; Put 2%N 20%N; Get 1%N] (init 2 3))
    = l1 ++ (victim, n) :: l2 /\
    put (fun r : N => r) 3%N 30%N
      (after_all (fun r : N => r)
         [Put 1%N 10%N; Put 2%N 20%N; Get 1%N] (init 2 3))
    = (Ok tt,
       mk (setitem hash_eq_dec 3%N 30%N
             (remove hash_eq_dec victim
                (cache (after_all (fun r : N => r)
                          [Put 1%N 10%N; Put 2%N 20%N; Get 1%N] (init 2 3)))))
          2 3 (setitem hash_eq_dec 3%N 1 (l1 ++ l2))).
Proof.
  assert (HC : 1 <= 2) by lia.
  assert (Hfull : 2 <= len (cache (after_all (fun r : N => r)
                     [Put 1%N 10%N; Put 2%N 20%N; Get 1%N] (init 2 3))))
    by (vm_compute; discriminate).
  destruct (cache_bounded_evicts_least_used (fun r : N => r) 2 3
              [Put 1%N 10%N; Put 2%N 20%N; Get 1%N] 3%N 30%N HC) as [Hb Hev].
  split; [exact HC|]. split; [exact Hb|]. split; [exact Hfull|].
  destruct (Hev Hfull) as (l1 & victim & n & l2 & Hac & _ & _ & _ & _ & Hput).
  exists l1, victim, n, l2. split; [exact Hac | exact Hput].
Defined.

Lemma put_then_get_returns_buffer_witness :
  1 <= 100 /\ 0 <= 3 /\
  get (fun r : N => r) 7%N (mk [(7%N, 70%N)] 100 3 [(7%N, 1)])
    = (Ok (Some 70%N), mk [(7%N, 70%N)] 100 3 [(7%N, 2)]).
Proof.
  split; [lia|]. split; [lia|].
  exact (proj2 (put_then_get_returns_buffer (fun r : N => r) 100 3 7%N 70%N
                  ltac:(lia) ltac:(lia))).
Defined.

Lemma put_existing_signature_overwrites_witness :
  consistent (mk [(1%N, 10%N); (2%N, 20%N)] 2 3 [(1%N, 1); (2%N, 1)]) /\
  In 2%N (keys [(1%N, 10%N); (2%N, 20%N)]) /\
  (exists s',
     put (fun r : N => r) 2%N 21%N
       (mk [(1%N, 10%N); (2%N, 20%N)] 2 3 [(1%N, 1); (2%N, 1)]) = (Ok tt, s') /\
     getitem hash_eq_dec 2%N (cache s') = Some 21%N) /\
  1%N <> 2%N /\
  len (cache (snd (put (fun r : N => r) 2%N 21%N
                     (after_all (fun r : N => r) [Put 1%N 10%N; Put 2%N 20%N]
                        (init 2 3)))))
  < len (cache (after_all (fun r : N => r) [Put 1%N 10%N; Put 2%N 20%N]
                  (init 2 3))).
Proof.
  assert (Hc : consistent (mk [(1%N, 10%N); (2%N, 20%N)] 2 3 [(1%N, 1); (2%N, 1)])).
  { split; simpl; [reflexivity|].
    repeat constructor; simpl; intuition discriminate. }
  assert (Hin : In 2%N (keys [(1%N, 10%N); (2%N, 20%N)])) by (simpl; tauto).
  assert (Hne : 1%N <> 2%N) by discriminate.
  split; [exact Hc|]. split; [exact Hin|]. split.
  - destruct (proj1 (put_existing_signature_overwrites (fun r : N => r))
                _ 2%N 21%N Hc Hin) as (s' & Hput & _ & _ & Hget & _).
    exists s'. split; [exact Hput | exact Hget].
  - split; [exact Hne|].
    exact (proj2 (proj2 (put_existing_signature_overwrites (fun r : N => r))
                    1%N 2%N 10%N 20%N 21%N 3 Hne)).
Defined.

End FrameCacheWitnesses.

(** ** The skip detector *)

Module FrameSkipDetectorFacts.
Import FrameSkipDetector.

Section WithRegions.
Context {Roi : Type}.
Variable gray_mse : Roi -> Roi -> result spec_float.

Local Abbreviation should_process_frame := (should_process_frame gray_mse).
Local Abbreviation calculate_frame_difference :=
  (calculate_frame_difference gray_mse).

(** A keyframe index is decided before anything else is read. *)
Lemma should_process_frame_keyframe
    (K : Z) (S : spec_float) (prev roi : option Roi) (frame_index : Z) :
  py_mod frame_index K = Ok 0 ->
  should_process_frame frame_index roi (mk K S prev) = (Ok true, mk K S prev).
Proof.
  intros H. unfold FrameSkipDetector.should_process_frame, bind, gets, lift, ret.
  simpl. rewrite H. reflexivity.
Qed.

(** C5. When [frame_index % keyframe_interval] evaluates to 0, the frame is
    classified must-process, whatever the region, the stored reference and
    the scene-change threshold are; the detector is left as it was. *)
Theorem keyframe_is_always_processed
    (K : Z) (S : spec_float) (prev roi : option Roi) (frame_index : Z) :
  py_mod frame_index K = Ok 0 ->
  should_process_frame frame_index roi (mk K S prev) = (Ok true, mk K S prev).
Proof. exact (should_process_frame_keyframe K S prev roi frame_index). Qed.

(** [frame_index % K] is 0 exactly for the multiples of a [K] other than 0. *)
Lemma py_mod_zero_iff (frame_index K : Z) :
  py_mod frame_index K = Ok 0 <-> K <> 0 /\ exists q, frame_index = q * K.
Proof.
  unfold py_mod. destruct (Z.eqb_spec K 0) as [->|HK].
  - split; [discriminate | intros [H _]; contradiction].
  - split.
    + intros E. injection E as E. split; [exact HK|].
      exists (frame_index / K). rewrite Z.mul_comm.
      pose proof (Z.div_mod frame_index K HK). lia.
    + intros [_ [q ->]]. now rewrite Z.mod_mul.
Qed.

(** Index 0 is a keyframe for every interval but 0, where [%] raises. *)
Lemma first_frame_is_keyframe (K : Z) : K <> 0 -> py_mod 0 K = Ok 0.
Proof.
  intros H. unfold py_mod. destruct (Z.eqb_spec K 0); [contradiction|].
  now rewrite Z.mod_0_l.
Qed.

Lemma should_process_frame_zero_interval
    (S : spec_float) (prev roi : option Roi) (frame_index : Z) :
  should_process_frame frame_index roi (mk 0 S prev)
  = (Raise ZeroDivisionError, mk 0 S prev).
Proof. reflexivity. Qed.

(** [should_process_frame] only reads the detector. *)
Lemma should_process_frame_state (s : t Roi) (roi : option Roi) (frame_index : Z) :
  snd (should_process_frame frame_index roi s) = s.
Proof.
  unfold FrameSkipDetector.should_process_frame, bind, gets, lift, ret. simpl.
  destruct (py_mod frame_index (keyframe_interval s)) as [r|e]; simpl; auto.
  destruct (r =? 0); simpl; auto.
  destruct (prev_roi s) as [p|]; simpl; auto.
  destruct (FrameSkipDetector.calculate_frame_difference gray_mse roi (Some p));
    simpl; auto.
  destruct (Float64.gtb _ _); reflexivity.
Qed.

(** The sentinel is greater than every finite threshold. *)
Lemma inf_gtb_finite (S : spec_float) :
  (exists s m e, S = S754_finite s m e) \/ (exists s, S = S754_zero s) ->
  Float64.gtb Float64.inf S = true.
Proof. intros [(s & m & e & ->)|(s & ->)]; reflexivity. Qed.

(** C4, as the code has it.  The difference of a missing region and any
    other is the sentinel [inf], without an exception.  But with no stored
    reference [should_process_frame] does not compute a difference: a frame
    whose index is not a multiple of the keyframe interval is then
    classified as skippable.  The sentinel forces reprocessing only when the
    current region is the missing one and a reference exists. *)
Theorem no_reference_frame_is_skipped :
  (forall roi, calculate_frame_difference roi None = Ok Float64.inf) /\
  (forall roi, calculate_frame_difference None roi = Ok Float64.inf) /\
  (forall (K : Z) (S : spec_float) (roi : option Roi) (frame_index r : Z),
      py_mod frame_index K = Ok r -> r <> 0 ->
      should_process_frame frame_index roi (mk K S None)
      = (Ok false, mk K S None)) /\
  (forall (K : Z) (S : spec_float) (p : Roi) (frame_index r : Z),
      py_mod frame_index K = Ok r -> r <> 0 ->
      Float64.gtb Float64.inf S = true ->
      should_process_frame frame_index None (mk K S (Some p))
      = (Ok true, mk K S (Some p))).
Proof.
  split; [intros [r|]; reflexivity|].
  split; [intros [r|]; reflexivity|].
  split.
  - intros K S roi frame_index r Hmod Hr.
    unfold FrameSkipDetector.should_process_frame, bind, gets, lift, ret.
    simpl. rewrite Hmod. destruct (Z.eqb_spec r 0); [contradiction | reflexivity].
  - intros K S p frame_index r Hmod Hr Hgt.
    unfold FrameSkipDetector.should_process_frame, bind, gets, lift, ret.
    simpl. rewrite Hmod. destruct (Z.eqb_spec r 0); [contradiction|].
    simpl. rewrite Hgt. reflexivity.
Qed.

End WithRegions.

(** Frame 1 of a detector with the processor's settings and no reference
    yet: classified as skippable, not as must-process. *)
Lemma no_reference_frame_not_reprocessed :
  fst (should_process_frame (fun _ _ : unit => Ok (Float64.of_int 0))
         1 (Some tt) (init 5 (Float64.of_int 50)))
  = Ok false.
Proof. reflexivity. Qed.

Lemma keyframe_is_always_processed_witness :
  py_mod 10 5 = Ok 0 /\
  should_process_frame (fun _ _ : unit => Ok (Float64.of_int 0))
    10 (Some tt) (mk 5 (Float64.of_int 50) (Some tt))
  = (Ok true, mk 5 (Float64.of_int 50) (Some tt)).
Proof.
  split; [reflexivity|].
  apply (keyframe_is_always_processed (fun _ _ : unit => Ok (Float64.of_int 0))
           5 (Float64.of_int 50) (Some tt) (Some tt) 10).
  reflexivity.
Defined.

Lemma no_reference_frame_is_skipped_witness :
  py_mod 7 5 = Ok 2 /\ 2 <> 0 /\
  Float64.gtb Float64.inf (Float64.of_int 50) = true /\
  should_process_frame (fun _ _ : unit => Ok (Float64.of_int 0))
    7 (Some tt) (mk 5 (Float64.of_int 50) None)
  = (Ok false, mk 5 (Float64.of_int 50) None) /\
  should_process_frame (fun _ _ : unit => Ok (Float64.of_int 0))
    7 None (mk 5 (Float64.of_int 50) (Some tt))
  = (Ok true, mk 5 (Float64.of_int 50) (Some tt)).
Proof.
  assert (Hmod : py_mod 7 5 = Ok 2) by reflexivity.
  assert (Hr : 2 <> 0) by lia.
  assert (Hgt : Float64.gtb Float64.inf (Float64.of_int 50) = true) by reflexivity.
  split; [exact Hmod|]. split; [exact Hr|]. split; [exact Hgt|]. split.
  - exact (proj1 (proj2 (proj2
             (no_reference_frame_is_skipped (fun _ _ : unit => Ok (Float64.of_int 0)))))
             5 (Float64.of_int 50) (Some tt) 7 2 Hmod Hr).
  - exact (proj2 (proj2 (proj2
             (no_reference_frame_is_skipped (fun _ _ : unit => Ok (Float64.of_int 0)))))
             5 (Float64.of_int 50) tt 7 2 Hmod Hr Hgt).
Defined.

End FrameSkipDetectorFacts.

(** ** Arrays *)

Module NpFacts.

Lemma nth_map_seq {A} (f : nat -> A) (n i : nat) (d : A) :
  nth i (List.map f (seq 0 n)) d = if (i <? n)%nat then f i else d.
Proof.
  destruct (Nat.ltb_spec i n) as [Hlt|Hge].
  - rewrite (nth_indep _ d (f 0%nat)) by (rewrite length_map, length_seq; exact Hlt).
    rewrite map_nth, seq_nth by exact Hlt. reflexivity.
  - apply nth_overflow. rewrite length_map, length_seq. exact Hge.
Qed.

Lemma map_const_seq {A} (c : A) (n : nat) (f : nat -> A) :
  (forall i, f i = c) -> List.map f (seq 0 n) = repeat c n.
Proof.
  intros H. generalize 0%nat. induction n as [|n IH]; intros start; simpl.
  - reflexivity.
  - now rewrite H, IH.
Qed.

(** Reading a cell of an elementwise image. *)
Lemma item_map {A} (f : A -> Z) (a : Np.ndarray A) (i j : nat) :
  Np.item 0 (Np.map f a) i j =
  match nth_error (nth i (Np.data a) []) j with
  | Some v => f v
  | None => 0
  end.
Proof.
  unfold Np.item, Np.map. simpl.
  change (@nil Z) with (List.map f []). rewrite map_nth.
  generalize (nth i (Np.data a) []) as r. intros r. revert j.
  induction r as [|x r IH]; intros [|j]; simpl; auto.
Qed.

Lemma nth_repeat_zero (n j : nat) : nth j (repeat 0 n) 0 = 0.
Proof.
  destruct (Nat.lt_ge_cases j n).
  - now apply nth_repeat_lt.
  - apply nth_overflow. now rewrite repeat_length.
Qed.

Lemma item_zeros_like {A} (a : Np.ndarray A) (i j : nat) :
  Np.item 0 (Np.zeros_like a) i j = 0.
Proof.
  unfold Np.item, Np.zeros_like. simpl.
  destruct (Nat.lt_ge_cases i (Np.rows a)).
  - rewrite nth_repeat_lt by assumption. apply nth_repeat_zero.
  - rewrite (nth_overflow (repeat (repeat 0 (Np.cols a)) (Np.rows a)))
      by (now rewrite repeat_length).
    now destruct j.
Qed.

(** [np.where(a > 0)] finds nothing in an image without a positive cell. *)
Lemma positive_in_row_none (i : nat) (r : list Z) :
  Forall (fun v => v <= 0) r -> Np.positive_in_row i r = [].
Proof.
  unfold Np.positive_in_row. generalize 0%nat.
  induction r as [|v r IH]; intros start H; simpl; [reflexivity|].
  inversion H as [|? ? Hv Hr]; subst.
  destruct (Z.ltb_spec 0 v); [lia|]. now apply IH.
Qed.

Lemma where_positive_none (a : Np.ndarray Z) :
  Forall (Forall (fun v => v <= 0)) (Np.data a) -> Np.where_positive a = [].
Proof.
  unfold Np.where_positive. generalize 0%nat. generalize (Np.data a) as d.
  induction d as [|r d IH]; intros start H; simpl; [reflexivity|].
  inversion H as [|? ? Hr Hd]; subst.
  rewrite positive_in_row_none by exact Hr. simpl. now apply IH.
Qed.

(** *** Slices *)

Lemma clip_le (n : nat) (i : Z) : (Np.clip n i <= n)%nat.
Proof. unfold Np.clip. destruct (Z.ltb_spec i 0); lia. Qed.

Lemma clip_nonneg (n : nat) (i : Z) :
  0 <= i -> Np.clip n i = Nat.min (Z.to_nat i) n.
Proof. intros H. unfold Np.clip. destruct (Z.ltb_spec i 0); lia. Qed.

Lemma length_sub {A} (lo hi : nat) (l : list A) :
  (hi <= length l)%nat -> length (Np.sub lo hi l) = (hi - lo)%nat.
Proof. intros H. unfold Np.sub. rewrite length_firstn, length_skipn. lia. Qed.

Lemma nth_sub {A} (lo hi i : nat) (l : list A) (d : A) :
  (i < hi - lo)%nat -> nth i (Np.sub lo hi l) d = nth (lo + i) l d.
Proof.
  intros H. unfold Np.sub. rewrite nth_firstn.
  destruct (Nat.ltb_spec i (hi - lo)); [|lia]. apply nth_skipn.
Qed.

Lemma nth_map_nil {A B} (f : list A -> list B) (l : list (list A)) (i : nat) :
  f [] = [] -> nth i (List.map f l) [] = f (nth i l []).
Proof.
  intros H. revert i. induction l as [|x l IH]; intros [|i]; simpl; auto.
Qed.

Lemma sub_nil {A} (lo hi : nat) : Np.sub lo hi (@nil A) = [].
Proof. unfold Np.sub. rewrite skipn_nil. apply firstn_nil. Qed.

Lemma In_sub {A} (lo hi : nat) (l : list A) (x : A) :
  In x (Np.sub lo hi l) -> In x l.
Proof.
  unfold Np.sub. intros H.
  rewrite <- (firstn_skipn lo l). apply in_or_app. right.
  rewrite <- (firstn_skipn (hi - lo) (skipn lo l)). apply in_or_app. now left.
Qed.

Lemma getslice_well_shaped {A} (a : Np.ndarray A) (y0 y1 x0 x1 : Z) :
  Np.well_shaped a -> Np.well_shaped (Np.getslice a y0 y1 x0 x1).
Proof.
  intros [Hr Hc]. unfold Np.well_shaped, Np.getslice. simpl. split.
  - rewrite length_map, length_sub; [reflexivity|]. rewrite Hr. apply clip_le.
  - apply Forall_map. apply Forall_forall. intros r Hin.
    apply In_sub in Hin.
    rewrite Forall_forall in Hc. rewrite length_sub; [reflexivity|].
    rewrite (Hc r Hin). apply clip_le.
Qed.

Lemma item_getslice {A} (d : A) (a : Np.ndarray A) (y0 y1 x0 x1 : Z) (i j : nat) :
  (i < Np.clip (Np.rows a) y1 - Np.clip (Np.rows a) y0)%nat ->
  (j < Np.clip (Np.cols a) x1 - Np.clip (Np.cols a) x0)%nat ->
  Np.item d (Np.getslice a y0 y1 x0 x1) i j
  = Np.item d a (Np.clip (Np.rows a) y0 + i) (Np.clip (Np.cols a) x0 + j).
Proof.
  intros Hi Hj. unfold Np.item, Np.getslice. simpl.
  rewrite nth_map_nil by apply sub_nil.
  rewrite nth_sub by exact Hj. now rewrite nth_sub by exact Hi.
Qed.

(** *** Broadcasting *)

Lemma fits_spec (n target : nat) :
  Np.fits n target = true <-> n = target \/ n = 1%nat.
Proof.
  unfold Np.fits. rewrite orb_true_iff, !Nat.eqb_eq. tauto.
Qed.

Lemma bdim_fits (n m h : nat) :
  Np.bdim n m = Ok h -> Np.fits n h = true /\ Np.fits m h = true.
Proof.
  unfold Np.bdim. rewrite !fits_spec.
  destruct (Nat.eqb_spec n m); [intros E; injection E as <-; lia|].
  destruct (Nat.eqb_spec n 1); [intros E; injection E as <-; lia|].
  destruct (Nat.eqb_spec m 1); [intros E; injection E as <-; lia|].
  discriminate.
Qed.

Lemma fits_trans (n m h : nat) :
  Np.fits n m = true -> Np.fits m h = true -> Np.fits n h = true.
Proof. rewrite !fits_spec. lia. Qed.

Lemma length_stretch {A} (n : nat) (l : list A) :
  length l = n \/ length l = 1%nat -> length (Np.stretch n l) = n.
Proof.
  destruct l as [|x [|y l]]; simpl; intros H.
  - lia.
  - apply repeat_length.
  - lia.
Qed.

Lemma nth_stretch {A} (n i : nat) (l : list A) (d : A) :
  (i < n)%nat -> length l = n \/ length l = 1%nat ->
  nth i (Np.stretch n l) d = nth (if (length l =? 1)%nat then 0%nat else i) l d.
Proof.
  intros Hi H. destruct l as [|x [|y l]]; simpl in *.
  - reflexivity.
  - now apply nth_repeat_lt.
  - reflexivity.
Qed.

Lemma In_stretch {A} (n : nat) (l : list A) (x : A) :
  In x (Np.stretch n l) -> In x l.
Proof.
  destruct l as [|y [|z l]]; simpl; auto.
  intros H. apply repeat_spec in H. now left.
Qed.

Lemma broadcast_to_shape {A} (h w : nat) (a : Np.ndarray A) :
  Np.well_shaped a ->
  Np.fits (Np.rows a) h = true -> Np.fits (Np.cols a) w = true ->
  length (Np.broadcast_to h w a) = h /\
  Forall (fun r => length r = w) (Np.broadcast_to h w a).
Proof.
  intros [Hr Hc] Hh Hw. apply fits_spec in Hh, Hw. unfold Np.broadcast_to. split.
  - apply length_stretch. rewrite length_map, Hr. lia.
  - apply Forall_forall. intros r Hin. apply In_stretch in Hin.
    apply in_map_iff in Hin. destruct Hin as (r0 & <- & Hin).
    rewrite Forall_forall in Hc. apply length_stretch. rewrite (Hc r0 Hin). lia.
Qed.

Lemma nth_broadcast_to {A} (d : A) (h w i j : nat) (a : Np.ndarray A) :
  Np.well_shaped a ->
  Np.fits (Np.rows a) h = true -> Np.fits (Np.cols a) w = true ->
  (i < h)%nat -> (j < w)%nat ->
  nth j (nth i (Np.broadcast_to h w a) []) d = Np.bitem d a i j.
Proof.
  intros [Hr Hc] Hh Hw Hi Hj. apply fits_spec in Hh, Hw.
  unfold Np.broadcast_to, Np.bitem, Np.item.
  rewrite nth_stretch by (rewrite ?length_map, ?Hr; lia).
  rewrite length_map, Hr.
  rewrite nth_map_nil by reflexivity.
  set (bi := if (Np.rows a =? 1)%nat then 0%nat else i).
  assert (Hbi : (bi < length (Np.data a))%nat).
  { unfold bi. destruct (Nat.eqb_spec (Np.rows a) 1); lia. }
  assert (Hlen : length (nth bi (Np.data a) []) = Np.cols a).
  { rewrite Forall_forall in Hc. apply Hc. now apply nth_In. }
  rewrite nth_stretch by lia. now rewrite Hlen.
Qed.

Lemma bitem_item {A} (d : A) (a : Np.ndarray A) (i j : nat) :
  (i < Np.rows a)%nat -> (j < Np.cols a)%nat ->
  Np.bitem d a i j = Np.item d a i j.
Proof.
  intros Hi Hj. unfold Np.bitem.
  destruct (Nat.eqb_spec (Np.rows a) 1), (Nat.eqb_spec (Np.cols a) 1);
    repeat f_equal; lia.
Qed.

(** *** Elementwise operations *)

Lemma length_zip_with {A B C} (f : A -> B -> C) (l1 : list A) (l2 : list B) :
  length (Np.zip_with f l1 l2) = Nat.min (length l1) (length l2).
Proof. unfold Np.zip_with. now rewrite length_map, length_combine. Qed.

Lemma nth_zip_with {A B C} (f : A -> B -> C) (l1 : list A) (l2 : list B)
    (i : nat) (d : C) (d1 : A) (d2 : B) :
  (i < length l1)%nat -> (i < length l2)%nat ->
  nth i (Np.zip_with f l1 l2) d = f (nth i l1 d1) (nth i l2 d2).
Proof.
  unfold Np.zip_with. revert l2 i.
  induction l1 as [|x l1 IH]; intros [|y l2] [|i]; simpl; intros H1 H2;
    try lia; [reflexivity|].
  apply IH; lia.
Qed.

Lemma item_map_in {A B} (f : A -> B) (d : B) (d' : A) (a : Np.ndarray A)
    (i j : nat) :
  Np.well_shaped a -> (i < Np.rows a)%nat -> (j < Np.cols a)%nat ->
  Np.item d (Np.map f a) i j = f (Np.item d' a i j).
Proof.
  intros [Hr Hc] Hi Hj. unfold Np.item, Np.map. simpl.
  rewrite nth_map_nil by reflexivity.
  assert (Hlen : length (nth i (Np.data a) []) = Np.cols a).
  { rewrite Forall_forall in Hc. apply Hc. apply nth_In. lia. }
  rewrite (nth_indep _ d (f d')) by (rewrite length_map; lia).
  apply map_nth.
Qed.

Lemma map_well_shaped {A B} (f : A -> B) (a : Np.ndarray A) :
  Np.well_shaped a -> Np.well_shaped (Np.map f a).
Proof.
  intros [Hr Hc]. split; simpl.
  - now rewrite length_map.
  - apply Forall_map. eapply Forall_impl; [|exact Hc].
    intros r Hl. simpl. now rewrite length_map.
Qed.

Lemma bitem_map {A B} (f : A -> B) (d : B) (d' : A) (a : Np.ndarray A)
    (h w i j : nat) :
  Np.well_shaped a ->
  Np.fits (Np.rows a) h = true -> Np.fits (Np.cols a) w = true ->
  (i < h)%nat -> (j < w)%nat ->
  Np.bitem d (Np.map f a) i j = f (Np.bitem d' a i j).
Proof.
  intros Hwf Hh Hw Hi Hj. apply fits_spec in Hh, Hw.
  unfold Np.bitem. simpl. apply item_map_in; [exact Hwf | |].
  - destruct (Nat.eqb_spec (Np.rows a) 1); lia.
  - destruct (Nat.eqb_spec (Np.cols a) 1); lia.
Qed.

Lemma map2_spec {A B C} (f : A -> B -> C) (a : Np.ndarray A) (b : Np.ndarray B)
    (c : Np.ndarray C) :
  Np.map2 f a b = Ok c ->
  Np.well_shaped a -> Np.well_shaped b ->
  Np.well_shaped c /\
  Np.fits (Np.rows a) (Np.rows c) = true /\
  Np.fits (Np.rows b) (Np.rows c) = true /\
  Np.fits (Np.cols a) (Np.cols c) = true /\
  Np.fits (Np.cols b) (Np.cols c) = true /\
  forall (d : C) (da : A) (db : B) (i j : nat),
    (i < Np.rows c)%nat -> (j < Np.cols c)%nat ->
    Np.item d c i j = f (Np.bitem da a i j) (Np.bitem db b i j).
Proof.
  unfold Np.map2, rbind. intros E Ha Hb.
  destruct (Np.bdim (Np.rows a) (Np.rows b)) as [h|] eqn:Eh; [|discriminate].
  destruct (Np.bdim (Np.cols a) (Np.cols b)) as [w|] eqn:Ew; [|discriminate].
  injection E as <-. simpl.
  destruct (bdim_fits _ _ _ Eh) as [Fa Fb].
  destruct (bdim_fits _ _ _ Ew) as [Ga Gb].
  destruct (broadcast_to_shape h w a Ha Fa Ga) as [La Ra].
  destruct (broadcast_to_shape h w b Hb Fb Gb) as [Lb Rb].
  rewrite Forall_forall in Ra, Rb.
  repeat split; auto.
  - simpl. rewrite length_zip_with. lia.
  - simpl. apply Forall_forall. intros r Hin.
    unfold Np.zip_with at 1 in Hin. apply in_map_iff in Hin.
    destruct Hin as ([ra rb] & <- & Hin). simpl.
    rewrite length_zip_with.
    rewrite (Ra ra) by (eapply in_combine_l; eauto).
    rewrite (Rb rb) by (eapply in_combine_r; eauto). lia.
  - intros d da db i j Hi Hj. unfold Np.item. simpl.
    rewrite (nth_zip_with _ _ _ i [] [] []) by lia.
    assert (Hra : length (nth i (Np.broadcast_to h w a) []) = w)
      by (apply Ra, nth_In; lia).
    assert (Hrb : length (nth i (Np.broadcast_to h w b) []) = w)
      by (apply Rb, nth_In; lia).
    rewrite (nth_zip_with _ _ _ j d da db) by lia.
    now rewrite !nth_broadcast_to.
Qed.

Lemma bitem_map2 {A B C} (f : A -> B -> C) (a : Np.ndarray A) (b : Np.ndarray B)
    (c : Np.ndarray C) (d : C) (da : A) (db : B) (h w i j : nat) :
  Np.map2 f a b = Ok c ->
  Np.well_shaped a -> Np.well_shaped b ->
  Np.fits (Np.rows c) h = true -> Np.fits (Np.cols c) w = true ->
  (i < h)%nat -> (j < w)%nat ->
  Np.bitem d c i j = f (Np.bitem da a i j) (Np.bitem db b i j).
Proof.
  intros E Ha Hb Hh Hw Hi Hj.
  destruct (map2_spec f a b c E Ha Hb) as (_ & Fa & Fb & Ga & Gb & Hitem).
  apply fits_spec in Hh, Hw, Fa, Fb, Ga, Gb.
  unfold Np.bitem at 1. rewrite (Hitem d da db).
  - unfold Np.bitem.
    destruct (Nat.eqb_spec (Np.rows c) 1), (Nat.eqb_spec (Np.cols c) 1),
      (Nat.eqb_spec (Np.rows a) 1), (Nat.eqb_spec (Np.cols a) 1),
      (Nat.eqb_spec (Np.rows b) 1), (Nat.eqb_spec (Np.cols b) 1);
      try reflexivity; lia.
  - destruct (Nat.eqb_spec (Np.rows c) 1); lia.
  - destruct (Nat.eqb_spec (Np.cols c) 1); lia.
Qed.

(** *** Assignment to a slice *)

Lemma nth_splice {A} (lo n i : nat) (old new : list A) (d : A) :
  (lo + n <= length old)%nat -> length new = n ->
  nth i (Np.splice lo n old new) d =
  if (i <? lo)%nat then nth i old d
  else if (i <? lo + n)%nat then nth (i - lo) new d
  else nth i old d.
Proof.
  intros Hlo Hn. unfold Np.splice.
  assert (Hf : length (firstn lo old) = lo) by (rewrite length_firstn; lia).
  destruct (Nat.ltb_spec i lo) as [H1|H1].
  - rewrite app_nth1 by lia. rewrite nth_firstn.
    destruct (Nat.ltb_spec i lo); [reflexivity | lia].
  - rewrite app_nth2 by lia. rewrite Hf.
    destruct (Nat.ltb_spec i (lo + n)) as [H2|H2].
    + now rewrite app_nth1 by lia.
    + rewrite app_nth2 by lia. rewrite nth_skipn. f_equal. lia.
Qed.

Lemma length_splice {A} (lo n : nat) (old new : list A) :
  (lo + n <= length old)%nat -> length new = n ->
  length (Np.splice lo n old new) = length old.
Proof.
  intros Hlo Hn. unfold Np.splice.
  rewrite !length_app, length_firstn, length_skipn. lia.
Qed.

Lemma in_sliceb_spec {A} (a : Np.ndarray A) (y0 y1 x0 x1 : Z) (i j : nat) :
  Np.in_sliceb a y0 y1 x0 x1 i j = true <-> Np.in_slice a y0 y1 x0 x1 i j.
Proof.
  unfold Np.in_sliceb, Np.in_slice.
  rewrite !andb_true_iff, !Nat.leb_le, !Nat.ltb_lt. tauto.
Qed.

Lemma setslice_spec {A} (a v out : Np.ndarray A) (y0 y1 x0 x1 : Z) :
  Np.setslice a y0 y1 x0 x1 v = Ok out ->
  Np.well_shaped a -> Np.well_shaped v ->
  Np.rows out = Np.rows a /\ Np.cols out = Np.cols a /\
  Np.well_shaped out /\
  forall (d : A) (i j : nat),
    (i < Np.rows a)%nat -> (j < Np.cols a)%nat ->
    Np.item d out i j =
    if Np.in_sliceb a y0 y1 x0 x1 i j
    then Np.bitem d v (i - Np.clip (Np.rows a) y0) (j - Np.clip (Np.cols a) x0)
    else Np.item d a i j.
Proof.
  unfold Np.setslice, Np.in_sliceb.
  set (ly := Np.clip (Np.rows a) y0). set (hy := Np.clip (Np.rows a) y1).
  set (lx := Np.clip (Np.cols a) x0). set (hx := Np.clip (Np.cols a) x1).
  intros E [Hr Hc] Hv.
  destruct (Np.fits (Np.rows v) (hy - ly)) eqn:Fh; [|discriminate].
  destruct (Np.fits (Np.cols v) (hx - lx)) eqn:Fw; [|discriminate].
  simpl in E. injection E as <-. simpl.
  pose proof (clip_le (Np.rows a) y0) as Hly. fold ly in Hly.
  pose proof (clip_le (Np.rows a) y1) as Hhy. fold hy in Hhy.
  pose proof (clip_le (Np.cols a) x0) as Hlx. fold lx in Hlx.
  pose proof (clip_le (Np.cols a) x1) as Hhx. fold hx in Hhx.
  destruct (broadcast_to_shape (hy - ly) (hx - lx) v Hv Fh Fw) as [Lb Rb].
  rewrite Forall_forall in Hc, Rb.
  set (rows' := Np.zip_with (Np.splice lx (hx - lx)) (Np.sub ly hy (Np.data a))
                  (Np.broadcast_to (hy - ly) (hx - lx) v)).
  assert (Lrows : length rows' = (hy - ly)%nat).
  { unfold rows'. rewrite length_zip_with, length_sub, Lb by lia. lia. }
  assert (Hrow : forall k, (k < hy - ly)%nat ->
            nth k rows' [] =
            Np.splice lx (hx - lx) (nth (ly + k) (Np.data a) [])
              (nth k (Np.broadcast_to (hy - ly) (hx - lx) v) [])).
  { intros k Hk. unfold rows'.
    rewrite (nth_zip_with _ _ _ k [] [] []) by (rewrite ?length_sub, ?Lb; lia).
    now rewrite nth_sub by exact Hk. }
  split; [reflexivity|]. split; [reflexivity|]. split.
  - split; simpl.
    + rewrite length_splice; [exact Hr | lia | exact Lrows].
    + apply Forall_forall. intros r Hin.
      destruct (In_nth _ _ [] Hin) as (k & Hk & <-).
      rewrite length_splice in Hk by (try exact Lrows; lia).
      rewrite nth_splice by (try exact Lrows; lia).
      destruct (Nat.ltb_spec k ly); [apply Hc, nth_In; lia|].
      destruct (Nat.ltb_spec k (ly + (hy - ly))); [|apply Hc, nth_In; lia].
      rewrite Hrow by lia.
      rewrite length_splice.
      * apply Hc, nth_In. lia.
      * rewrite (Hc (nth (ly + (k - ly)) (Np.data a) [])) by (apply nth_In; lia). lia.
      * apply Rb, nth_In. lia.
  - intros d i j Hi Hj. unfold Np.item. simpl.
    rewrite nth_splice by (try exact Lrows; lia).
    destruct (Nat.leb_spec ly i) as [Ka|Ka]; simpl.
    + destruct (Nat.ltb_spec i ly); [lia|].
      destruct (Nat.ltb_spec i hy) as [Kb|Kb]; simpl.
      * destruct (Nat.ltb_spec i (ly + (hy - ly))); [|lia].
        rewrite Hrow by lia.
        replace (ly + (i - ly))%nat with i by lia.
        assert (Hlen : length (nth i (Np.data a) []) = Np.cols a)
          by (apply Hc, nth_In; lia).
        rewrite nth_splice by (try (apply Rb, nth_In); lia).
        destruct (Nat.leb_spec lx j) as [Kc|Kc]; simpl.
        -- destruct (Nat.ltb_spec j lx); [lia|].
           destruct (Nat.ltb_spec j hx) as [Kd|Kd]; simpl.
           ++ destruct (Nat.ltb_spec j (lx + (hx - lx))); [|lia].
              apply nth_broadcast_to; auto; lia.
           ++ destruct (Nat.ltb_spec j (lx + (hx - lx))); [lia | reflexivity].
        -- destruct (Nat.ltb_spec j lx); [reflexivity | lia].
      * destruct (Nat.ltb_spec i (ly + (hy - ly))); [lia | reflexivity].
    + destruct (Nat.ltb_spec i ly); [reflexivity | lia].
Qed.

Lemma setslice_fits {A} (a v out : Np.ndarray A) (y0 y1 x0 x1 : Z) :
  Np.setslice a y0 y1 x0 x1 v = Ok out ->
  Np.fits (Np.rows v) (Np.clip (Np.rows a) y1 - Np.clip (Np.rows a) y0) = true /\
  Np.fits (Np.cols v) (Np.clip (Np.cols a) x1 - Np.clip (Np.cols a) x0) = true.
Proof.
  unfold Np.setslice.
  destruct (Np.fits (Np.rows v) _); [|discriminate].
  destruct (Np.fits (Np.cols v) _); [auto | discriminate].
Qed.

(** For bounds that are not negative the slice is the plain rectangle. *)
Lemma in_slice_plain {A} (a : Np.ndarray A) (y0 y1 x0 x1 : Z) (i j : nat) :
  0 <= y0 -> 0 <= y1 -> 0 <= x0 -> 0 <= x1 ->
  (i < Np.rows a)%nat -> (j < Np.cols a)%nat ->
  Np.in_slice a y0 y1 x0 x1 i j <->
  y0 <= Z.of_nat i < y1 /\ x0 <= Z.of_nat j < x1.
Proof.
  intros. unfold Np.in_slice. rewrite !clip_nonneg by assumption. lia.
Qed.

End NpFacts.

(** ** The watermark detector *)

Module WatermarkDetectorFacts.
Import NpFacts WatermarkDetector.

(** *** Bounding box *)

(** C8. For a mask whose cells are all 0, [get_roi_coordinates] raises the
    "no watermark" error ([ValueError] with the message of the source),
    whatever the margin is. *)
Theorem empty_mask_has_no_bounding_box (watermark_mask : Np.ndarray Z) (margin : Z) :
  Forall (Forall (fun v => v = 0)) (Np.data watermark_mask) ->
  get_roi_coordinates watermark_mask margin = Raise no_watermark.
Proof.
  intros H. unfold get_roi_coordinates.
  rewrite where_positive_none; [reflexivity|].
  eapply Forall_impl; [|exact H]. intros r Hr.
  eapply Forall_impl; [|exact Hr]. simpl. intros v ->. lia.
Qed.

Lemma empty_mask_has_no_bounding_box_witness :
  Forall (Forall (fun v => v = 0)) (Np.data (Np.mk 2 3 [[0; 0; 0]; [0; 0; 0]])) /\
  get_roi_coordinates (Np.mk 2 3 [[0; 0; 0]; [0; 0; 0]]) 50 = Raise no_watermark.
Proof.
  assert (H : Forall (Forall (fun v => v = 0))
                (Np.data (Np.mk 2 3 [[0; 0; 0]; [0; 0; 0]]))).
  { simpl. repeat constructor. }
  split; [exact H|].
  apply (empty_mask_has_no_bounding_box (Np.mk 2 3 [[0; 0; 0]; [0; 0; 0]]) 50 H).
Defined.

(** A mask with one positive cell does have a box. *)
Example one_cell_bounding_box :
  get_roi_coordinates (Np.mk 3 4 [[0; 0; 0; 0]; [0; 0; 255; 0]; [0; 0; 0; 0]]) 1
  = Ok (0, 2, 1, 3).
Proof. reflexivity. Qed.

(** *** Dilation *)

Lemma fold_max_mono (l1 l2 : list Z) (x y : Z) :
  Forall2 Z.le l1 l2 -> x <= y ->
  fold_left Z.max l1 x <= fold_left Z.max l2 y.
Proof.
  intros H. revert x y. induction H as [|u v l1 l2 Huv _ IH]; intros x y Hxy; simpl.
  - exact Hxy.
  - apply IH. lia.
Qed.

Lemma fold_max_zero (l : list Z) :
  Forall (fun v => v = 0) l -> fold_left Z.max l 0 = 0.
Proof.
  induction l as [|v l IH]; simpl; intros H; [reflexivity|].
  inversion H; subst. simpl. auto.
Qed.

Lemma cell_below (a b : Np.ndarray Z) (i j : Z) :
  below a b -> cell a i j <= cell b i j.
Proof.
  intros (Hr & Hc & Hle). unfold cell. rewrite Hr, Hc.
  destruct (_ && _); [apply Hle | lia].
Qed.

Lemma Forall2_map_pointwise {A} (f g : A -> Z) (l : list A) :
  (forall x, f x <= g x) -> Forall2 Z.le (List.map f l) (List.map g l).
Proof. intros H. induction l; simpl; constructor; auto. Qed.

Lemma Forall2_flat_map_pointwise {A} (f g : A -> list Z) (l : list A) :
  (forall y, Forall2 Z.le (f y) (g y)) ->
  Forall2 Z.le (flat_map f l) (flat_map g l).
Proof.
  intros H. induction l; simpl; [constructor|]. apply Forall2_app; auto.
Qed.

Lemma dilate_at_below (k : nat) (a b : Np.ndarray Z) (i j : Z) :
  below a b -> dilate_at k a i j <= dilate_at k b i j.
Proof.
  intros H. unfold dilate_at. apply fold_max_mono; [|lia].
  apply Forall2_flat_map_pointwise. intros y.
  apply Forall2_map_pointwise. intros x. now apply cell_below.
Qed.

Lemma item_dilate_once (k : nat) (a : Np.ndarray Z) (i j : nat) :
  Np.item 0 (dilate_once k a) i j =
  if (i <? Np.rows a)%nat && (j <? Np.cols a)%nat
  then dilate_at k a (Z.of_nat i) (Z.of_nat j) else 0.
Proof.
  unfold Np.item, dilate_once. simpl. rewrite nth_map_seq.
  destruct (i <? Np.rows a)%nat; simpl.
  - now rewrite nth_map_seq.
  - now destruct j.
Qed.

Lemma dilate_once_below (k : nat) (a b : Np.ndarray Z) :
  below a b -> below (dilate_once k a) (dilate_once k b).
Proof.
  intros H. pose proof H as (Hr & Hc & _).
  split; [exact Hr|]. split; [exact Hc|].
  intros i j. rewrite !item_dilate_once, Hr, Hc.
  destruct (_ && _); [now apply dilate_at_below | lia].
Qed.

Lemma iter_dilate_below (k n : nat) (a b : Np.ndarray Z) :
  below a b ->
  below (Nat.iter n (dilate_once k) a) (Nat.iter n (dilate_once k) b).
Proof.
  intros H. induction n as [|n IH]; simpl; [exact H|].
  now apply dilate_once_below.
Qed.

(** Dilating more or less does not matter to an image of zeros. *)
Lemma cell_zero (a : Np.ndarray Z) (i j : Z) :
  (forall i j, Np.item 0 a i j = 0) -> cell a i j = 0.
Proof. intros H. unfold cell. destruct (_ && _); auto. Qed.

Lemma dilate_at_zero (k : nat) (a : Np.ndarray Z) (i j : Z) :
  (forall i j, Np.item 0 a i j = 0) -> dilate_at k a i j = 0.
Proof.
  intros H. unfold dilate_at. apply fold_max_zero.
  apply Forall_forall. intros v Hv. apply in_flat_map in Hv.
  destruct Hv as (y & _ & Hv). apply in_map_iff in Hv.
  destruct Hv as (x & <- & _). now apply cell_zero.
Qed.

Lemma dilate_once_zero (k : nat) (a : Np.ndarray Z) :
  (forall i j, Np.item 0 a i j = 0) -> dilate_once k a = Np.zeros_like a.
Proof.
  intros H. unfold dilate_once, Np.zeros_like. f_equal.
  apply map_const_seq. intros i. apply map_const_seq. intros j.
  now apply dilate_at_zero.
Qed.

Lemma iter_dilate_zero (k n : nat) (a : Np.ndarray Z) :
  (forall i j, Np.item 0 a i j = 0) ->
  Nat.iter (S n) (dilate_once k) a = Np.zeros_like a.
Proof.
  intros H. induction n as [|n IH].
  - simpl. now apply dilate_once_zero.
  - change (Nat.iter (S (S n)) (dilate_once k) a)
      with (dilate_once k (Nat.iter (S n) (dilate_once k) a)).
    rewrite IH. rewrite dilate_once_zero; [reflexivity|].
    intros i j. apply item_zeros_like.
Qed.

(** *** Voting *)

Section WithOpenCV.
Variable otsu_binary : image -> result (Np.ndarray Z).
Variable selected : rect.

Local Abbreviation generate_mask := (generate_mask otsu_binary selected).
Local Abbreviation count_votes := (count_votes otsu_binary).
Local Abbreviation with_roi := (with_roi selected).

(** [generate_mask] in closed form. *)
Lemma generate_mask_eq (s : t) (frame0 : image) (frames : list image) :
  generate_mask frame0 frames s =
  (match count_votes (with_roi s) frame0 frames with
   | Ok votes =>
       if dilation_kernel_size s <? 0
       then Raise (ValueError "negative dimensions are not allowed")
       else dilate (threshold_votes (min_frame_count s) votes)
              (Z.to_nat (dilation_kernel_size s)) 2
   | Raise e => Raise e
   end, with_roi s).
Proof.
  unfold WatermarkDetector.generate_mask, WatermarkDetector.with_roi,
    select_roi, bind, gets, modify, ret, lift, raise.
  destruct s as [n m k [r|]]; simpl.
  - destruct (WatermarkDetector.count_votes _ _ _ _) as [votes|e]; simpl; auto.
    destruct (k <? 0); reflexivity.
  - destruct (WatermarkDetector.count_votes _ _ _ _) as [votes|e]; simpl; auto.
    destruct (k <? 0); reflexivity.
Qed.

(** The votes depend on the detector through its region only. *)
Lemma detect_roi (s1 s2 : t) (frame : image) :
  roi s1 = roi s2 ->
  detect_watermark_in_frame otsu_binary s1 frame
  = detect_watermark_in_frame otsu_binary s2 frame.
Proof. intros H. unfold detect_watermark_in_frame. now rewrite H. Qed.

Lemma count_votes_roi (s1 s2 : t) (frame0 : image) (frames : list image) :
  roi s1 = roi s2 -> count_votes s1 frame0 frames = count_votes s2 frame0 frames.
Proof.
  intros H. unfold WatermarkDetector.count_votes.
  rewrite (detect_roi s1 s2 frame0 H). f_equal.
  assert (E : detect_all otsu_binary s1 frames = detect_all otsu_binary s2 frames).
  { induction frames as [|f fs IH]; simpl; [reflexivity|].
    now rewrite (detect_roi s1 s2 f H), IH. }
  now rewrite E.
Qed.

Lemma threshold_votes_below (t1 t2 : Z) (votes : Np.ndarray Z) :
  t1 <= t2 -> below (threshold_votes t2 votes) (threshold_votes t1 votes).
Proof.
  intros H. split; [reflexivity|]. split; [reflexivity|].
  intros i j. unfold threshold_votes. rewrite !item_map.
  destruct (nth_error _ j) as [v|]; [|lia].
  destruct (Z.leb_spec t2 v), (Z.leb_spec t1 v); lia.
Qed.

Lemma threshold_votes_zero (min_count : Z) (votes : Np.ndarray Z) :
  Forall (Forall (fun v => v < min_count)) (Np.data votes) ->
  forall i j, Np.item 0 (threshold_votes min_count votes) i j = 0.
Proof.
  intros H i j. unfold threshold_votes. rewrite item_map.
  destruct (nth_error _ j) as [v|] eqn:E; [|reflexivity].
  apply nth_error_In in E.
  assert (Hr : Forall (fun v => v < min_count) (nth i (Np.data votes) [])).
  { destruct (Nat.lt_ge_cases i (length (Np.data votes))) as [Hi|Hi].
    - rewrite Forall_forall in H. apply H. now apply nth_In.
    - rewrite nth_overflow by exact Hi. constructor. }
  rewrite Forall_forall in Hr. specialize (Hr _ E).
  destruct (Z.leb_spec min_count v); [lia | reflexivity].
Qed.

(** C6. Take two detectors that differ in the vote threshold only,
    [t1 <= t2], and the same sampled frames.  If [generate_mask] returns a
    mask with the threshold [t2], it returns one with [t1] as well, of the
    same shape, and after the two dilation passes every cell is at most the
    cell of the lower-threshold mask: a foreground cell ([> 0]) of the [t2]
    mask is a foreground cell of the [t1] mask. *)
Theorem raising_threshold_never_grows_mask
    (n t1 t2 k : Z) (r : option rect) (frame0 : image) (frames : list image)
    (m2 : Np.ndarray Z) :
  t1 <= t2 ->
  fst (generate_mask frame0 frames (mk n t2 k r)) = Ok m2 ->
  exists m1,
    fst (generate_mask frame0 frames (mk n t1 k r)) = Ok m1 /\
    Np.rows m1 = Np.rows m2 /\ Np.cols m1 = Np.cols m2 /\
    forall i j,
      Np.item 0 m2 i j <= Np.item 0 m1 i j /\
      (0 < Np.item 0 m2 i j -> 0 < Np.item 0 m1 i j).
Proof.
  intros Ht. rewrite !generate_mask_eq. simpl fst.
  rewrite (count_votes_roi (with_roi (mk n t2 k r)) (with_roi (mk n t1 k r)))
    by (destruct r; reflexivity).
  destruct (count_votes _ frame0 frames) as [votes|e]; [|discriminate].
  simpl. destruct (k <? 0); [discriminate|].
  unfold dilate. simpl.
  destruct ((Np.rows votes =? 0)%nat || (Np.cols votes =? 0)%nat);
    [discriminate|].
  intros E. injection E as <-. eexists. split; [reflexivity|].
  pose proof (iter_dilate_below (if (Z.to_nat k =? 0)%nat then 3%nat else Z.to_nat k)
                2 _ _ (threshold_votes_below t1 t2 votes Ht)) as (Hr & Hc & Hle).
  split; [exact (eq_sym Hr)|]. split; [exact (eq_sym Hc)|].
  intros i j. specialize (Hle i j). split; [exact Hle | intros Hpos].
  eapply Z.lt_le_trans; [exact Hpos | exact Hle].
Qed.

(** C3, as the code has it.  [generate_mask] has no "no watermark" error.
    When the sampled frames are not empty, the kernel size is not negative
    and no cell's vote count reaches [min_frame_count], it returns the mask
    of zeros with the shape of the frames. *)
Theorem no_votes_gives_zero_mask
    (s : t) (frame0 : image) (frames : list image) (votes : Np.ndarray Z) :
  count_votes (with_roi s) frame0 frames = Ok votes ->
  Forall (Forall (fun v => v < min_frame_count s)) (Np.data votes) ->
  Np.rows votes <> 0%nat -> Np.cols votes <> 0%nat ->
  0 <= dilation_kernel_size s ->
  generate_mask frame0 frames s = (Ok (Np.zeros_like votes), with_roi s).
Proof.
  intros Hv Hlow Hr Hc Hk. rewrite generate_mask_eq, Hv.
  destruct (Z.ltb_spec (dilation_kernel_size s) 0); [lia|].
  unfold dilate.
  assert (E : (Np.rows (threshold_votes (min_frame_count s) votes) =? 0)%nat
              || (Np.cols (threshold_votes (min_frame_count s) votes) =? 0)%nat
              = false).
  { simpl. apply orb_false_iff. split; now apply Nat.eqb_neq. }
  rewrite E. rewrite iter_dilate_zero by (now apply threshold_votes_zero).
  reflexivity.
Qed.

End WithOpenCV.
End WatermarkDetectorFacts.

Module WatermarkDetectorWitnesses.
Import WatermarkDetector WatermarkDetectorFacts Samples.

(** Ten black frames: no cell collects a single vote, let alone 7, and
    [generate_mask] returns the mask of zeros instead of raising. *)
Lemma generate_mask_returns_empty_mask :
  count_votes otsu_black_white (default_detector (0, 0, 2, 2))
    black_frame (repeat black_frame 9)
  = Ok (Np.mk 2 2 [[0; 0]; [0; 0]]) /\
  Forall (Forall (fun v => v < 7)) [[0; 0]; [0; 0]] /\
  fst (generate_mask otsu_black_white (0, 0, 2, 2) black_frame
         (repeat black_frame 9) (default_detector (0, 0, 2, 2)))
  = Ok (Np.mk 2 2 [[0; 0]; [0; 0]]) /\
  fst (generate_mask otsu_black_white (0, 0, 2, 2) black_frame
         (repeat black_frame 9) (default_detector (0, 0, 2, 2)))
  <> Raise no_watermark.
Proof.
  split; [vm_compute; reflexivity|].
  split; [repeat constructor; lia|].
  split; [vm_compute; reflexivity | vm_compute; discriminate].
Qed.

Lemma no_votes_gives_zero_mask_witness :
  count_votes otsu_black_white
    (with_roi (0, 0, 2, 2) (default_detector (0, 0, 2, 2)))
    black_frame (repeat black_frame 9)
  = Ok (Np.mk 2 2 [[0; 0]; [0; 0]]) /\
  generate_mask otsu_black_white (0, 0, 2, 2) black_frame
    (repeat black_frame 9) (default_detector (0, 0, 2, 2))
  = (Ok (Np.zeros_like (Np.mk 2 2 [[0; 0]; [0; 0]])),
     with_roi (0, 0, 2, 2) (default_detector (0, 0, 2, 2))).
Proof.
  assert (Hv : count_votes otsu_black_white
                 (with_roi (0, 0, 2, 2) (default_detector (0, 0, 2, 2)))
                 black_frame (repeat black_frame 9)
               = Ok (Np.mk 2 2 [[0; 0]; [0; 0]]))
    by (vm_compute; reflexivity).
  split; [exact Hv|].
  apply (no_votes_gives_zero_mask otsu_black_white (0, 0, 2, 2)
           (default_detector (0, 0, 2, 2)) black_frame (repeat black_frame 9)
           (Np.mk 2 2 [[0; 0]; [0; 0]]) Hv).
  - simpl. repeat constructor; lia.
  - simpl. lia.
  - simpl. lia.
  - simpl. lia.
Defined.

(** Three strips, two of them marked at the left end; kernel size 3. *)
Lemma raising_threshold_never_grows_mask_witness :
  1 <= 2 /\
  exists m1,
    fst (generate_mask otsu_black_white (0, 0, 5, 1) marked_strip
           [marked_strip; plain_strip] (mk 3 1 3 (Some (0, 0, 5, 1)))) = Ok m1 /\
    (0 < Np.item 0 (Np.mk 1 5 [[255; 255; 255; 0; 0]]) 0 2 ->
     0 < Np.item 0 m1 0 2).
Proof.
  split; [lia|].
  destruct (raising_threshold_never_grows_mask otsu_black_white (0, 0, 5, 1)
              3 1 2 3 (Some (0, 0, 5, 1)) marked_strip [marked_strip; plain_strip]
              (Np.mk 1 5 [[255; 255; 255; 0; 0]]) ltac:(lia)
              ltac:(vm_compute; reflexivity))
    as (m1 & Hm1 & _ & _ & Hcells).
  exists m1. split; [exact Hm1 | exact (proj2 (Hcells 0%nat 2%nat))].
Defined.

(** The scenario of the specification in one cell: foreground in 8 of 10
    samples, so included at threshold 7 and excluded at threshold 9. *)
Example eight_votes_of_ten :
  threshold_votes 7 (Np.mk 1 1 [[8]]) = Np.mk 1 1 [[255]] /\
  threshold_votes 9 (Np.mk 1 1 [[8]]) = Np.mk 1 1 [[0]].
Proof. split; reflexivity. Qed.

End WatermarkDetectorWitnesses.

(** ** The processor *)

Module WatermarkProcessorFacts.
Import NpFacts WatermarkDetector WatermarkProcessor.

(** *** The compositor *)

Lemma blend_pixel_eq (w : spec_float) (p r : pixel) :
  store_pixel (add_pixels (scale w p) (scale (one_minus w) r)) = blend_pixel w p r.
Proof. destruct p as [[p0 p1] p2], r as [[r0 r1] r2]. reflexivity. Qed.

Lemma composite_spec (frame_bgr : image) (y_min y_max x_min x_max : Z)
    (blend_mask : Np.ndarray spec_float) (processed out : image) :
  composite frame_bgr (y_min, y_max, x_min, x_max) blend_mask (Some processed)
    (Np.getslice frame_bgr y_min y_max x_min x_max) = Ok out ->
  Np.well_shaped frame_bgr -> Np.well_shaped blend_mask ->
  Np.well_shaped processed ->
  Np.rows out = Np.rows frame_bgr /\ Np.cols out = Np.cols frame_bgr /\
  Np.well_shaped out /\
  forall (i j : nat),
    (i < Np.rows frame_bgr)%nat -> (j < Np.cols frame_bgr)%nat ->
    Np.item black out i j =
    if Np.in_sliceb frame_bgr y_min y_max x_min x_max i j
    then blend_pixel
           (Np.bitem (S754_zero false) blend_mask
              (i - Np.clip (Np.rows frame_bgr) y_min)
              (j - Np.clip (Np.cols frame_bgr) x_min))
           (Np.bitem black processed
              (i - Np.clip (Np.rows frame_bgr) y_min)
              (j - Np.clip (Np.cols frame_bgr) x_min))
           (Np.item black frame_bgr i j)
    else Np.item black frame_bgr i j.
Proof.
  unfold composite, rbind. intros E Hf Hb Hp.
  set (roi := Np.getslice frame_bgr y_min y_max x_min x_max) in *.
  assert (Hroi : Np.well_shaped roi) by now apply getslice_well_shaped.
  destruct (Np.map2 scale blend_mask processed) as [t1|] eqn:E1; [|discriminate].
  destruct (Np.map2 scale (Np.map one_minus blend_mask) roi) as [t2|] eqn:E2;
    [|discriminate].
  destruct (Np.map2 add_pixels t1 t2) as [blended|] eqn:E3; [|discriminate].
  pose proof (map_well_shaped one_minus blend_mask Hb) as Hom.
  destruct (map2_spec _ _ _ _ E1 Hb Hp) as (W1 & F1a & _ & G1a & _ & _).
  destruct (map2_spec _ _ _ _ E2 Hom Hroi) as (W2 & F2a & _ & G2a & _ & _).
  destruct (map2_spec _ _ _ _ E3 W1 W2) as (W3 & F3a & F3b & G3a & G3b & _).
  pose proof (map_well_shaped store_pixel blended W3) as Wv.
  destruct (setslice_fits _ _ _ _ _ _ _ E) as [Fh Fw]. simpl in Fh, Fw.
  destruct (setslice_spec _ _ _ _ _ _ _ E Hf Wv) as (Hr & Hc & Wout & Hitem).
  split; [exact Hr|]. split; [exact Hc|]. split; [exact Wout|].
  intros i j Hi Hj. rewrite (Hitem black i j Hi Hj).
  destruct (Np.in_sliceb frame_bgr y_min y_max x_min x_max i j) eqn:Hin;
    [|reflexivity].
  apply in_sliceb_spec in Hin. destruct Hin as [[Hi1 Hi2] [Hj1 Hj2]].
  set (ly := Np.clip (Np.rows frame_bgr) y_min) in *.
  set (lx := Np.clip (Np.cols frame_bgr) x_min) in *.
  set (h := (Np.clip (Np.rows frame_bgr) y_max - ly)%nat) in *.
  set (w := (Np.clip (Np.cols frame_bgr) x_max - lx)%nat) in *.
  assert (Hi' : (i - ly < h)%nat) by (unfold h; lia).
  assert (Hj' : (j - lx < w)%nat) by (unfold w; lia).
  set (z := (S754_zero false, S754_zero false, S754_zero false) : f32_pixel).
  assert (Bh : Np.fits (Np.rows blended) h = true) by exact Fh.
  assert (Bw : Np.fits (Np.cols blended) w = true) by exact Fw.
  pose proof (fits_trans _ _ _ F3a Bh) as T1h.
  pose proof (fits_trans _ _ _ G3a Bw) as T1w.
  pose proof (fits_trans _ _ _ F3b Bh) as T2h.
  pose proof (fits_trans _ _ _ G3b Bw) as T2w.
  pose proof (fits_trans _ _ _ F1a T1h) as Mh.
  pose proof (fits_trans _ _ _ G1a T1w) as Mw.
  rewrite (bitem_map store_pixel black z blended h w) by assumption.
  rewrite (bitem_map2 add_pixels t1 t2 blended z z z h w) by assumption.
  rewrite (bitem_map2 scale blend_mask processed t1 z (S754_zero false)
             black h w) by assumption.
  rewrite (bitem_map2 scale (Np.map one_minus blend_mask) roi t2 z (S754_zero false)
             black h w) by assumption.
  rewrite (bitem_map one_minus (S754_zero false) (S754_zero false) blend_mask h w)
    by assumption.
  rewrite (bitem_item black roi) by (unfold roi; simpl; assumption).
  unfold roi. rewrite item_getslice by assumption.
  fold ly lx. replace (ly + (i - ly))%nat with i by lia.
  replace (lx + (j - lx))%nat with j by lia.
  apply blend_pixel_eq.
Qed.

(** *** One frame *)

Section WithServices.
Variable compute_hash : image -> FrameCache.ImageHash.
Variable gray_mse : image -> image -> result spec_float.
Variable model : image -> Np.ndarray Z -> result image.
Variable gaussian_blur : Np.ndarray Z -> result (Np.ndarray spec_float).

Local Abbreviation regenerate := (regenerate compute_hash model).
Local Abbreviation process_frame :=
  (process_frame compute_hash gray_mse model gaussian_blur).
Local Abbreviation process_frames :=
  (process_frames compute_hash gray_mse model gaussian_blur).
Local Abbreviation should_process_frame :=
  (FrameSkipDetector.should_process_frame gray_mse).

(** The regenerating branch leaves a snapshot behind when it returns, and
    never clears one. *)
Lemma regenerate_spec (roi : image) (s s1 : t) (r : result (option image)) :
  regenerate roi s = (r, s1) ->
  roi_coords s1 = roi_coords s /\ roi_mask s1 = roi_mask s /\
  (prev_processed_roi s <> None -> prev_processed_roi s1 <> None) /\
  (forall v, r = Ok v ->
     exists p, v = Some p /\ prev_processed_roi s1 = Some p).
Proof.
  unfold WatermarkProcessor.regenerate, bind, zoom, gets, lift, modify, ret.
  destruct (FrameCache.get compute_hash roi (frame_cache s)) as [[[p|]|e] c1];
    simpl.
  - intros E. injection E as <- <-. simpl.
    repeat split; auto; try discriminate.
    intros v Hv. injection Hv as <-. eauto.
  - destruct (lama_inpaint model roi (roi_mask s)) as [q|e]; simpl.
    + destruct (FrameCache.put compute_hash roi (cvtColor_swap q) c1)
        as [[[]|e] c2]; simpl.
      * intros E. injection E as <- <-. simpl.
        repeat split; auto; try discriminate.
        intros v Hv. injection Hv as <-. eauto.
      * intros E. injection E as <- <-. simpl.
        repeat split; auto; discriminate.
    + intros E. injection E as <- <-. simpl.
      repeat split; auto; discriminate.
  - intros E. injection E as <- <-. simpl.
    repeat split; auto; discriminate.
Qed.

Lemma set_skip_detector_same (s : t) : set_skip_detector (skip_detector s) s = s.
Proof. now destruct s. Qed.

(** [process_frame]: what it leaves in the processor, and where the frame
    it returns comes from. *)
Lemma process_frame_spec (frame_bgr : image) (frame_index : Z) (s s' : t)
    (r : result image) :
  process_frame frame_bgr frame_index s = (r, s') ->
  roi_coords s' = roi_coords s /\ roi_mask s' = roi_mask s /\
  (prev_processed_roi s <> None -> prev_processed_roi s' <> None) /\
  (forall out, r = Ok out ->
     exists b blend_mask processed,
       fst (should_process_frame frame_index (Some (extract_roi s frame_bgr))
              (skip_detector s)) = Ok b /\
       (b = false -> prev_processed_roi s = Some processed) /\
       prev_processed_roi s' = Some processed /\
       gaussian_blur (roi_mask s) = Ok blend_mask /\
       composite frame_bgr (roi_coords s) blend_mask (Some processed)
         (extract_roi s frame_bgr) = Ok out).
Proof.
  unfold WatermarkProcessor.process_frame, bind, zoom, gets, lift. simpl.
  pose proof (FrameSkipDetectorFacts.should_process_frame_state gray_mse
                (skip_detector s) (Some (extract_roi s frame_bgr)) frame_index)
    as Hst.
  destruct (should_process_frame frame_index (Some (extract_roi s frame_bgr))
              (skip_detector s)) as [[b|e] d] eqn:Esp; simpl in Hst; subst d;
    rewrite set_skip_detector_same.
  - destruct b.
    + destruct (regenerate (extract_roi s frame_bgr) s) as [[v|e] s1] eqn:Er.
      * destruct (regenerate_spec _ _ _ _ Er) as (Hc & Hm & Hkeep & Hset).
        destruct (Hset v eq_refl) as (p & -> & Hp).
        rewrite Hm.
        destruct (gaussian_blur (roi_mask s)) as [bm|e]; simpl.
        -- intros E. injection E as <- <-.
           repeat split; auto.
           intros out Hout. exists true, bm, p.
           repeat split; auto; discriminate.
        -- intros E. injection E as <- <-.
           repeat split; auto. discriminate.
      * destruct (regenerate_spec _ _ _ _ Er) as (Hc & Hm & Hkeep & _).
        intros E. injection E as <- <-.
        repeat split; auto. discriminate.
    + simpl. destruct (gaussian_blur (roi_mask s)) as [bm|e]; simpl.
      * intros E. injection E as <- <-.
        repeat split; auto.
        intros out Hout.
        destruct (prev_processed_roi s) as [p|] eqn:Ep.
        -- exists false, bm, p. repeat split; auto.
        -- unfold composite in Hout. destruct (roi_coords s) as [[[? ?] ?] ?].
           discriminate.
      * intros E. injection E as <- <-.
        repeat split; auto. discriminate.
  - intros E. injection E as <- <-.
    repeat split; auto. discriminate.
Qed.

(** C9. The frame that [process_frame] returns has the shape of its input
    and equals it in every cell outside the slice
    [y_min:y_max, x_min:x_max]; for bounds that are not negative this slice
    is the rectangle [y_min <= i < y_max], [x_min <= j < x_max].  Inside, each
    channel of the cell is [w * regenerated + (1 - w) * raw], computed in
    [float32] with the product, the difference and the sum each rounded, and
    stored as [uint8]; [w] is the feather weight of the cell, [regenerated]
    the channel of the snapshot the processor holds after the call and [raw]
    the channel of the input cell.  The formula is written out in the
    statement.  The arrays handed in or held are well shaped, as NumPy
    arrays are. *)
Theorem process_frame_changes_region_only
    (frame_bgr out : image) (frame_index : Z) (s s' : t)
    (y_min y_max x_min x_max : Z) :
  process_frame frame_bgr frame_index s = (Ok out, s') ->
  roi_coords s = (y_min, y_max, x_min, x_max) ->
  Np.well_shaped frame_bgr ->
  (forall b, gaussian_blur (roi_mask s) = Ok b -> Np.well_shaped b) ->
  (forall p, prev_processed_roi s' = Some p -> Np.well_shaped p) ->
  Np.rows out = Np.rows frame_bgr /\ Np.cols out = Np.cols frame_bgr /\
  exists blend_mask processed,
    gaussian_blur (roi_mask s) = Ok blend_mask /\
    prev_processed_roi s' = Some processed /\
    forall i j : nat,
      (i < Np.rows frame_bgr)%nat -> (j < Np.cols frame_bgr)%nat ->
      (~ Np.in_slice frame_bgr y_min y_max x_min x_max i j ->
       Np.item black out i j = Np.item black frame_bgr i j) /\
      (Np.in_slice frame_bgr y_min y_max x_min x_max i j ->
       Np.item black out i j =
       let w := Np.bitem (S754_zero false) blend_mask
                  (i - Np.clip (Np.rows frame_bgr) y_min)
                  (j - Np.clip (Np.cols frame_bgr) x_min) in
       let '(p0, p1, p2) := Np.bitem black processed
                              (i - Np.clip (Np.rows frame_bgr) y_min)
                              (j - Np.clip (Np.cols frame_bgr) x_min) in
       let '(r0, r1, r2) := Np.item black frame_bgr i j in
       let mix := fun regenerated raw : Z =>
         Float32.to_uint8
           (Float32.add
              (Float32.mul w (Float32.of_int regenerated))
              (Float32.mul (Float32.sub (Float32.of_int 1) w)
                           (Float32.of_int raw))) in
       (mix p0 r0, mix p1 r1, mix p2 r2)) /\
      (0 <= y_min -> 0 <= y_max -> 0 <= x_min -> 0 <= x_max ->
       (Np.in_slice frame_bgr y_min y_max x_min x_max i j <->
        y_min <= Z.of_nat i < y_max /\ x_min <= Z.of_nat j < x_max)).
Proof.
  intros E Hcoords Hf Hblur Hsnap.
  destruct (process_frame_spec _ _ _ _ _ E) as (_ & _ & _ & Hout).
  destruct (Hout out eq_refl) as (b & bm & p & _ & _ & Hp & Hbm & Hcomp).
  rewrite Hcoords in Hcomp. unfold extract_roi in Hcomp. rewrite Hcoords in Hcomp.
  destruct (composite_spec _ _ _ _ _ _ _ _ Hcomp Hf (Hblur bm Hbm) (Hsnap p Hp))
    as (Hr & Hc & _ & Hitem).
  split; [exact Hr|]. split; [exact Hc|].
  exists bm, p. split; [exact Hbm|]. split; [exact Hp|].
  intros i j Hi Hj. specialize (Hitem i j Hi Hj).
  split; [|split].
  - intros Hout'. rewrite Hitem.
    destruct (Np.in_sliceb frame_bgr y_min y_max x_min x_max i j) eqn:Hin;
      [|reflexivity].
    apply in_sliceb_spec in Hin. contradiction.
  - intros Hin. rewrite Hitem.
    apply in_sliceb_spec in Hin. rewrite Hin.
    destruct (Np.bitem black p _ _) as [[p0 p1] p2].
    destruct (Np.item black frame_bgr i j) as [[r0 r1] r2].
    reflexivity.
  - intros. now apply in_slice_plain.
Qed.

(** *** The frame loop *)

Lemma process_frame_wrapper_spec (frame : image) (frame_count : Z) (s s' : t)
    (r : result image) :
  process_frame_wrapper compute_hash gray_mse model gaussian_blur
    frame frame_count s = (r, s') ->
  exists r0,
    process_frame (cvtColor_swap frame) frame_count s = (r0, s') /\
    (forall out, r = Ok out -> exists out0, r0 = Ok out0).
Proof.
  unfold process_frame_wrapper, bind, ret.
  destruct (process_frame (cvtColor_swap frame) frame_count s) as [[o|e] s1];
    intros E; injection E as <- <-; eexists; split; try reflexivity.
  - eauto.
  - discriminate.
Qed.

(** A snapshot, once taken, is there for the rest of the loop. *)
Lemma process_frames_keep_snapshot (frames : list image) (frame_count : Z)
    (s s' : t) (r : result (list image)) :
  process_frames frames frame_count s = (r, s') ->
  prev_processed_roi s <> None -> prev_processed_roi s' <> None.
Proof.
  revert frame_count s r. induction frames as [|f fs IH]; intros k s r; simpl.
  - unfold ret. intros E. injection E as <- <-. auto.
  - unfold bind.
    destruct (process_frame_wrapper compute_hash gray_mse model gaussian_blur f k s)
      as [[o|e] s1] eqn:E1.
    + destruct (process_frame_wrapper_spec _ _ _ _ _ E1) as (r0 & E0 & _).
      destruct (process_frame_spec _ _ _ _ _ E0) as (_ & _ & Hkeep & _).
      destruct (process_frames fs (k + 1) s1) as [[os|e] s2] eqn:E2;
        intros E; injection E as <- <-; intros Hs;
        eapply IH; eauto.
    + destruct (process_frame_wrapper_spec _ _ _ _ _ E1) as (r0 & E0 & _).
      destruct (process_frame_spec _ _ _ _ _ E0) as (_ & _ & Hkeep & _).
      intros E. injection E as <- <-. exact Hkeep.
Qed.

(** The loop hands frame number [n] to [process_frame] with index [n]. *)
Lemma process_frames_app (l1 l2 : list image) (frame_count : Z) (s : t) :
  process_frames (l1 ++ l2) frame_count s =
  match process_frames l1 frame_count s with
  | (Ok outs1, s1) =>
      match process_frames l2 (frame_count + Z.of_nat (length l1)) s1 with
      | (Ok outs2, s2) => (Ok (outs1 ++ outs2), s2)
      | (Raise e, s2) => (Raise e, s2)
      end
  | (Raise e, s1) => (Raise e, s1)
  end.
Proof.
  revert frame_count s. induction l1 as [|f l1 IH]; intros k s.
  - simpl. unfold ret. rewrite Z.add_0_r.
    now destruct (process_frames l2 k s) as [[o|e] s2].
  - cbn [app WatermarkProcessor.process_frames length]. unfold bind at 1 3.
    destruct (process_frame_wrapper _ _ _ _ f k s) as [[o|e] s1]; [|reflexivity].
    unfold bind. rewrite IH.
    replace (k + 1 + Z.of_nat (length l1)) with (k + Z.of_nat (S (length l1)))
      by lia.
    destruct (process_frames l1 (k + 1) s1) as [[o1|e1] s2]; [|reflexivity].
    unfold ret.
    now destruct (process_frames l2 _ s2) as [[o2|e2] s3].
Qed.

(** C1. The first frame, index 0, is classified must-process for every
    keyframe interval other than 0 (for which [%] raises).  Hence, in a run
    of the frame loop from index 0, whenever the loop reaches frame number
    [n] and the skip branch is about to be taken for it, the processor
    holds a snapshot: [prev_processed_roi] is not [None]. *)
Theorem skip_branch_always_has_snapshot :
  (forall (s : t) (roi : option image),
      FrameSkipDetector.keyframe_interval (skip_detector s) <> 0 ->
      fst (should_process_frame 0 roi (skip_detector s)) = Ok true) /\
  (forall (s0 s_n : t) (frames outs : list image) (n : nat) (frame : image),
      process_frames (firstn n frames) 0 s0 = (Ok outs, s_n) ->
      nth_error frames n = Some frame ->
      fst (should_process_frame (Z.of_nat n)
             (Some (extract_roi s_n (cvtColor_swap frame)))
             (skip_detector s_n)) = Ok false ->
      prev_processed_roi s_n <> None).
Proof.
  split.
  - intros s roi HK. destruct (skip_detector s) as [K S prev]. simpl in HK.
    rewrite (FrameSkipDetectorFacts.should_process_frame_keyframe gray_mse
               K S prev roi 0); [reflexivity|].
    now apply FrameSkipDetectorFacts.first_frame_is_keyframe.
  - intros s0 s_n frames outs n frame Hrun Hnth Hskip.
    destruct n as [|m].
    + exfalso. simpl in Hrun. unfold ret in Hrun. injection Hrun as _ <-.
      destruct (skip_detector s0) as [K S prev]. simpl in Hskip.
      destruct (Z.eq_dec K 0) as [->|HK].
      * rewrite FrameSkipDetectorFacts.should_process_frame_zero_interval in Hskip.
        discriminate.
      * rewrite (FrameSkipDetectorFacts.should_process_frame_keyframe gray_mse
                   K S prev _ 0) in Hskip
          by now apply FrameSkipDetectorFacts.first_frame_is_keyframe.
        discriminate.
    + destruct frames as [|f0 rest]; [discriminate|].
      cbn [firstn WatermarkProcessor.process_frames] in Hrun.
      unfold bind in Hrun.
      destruct (process_frame_wrapper compute_hash gray_mse model gaussian_blur
                  f0 0 s0) as [[o|e] s1] eqn:E1; [|discriminate].
      destruct (process_frame_wrapper_spec _ _ _ _ _ E1) as (r0 & E0 & Hok).
      destruct (Hok o eq_refl) as [out0 ->].
      destruct (process_frames (firstn m rest) (0 + 1) s1) as [[os|e] s2] eqn:E2;
        [|discriminate].
      unfold ret in Hrun. injection Hrun as _ <-.
      eapply process_frames_keep_snapshot; [exact E2|].
      destruct (process_frame_spec _ _ _ _ _ E0) as (_ & _ & _ & Hout).
      destruct (Hout out0 eq_refl) as (b & bm & p & _ & _ & Hp & _).
      rewrite Hp. discriminate.
Qed.

End WithServices.
End WatermarkProcessorFacts.

Module WatermarkProcessorWitnesses.
Import WatermarkDetector WatermarkProcessor WatermarkProcessorFacts Samples.

(** The weight 1/2 shows the store into [uint8]: 127.5 becomes 127, and
    0.5 becomes 0.  The weights 0 and 1 give back the raw and the
    regenerated value. *)
Example blend_channel_samples :
  blend_channel weight_half 255 0 = 127 /\
  blend_channel weight_half 1 0 = 0 /\
  blend_channel weight_zero 200 37 = 37 /\
  blend_channel weight_one 200 37 = 200.
Proof. vm_compute. repeat split; reflexivity. Qed.

(** Two frames through a processor with the settings of the source: the
    first is regenerated, the second skipped, and the snapshot is there. *)
Lemma skip_branch_always_has_snapshot_witness :
  FrameSkipDetector.keyframe_interval
    (skip_detector (init small_coords small_mask)) <> 0 /\
  fst (FrameSkipDetector.should_process_frame no_difference 0 (Some small_frame)
         (skip_detector (init small_coords small_mask))) = Ok true /\
  exists outs s1,
    process_frames same_hash no_difference paint_white sharp_mask
      (firstn 1 [small_frame; small_frame]) 0 (init small_coords small_mask)
    = (Ok outs, s1) /\
    nth_error [small_frame; small_frame] 1 = Some small_frame /\
    fst (FrameSkipDetector.should_process_frame no_difference (Z.of_nat 1)
           (Some (extract_roi s1 (cvtColor_swap small_frame)))
           (skip_detector s1)) = Ok false /\
    prev_processed_roi s1 <> None.
Proof.
  assert (HK : FrameSkipDetector.keyframe_interval
                 (skip_detector (init small_coords small_mask)) <> 0)
    by (simpl; lia).
  split; [exact HK|]. split.
  - exact (proj1 (skip_branch_always_has_snapshot same_hash no_difference
                    paint_white sharp_mask)
             (init small_coords small_mask) (Some small_frame) HK).
  - eexists. eexists.
    split; [vm_compute; reflexivity|].
    split; [reflexivity|].
    split; [vm_compute; reflexivity|].
    eapply (proj2 (skip_branch_always_has_snapshot same_hash no_difference
                     paint_white sharp_mask)
              (init small_coords small_mask) _ [small_frame; small_frame] _ 1%nat
              small_frame).
    + vm_compute. reflexivity.
    + reflexivity.
    + vm_compute. reflexivity.
Defined.

(** The first frame through a processor whose blur leaves the weight 1/2
    on the watermark.  The cell in the watermark is half the 255 of the
    regenerated region and half the 10 of the input, 132.5, stored as 132;
    its neighbour in the region has the weight 0 and keeps the input's 20;
    the cell below the region is the input's. *)
Lemma process_frame_changes_region_only_witness :
  exists out s',
    process_frame same_hash no_difference paint_white soft_mask
      small_frame 0 (init small_coords small_mask) = (Ok out, s') /\
    Np.well_shaped small_frame /\
    Np.in_slice small_frame 0 1 0 2 0 0 /\
    Np.in_slice small_frame 0 1 0 2 0 1 /\
    ~ Np.in_slice small_frame 0 1 0 2 1 0 /\
    Np.item black out 0 0 = (132, 132, 132) /\
    Np.item black out 0 1 = (20, 20, 20) /\
    Np.item black out 1 0 = Np.item black small_frame 1 0.
Proof.
  set (run := process_frame same_hash no_difference paint_white soft_mask
                small_frame 0 (init small_coords small_mask)).
  set (out := Np.mk 2 3 [[gray 132; gray 20; gray 30]; [gray 40; gray 50; gray 60]]).
  assert (Hrun : run = (Ok out, snd run)) by (vm_compute; reflexivity).
  assert (Hf : Np.well_shaped small_frame).
  { split; simpl; [reflexivity | repeat constructor]. }
  assert (Hblur : forall b, soft_mask (roi_mask (init small_coords small_mask)) = Ok b ->
                            Np.well_shaped b).
  { intros b Hb. vm_compute in Hb. injection Hb as <-.
    split; simpl; [reflexivity | repeat constructor]. }
  assert (Hsnap : forall p, prev_processed_roi (snd run) = Some p ->
                            Np.well_shaped p).
  { intros p Hp. vm_compute in Hp. injection Hp as <-.
    split; simpl; [reflexivity | repeat constructor]. }
  assert (Hin : Np.in_slice small_frame 0 1 0 2 0 0).
  { unfold Np.in_slice. vm_compute. lia. }
  assert (Hin' : Np.in_slice small_frame 0 1 0 2 0 1).
  { unfold Np.in_slice. vm_compute. lia. }
  assert (Hout : ~ Np.in_slice small_frame 0 1 0 2 1 0).
  { unfold Np.in_slice. vm_compute. lia. }
  exists out, (snd run).
  split; [exact Hrun|]. split; [exact Hf|].
  split; [exact Hin|]. split; [exact Hin'|]. split; [exact Hout|].
  destruct (process_frame_changes_region_only same_hash no_difference
              paint_white soft_mask small_frame out 0
              (init small_coords small_mask) (snd run) 0 1 0 2
              Hrun eq_refl Hf Hblur Hsnap)
    as (_ & _ & bm & p & Hbm & Hp & Hcells).
  vm_compute in Hbm. injection Hbm as <-.
  vm_compute in Hp. injection Hp as <-.
  split; [|split].
  - rewrite (proj1 (proj2 (Hcells 0%nat 0%nat ltac:(simpl; lia) ltac:(simpl; lia)))
               Hin).
    vm_compute. reflexivity.
  - rewrite (proj1 (proj2 (Hcells 0%nat 1%nat ltac:(simpl; lia) ltac:(simpl; lia)))
               Hin').
    vm_compute. reflexivity.
  - exact (proj1 (Hcells 1%nat 0%nat ltac:(simpl; lia) ltac:(simpl; lia)) Hout).
Defined.

End WatermarkProcessorWitnesses.

(* ===================================================================== *)
(** * Further properties *)
(* ===================================================================== *)

(** ** The frame cache: lookups, misses and counts *)

Module FrameCacheMore.
Import DictFacts FrameCache FrameCacheFacts.

Lemma setitem_notin {K V} (K_eq_dec : forall x y : K, {x = y} + {x <> y})
    (k : K) (v : V) (d : dict K V) :
  ~ In k (keys d) -> setitem K_eq_dec k v d = d ++ [(k, v)].
Proof.
  induction d as [|[k' v'] d IH]; simpl; intros H; [reflexivity|].
  destruct (K_eq_dec k k') as [->|Hne]; [exfalso; apply H; now left|].
  rewrite IH; [reflexivity | tauto].
Qed.

(** The scan of [get] ends on the first of the nearest stored hashes. *)
Lemma scan_from_spec (h : ImageHash) (ks : list ImageHash) (b : ImageHash) (d : Z) :
  (fold_left (scan_step h) ks (Some b, Int d) = (Some b, Int d) /\
   Forall (fun k => d <= hash_sub h k) ks) \/
  (exists l1 bm l2,
      ks = l1 ++ bm :: l2 /\
      fold_left (scan_step h) ks (Some b, Int d) = (Some bm, Int (hash_sub h bm)) /\
      hash_sub h bm < d /\
      Forall (fun k => hash_sub h bm < hash_sub h k) l1 /\
      Forall (fun k => hash_sub h bm <= hash_sub h k) l2).
Proof.
  revert b d. induction ks as [|k ks IH]; intros b d; simpl.
  - left. split; [reflexivity | constructor].
  - assert (Hstep : scan_step h (Some b, Int d) k
                    = if hash_sub h k <? d then (Some k, Int (hash_sub h k))
                      else (Some b, Int d)) by reflexivity.
    rewrite Hstep. clear Hstep.
    destruct (Z.ltb_spec (hash_sub h k) d) as [Hlt|Hge].
    + right.
      destruct (IH k (hash_sub h k)) as [[E F]|(l1 & bm & l2 & -> & E & Hd & F1 & F2)].
      * exists [], k, ks.
        split; [reflexivity|]. split; [exact E|]. split; [exact Hlt|].
        split; [constructor | exact F].
      * exists (k :: l1), bm, l2.
        split; [reflexivity|]. split; [exact E|]. split; [lia|].
        split; [constructor; [exact Hd | exact F1] | exact F2].
    + destruct (IH b d) as [[E F]|(l1 & bm & l2 & -> & E & Hd & F1 & F2)].
      * left. split; [exact E|]. constructor; [exact Hge | exact F].
      * right. exists (k :: l1), bm, l2.
        split; [reflexivity|]. split; [exact E|]. split; [exact Hd|].
        split; [constructor; [lia | exact F1] | exact F2].
Qed.

Lemma scan_spec (h : ImageHash) (ks : list ImageHash) :
  ks <> [] ->
  exists l1 bm l2,
    ks = l1 ++ bm :: l2 /\
    scan h ks = (Some bm, Int (hash_sub h bm)) /\
    Forall (fun k => hash_sub h bm < hash_sub h k) l1 /\
    Forall (fun k => hash_sub h bm <= hash_sub h k) l2.
Proof.
  destruct ks as [|k ks]; [congruence|]. intros _.
  unfold scan. simpl.
  change (scan_step h (None, Inf) k) with (Some k, Int (hash_sub h k)).
  destruct (scan_from_spec h ks k (hash_sub h k))
    as [[E F]|(l1 & bm & l2 & -> & E & Hd & F1 & F2)].
  - exists [], k, ks. split; [reflexivity|]. split; [exact E|].
    split; [constructor | exact F].
  - exists (k :: l1), bm, l2. split; [reflexivity|]. split; [exact E|].
    split; [constructor; [exact Hd | exact F1] | exact F2].
Qed.

Section WithRegions.
Context {Roi Buf : Type}.
Variable compute_hash : Roi -> ImageHash.

Local Abbreviation put := (put compute_hash).
Local Abbreviation get := (get compute_hash).
Local Abbreviation after := (after compute_hash).
Local Abbreviation after_all := (after_all compute_hash).
Local Abbreviation state := (FrameCache.t Buf).

Lemma get_nothing_stored (s : state) (roi : Roi) :
  cache s = [] -> get roi s = (Ok None, s).
Proof.
  intros H. unfold FrameCache.get, bind, gets, ret. simpl. rewrite H. reflexivity.
Qed.

Lemma get_too_far (s : state) (roi : Roi) (bm : ImageHash) (d : Z) :
  scan (compute_hash roi) (keys (cache s)) = (Some bm, Int d) ->
  similarity_threshold s < d ->
  get roi s = (Ok None, s).
Proof.
  intros Hscan Hd. unfold FrameCache.get, bind, gets, ret. simpl.
  rewrite Hscan. simpl.
  destruct (Z.leb_spec d (similarity_threshold s)); [lia | reflexivity].
Qed.

(** What [get] does, case by case. *)
Lemma get_cases (s : state) (roi : Roi) :
  consistent s ->
  (cache s = [] /\ get roi s = (Ok None, s)) \/
  (exists l1 bm l2 v n,
      keys (cache s) = l1 ++ bm :: l2 /\
      Forall (fun k => hash_sub (compute_hash roi) bm < hash_sub (compute_hash roi) k) l1 /\
      Forall (fun k => hash_sub (compute_hash roi) bm <= hash_sub (compute_hash roi) k) l2 /\
      getitem hash_eq_dec bm (cache s) = Some v /\
      getitem hash_eq_dec bm (access_count s) = Some n /\
      ((hash_sub (compute_hash roi) bm <= similarity_threshold s /\
        get roi s = (Ok (Some v),
                     set_access_count
                       (setitem hash_eq_dec bm (n + 1) (access_count s)) s)) \/
       (similarity_threshold s < hash_sub (compute_hash roi) bm /\
        get roi s = (Ok None, s)))).
Proof.
  intros [Hk Hnd].
  destruct (cache s) as [|e c] eqn:Ec.
  - left. split; [reflexivity|]. apply get_nothing_stored. exact Ec.
  - right. rewrite <- Ec in *.
    assert (Hne : keys (cache s) <> []) by (rewrite Ec; discriminate).
    destruct (scan_spec (compute_hash roi) _ Hne) as (l1 & bm & l2 & Hks & Hscan & F1 & F2).
    assert (Hin : In bm (keys (cache s))).
    { rewrite Hks. apply in_or_app. right. now left. }
    destruct (In_getitem hash_eq_dec bm (cache s) Hin) as [v Hv].
    rewrite Hk in Hin.
    destruct (In_getitem hash_eq_dec bm (access_count s) Hin) as [n Hn].
    exists l1, bm, l2, v, n.
    split; [exact Hks|]. split; [exact F1|]. split; [exact F2|].
    split; [exact Hv|]. split; [exact Hn|].
    destruct (Z.le_gt_cases (hash_sub (compute_hash roi) bm) (similarity_threshold s))
      as [Hle|Hgt].
    + left. split; [exact Hle|].
      exact (get_hit compute_hash s roi bm _ n v Hscan Hle Hn Hv).
    + right. split; [lia|]. eapply get_too_far; [exact Hscan | lia].
Qed.

(** With the hash of the region at hand, the dictionary operations of a
    cache of capacity at least 1 never fail: the two lookups of [get] find
    their key, and [min] and the two [del] of [put] have an entry to work
    on. *)
Lemma own_operations_never_fail (C T : Z) (cs : list (call Roi Buf)) :
  1 <= C ->
  (forall roi, exists o, fst (get roi (after_all cs (init C T))) = Ok o) /\
  (forall roi p, fst (put roi p (after_all cs (init C T))) = Ok tt).
Proof.
  intros HC.
  destruct (after_all_invariant compute_hash C T cs ltac:(lia))
    as (Hcons & Hsz & Hthr & Hlen).
  set (s := after_all cs (init C T)) in *. split.
  - intros roi.
    destruct (get_cases s roi Hcons)
      as [[_ E]|(l1 & bm & l2 & v & n & _ & _ & _ & _ & _ & [[_ E]|[_ E]])];
      rewrite E; simpl; eauto.
  - intros roi p.
    destruct (Z.lt_ge_cases (len (cache s)) (cache_size s)) as [Hroom|Hfull].
    + now rewrite put_room.
    + assert (Hne : access_count s <> []).
      { intros E. destruct Hcons as [Hk _]. rewrite E in Hk.
        destruct (cache s); [unfold len in Hfull; simpl in Hfull; lia | discriminate]. }
      destruct (min_key_nonempty _ Hne) as [victim Hmin].
      now rewrite (put_full compute_hash s roi p victim Hcons Hfull Hmin).
Qed.

(** X2.  With a capacity of 0 or less nothing is ever stored: [put] on the
    empty cache raises the [ValueError] of [min] on an empty dictionary and
    leaves the cache empty, [get] misses, and so the cache is still as
    [__init__] made it after any calls. *)
Theorem nonpositive_capacity_stays_empty (C T : Z) (cs : list (call Roi Buf)) :
  C <= 0 ->
  after_all cs (init C T) = init C T /\
  (forall (roi : Roi) (p : Buf),
      put roi p (init C T)
      = (Raise (ValueError "min() arg is an empty sequence"), init C T)) /\
  (forall roi : Roi,
      get roi (init (Buf := Buf) C T) = (Ok None, init C T)).
Proof.
  intros HC.
  assert (Hput : forall (roi : Roi) (p : Buf),
             put roi p (init C T)
             = (Raise (ValueError "min() arg is an empty sequence"), init C T)).
  { intros roi p. apply put_nothing_to_evict; simpl; auto. }
  assert (Hget : forall roi : Roi,
             get roi (init (Buf := Buf) C T) = (Ok None, init C T)).
  { intros roi. now apply get_nothing_stored. }
  split; [|split; assumption].
  unfold FrameCache.after_all.
  induction cs as [|c cs IH]; simpl; [reflexivity|].
  assert (E : after c (init C T) = init C T).
  { destruct c as [roi p|roi]; unfold FrameCache.after;
      [rewrite Hput | rewrite Hget]; reflexivity. }
  rewrite E. exact IH.
Qed.

(** X3.  A hit of [get] is a nearest-neighbour lookup: the buffer returned
    is stored under a hash [bm] whose Hamming distance to the hash of the
    region is within the threshold and is the least among the stored hashes,
    [bm] being the first such hash in iteration order.  The hit adds 1 to
    the access count of [bm] and changes nothing else. *)
Theorem get_returns_nearest_entry (s s' : state) (roi : Roi) (v : Buf) :
  consistent s ->
  get roi s = (Ok (Some v), s') ->
  exists l1 bm l2 n,
    keys (cache s) = l1 ++ bm :: l2 /\
    Forall (fun k => hash_sub (compute_hash roi) bm < hash_sub (compute_hash roi) k) l1 /\
    Forall (fun k => hash_sub (compute_hash roi) bm <= hash_sub (compute_hash roi) k) l2 /\
    hash_sub (compute_hash roi) bm <= similarity_threshold s /\
    getitem hash_eq_dec bm (cache s) = Some v /\
    getitem hash_eq_dec bm (access_count s) = Some n /\
    s' = set_access_count (setitem hash_eq_dec bm (n + 1) (access_count s)) s.
Proof.
  intros Hcons E.
  destruct (get_cases s roi Hcons)
    as [[_ E']|(l1 & bm & l2 & v' & n & Hks & F1 & F2 & Hv & Hn & [[Hd E']|[_ E']])];
    rewrite E' in E; try discriminate.
  injection E as -> <-.
  exists l1, bm, l2, n. repeat (split; [assumption|]). reflexivity.
Qed.

(** X4.  [get] misses exactly when every stored hash is farther from the
    hash of the region than the threshold (in particular when nothing is
    stored), and a miss leaves the cache as it was. *)
Theorem get_misses_when_all_far (s : state) (roi : Roi) :
  consistent s ->
  (fst (get roi s) = Ok None <->
   Forall (fun k => similarity_threshold s < hash_sub (compute_hash roi) k)
     (keys (cache s))) /\
  (fst (get roi s) = Ok None -> snd (get roi s) = s).
Proof.
  intros Hcons.
  destruct (get_cases s roi Hcons)
    as [[Ec E]|(l1 & bm & l2 & v & n & Hks & F1 & F2 & Hv & Hn & [[Hd E]|[Hd E]])];
    rewrite E; simpl.
  - rewrite Ec. simpl. split; [split; [constructor | reflexivity] | reflexivity].
  - split; [|discriminate]. split; [discriminate|].
    intros F. exfalso. rewrite Hks in F. apply Forall_app in F.
    destruct F as [_ F]. inversion F; subst. lia.
  - split; [|reflexivity]. split; [|reflexivity]. intros _.
    rewrite Hks. apply Forall_app. split.
    + eapply Forall_impl; [|exact F1]. simpl. intros; lia.
    + constructor; [exact Hd|].
      eapply Forall_impl; [|exact F2]. simpl. intros; lia.
Qed.

(** X5.  While there is room, [put] under a signature that is not stored
    appends the new entry, with access count 1, behind the entries there
    are: these keep their buffers, their counts and their order. *)
Theorem put_fresh_appends (s : state) (roi : Roi) (p : Buf) :
  len (cache s) < cache_size s ->
  ~ In (compute_hash roi) (keys (cache s)) ->
  ~ In (compute_hash roi) (keys (access_count s)) ->
  put roi p s =
    (Ok tt, mk (cache s ++ [(compute_hash roi, p)])
               (cache_size s) (similarity_threshold s)
               (access_count s ++ [(compute_hash roi, 1)])).
Proof.
  intros Hroom Hc Ha. rewrite put_room by exact Hroom.
  now rewrite !setitem_notin.
Qed.

(** X6.  The lookup is approximate.  After [put R P] on an empty cache of
    capacity at least 1, [get R'] returns [P] for every region [R'] whose
    hash is within the threshold of the hash of [R], and misses, leaving the
    cache alone, for every other region. *)
Theorem lookup_within_threshold (C T : Z) (R R' : Roi) (P : Buf) :
  1 <= C ->
  (hash_sub (compute_hash R') (compute_hash R) <= T ->
   get R' (after (Put R P) (init C T))
   = (Ok (Some P), mk [(compute_hash R, P)] C T [(compute_hash R, 2)])) /\
  (T < hash_sub (compute_hash R') (compute_hash R) ->
   get R' (after (Put R P) (init C T))
   = (Ok None, after (Put R P) (init C T))).
Proof.
  intros HC.
  assert (E : after (Put R P) (init C T)
              = mk [(compute_hash R, P)] C T [(compute_hash R, 1)]).
  { unfold FrameCache.after.
    rewrite put_room by (unfold init, len; simpl; lia). reflexivity. }
  rewrite E.
  assert (Hscan : scan (compute_hash R') [compute_hash R]
                  = (Some (compute_hash R),
                     Int (hash_sub (compute_hash R') (compute_hash R)))) by reflexivity.
  split; intros Hd.
  - assert (Hn : getitem hash_eq_dec (compute_hash R) [(compute_hash R, 1)] = Some 1)
      by (simpl; destruct_keys; try reflexivity).
    assert (Hv : getitem hash_eq_dec (compute_hash R) [(compute_hash R, P)] = Some P)
      by (simpl; destruct_keys; try reflexivity).
    rewrite (get_hit compute_hash
               (mk [(compute_hash R, P)] C T [(compute_hash R, 1)])
               R' (compute_hash R) _ 1 P Hscan Hd Hn Hv).
    unfold set_access_count. simpl. destruct_keys; try reflexivity.
  - eapply get_too_far; [exact Hscan | exact Hd].
Qed.

(** X7.  The access count counts the lookups: after [put R P] on an empty
    cache (capacity at least 1, threshold at least 0) and [k] calls of
    [get R], the single entry has count [1 + k]. *)
Theorem access_count_counts_hits (C T : Z) (R : Roi) (P : Buf) (k : nat) :
  1 <= C -> 0 <= T ->
  after_all (Put R P :: repeat (Get R) k) (init C T)
  = mk [(compute_hash R, P)] C T [(compute_hash R, 1 + Z.of_nat k)].
Proof.
  intros HC HT. unfold FrameCache.after_all. cbn [fold_left].
  assert (E : after (Put R P) (init C T)
              = mk [(compute_hash R, P)] C T [(compute_hash R, 1)]).
  { unfold FrameCache.after.
    rewrite put_room by (unfold init, len; simpl; lia). reflexivity. }
  rewrite E. clear E.
  assert (G : forall n,
             after (Get R) (mk [(compute_hash R, P)] C T [(compute_hash R, n)])
             = mk [(compute_hash R, P)] C T [(compute_hash R, n + 1)]).
  { intros n. unfold FrameCache.after.
    pose proof (proj2 (hash_sub_zero_iff (compute_hash R) (compute_hash R)) eq_refl)
      as Hdiag.
    rewrite (get_hit compute_hash _ R (compute_hash R) 0 n P).
    - unfold set_access_count. simpl. destruct_keys; try reflexivity.
    - unfold scan, scan_step. simpl. rewrite Hdiag. reflexivity.
    - exact HT.
    - simpl. destruct_keys; try reflexivity.
    - simpl. destruct_keys; try reflexivity. }
  assert (L : forall j n,
             fold_left (fun s c => after c s) (repeat (Get R) j)
               (mk [(compute_hash R, P)] C T [(compute_hash R, n)])
             = mk [(compute_hash R, P)] C T [(compute_hash R, n + Z.of_nat j)]).
  { induction j as [|j IH]; intros n.
    - simpl. now rewrite Z.add_0_r.
    - cbn [repeat fold_left]. rewrite G, IH. do 3 f_equal. lia. }
  apply L.
Qed.

End WithRegions.
End FrameCacheMore.

Module FrameCacheMoreWitnesses.
Import FrameCache FrameCacheFacts FrameCacheMore.

(** Regions and buffers are numbers and each region is its own hash: 1 and
    2 are both at distance 1 from 3, and at distance 7 from 255. *)
Lemma nonpositive_capacity_stays_empty_witness :
  0 <= 0 /\
  after_all (fun r : N => r) [Put 1%N 10%N; Get 1%N; Put 2%N 20%N] (init 0 3)
  = init 0 3.
Proof.
  assert (HC : 0 <= 0) by lia.
  split; [exact HC|].
  exact (proj1 (nonpositive_capacity_stays_empty (fun r : N => r) 0 3
                  [Put 1%N 10%N; Get 1%N; Put 2%N 20%N] HC)).
Defined.

Lemma get_returns_nearest_entry_witness :
  consistent (mk [(1%N, 10%N); (2%N, 20%N)] 5 3 [(1%N, 1); (2%N, 1)]) /\
  get (fun r : N => r) 3%N (mk [(1%N, 10%N); (2%N, 20%N)] 5 3 [(1%N, 1); (2%N, 1)])
  = (Ok (Some 10%N), mk [(1%N, 10%N); (2%N, 20%N)] 5 3 [(1%N, 2); (2%N, 1)]) /\
  exists l1 bm l2 n,
    keys [(1%N, 10%N); (2%N, 20%N)] = l1 ++ bm :: l2 /\
    getitem hash_eq_dec bm [(1%N, 1); (2%N, 1)] = Some n /\
    hash_sub 3%N bm <= 3.
Proof.
  assert (Hc : consistent (mk [(1%N, 10%N); (2%N, 20%N)] 5 3 [(1%N, 1); (2%N, 1)])).
  { split; simpl; [reflexivity|].
    repeat constructor; simpl; intuition discriminate. }
  assert (Hg : get (fun r : N => r) 3%N
                 (mk [(1%N, 10%N); (2%N, 20%N)] 5 3 [(1%N, 1); (2%N, 1)])
               = (Ok (Some 10%N),
                  mk [(1%N, 10%N); (2%N, 20%N)] 5 3 [(1%N, 2); (2%N, 1)]))
    by (vm_compute; reflexivity).
  split; [exact Hc|]. split; [exact Hg|].
  destruct (get_returns_nearest_entry (fun r : N => r) _ _ 3%N 10%N Hc Hg)
    as (l1 & bm & l2 & n & Hks & _ & _ & Hd & _ & Hn & _).
  exists l1, bm, l2, n. split; [exact Hks|]. split; [exact Hn | exact Hd].
Defined.

Lemma get_misses_when_all_far_witness :
  consistent (mk [(1%N, 10%N); (2%N, 20%N)] 5 3 [(1%N, 1); (2%N, 1)]) /\
  Forall (fun k => 3 < hash_sub 255%N k) [1%N; 2%N] /\
  fst (get (fun r : N => r) 255%N
         (mk [(1%N, 10%N); (2%N, 20%N)] 5 3 [(1%N, 1); (2%N, 1)])) = Ok None.
Proof.
  assert (Hc : consistent (mk [(1%N, 10%N); (2%N, 20%N)] 5 3 [(1%N, 1); (2%N, 1)])).
  { split; simpl; [reflexivity|].
    repeat constructor; simpl; intuition discriminate. }
  assert (Hfar : Forall (fun k => 3 < hash_sub 255%N k) [1%N; 2%N]).
  { repeat constructor; vm_compute; reflexivity. }
  split; [exact Hc|]. split; [exact Hfar|].
  exact (proj2 (proj1 (get_misses_when_all_far (fun r : N => r) _ 255%N Hc)) Hfar).
Defined.

Lemma put_fresh_appends_witness :
  len [(1%N, 10%N)] < 5 /\ ~ In 2%N (keys [(1%N, 10%N)]) /\
  ~ In 2%N (keys [(1%N, 4)]) /\
  put (fun r : N => r) 2%N 20%N (mk [(1%N, 10%N)] 5 3 [(1%N, 4)])
  = (Ok tt, mk [(1%N, 10%N); (2%N, 20%N)] 5 3 [(1%N, 4); (2%N, 1)]).
Proof.
  assert (Hroom : len [(1%N, 10%N)] < 5) by (vm_compute; reflexivity).
  assert (Hc : ~ In 2%N (keys [(1%N, 10%N)])) by (simpl; intuition discriminate).
  assert (Ha : ~ In 2%N (keys [(1%N, 4)])) by (simpl; intuition discriminate).
  split; [exact Hroom|]. split; [exact Hc|]. split; [exact Ha|].
  exact (put_fresh_appends (fun r : N => r) (mk [(1%N, 10%N)] 5 3 [(1%N, 4)])
           2%N 20%N Hroom Hc Ha).
Defined.

Lemma lookup_within_threshold_witness :
  1 <= 100 /\ hash_sub 3%N 1%N <= 3 /\ 3 < hash_sub 255%N 1%N /\
  get (fun r : N => r) 3%N (after (fun r : N => r) (Put 1%N 10%N) (init 100 3))
  = (Ok (Some 10%N), mk [(1%N, 10%N)] 100 3 [(1%N, 2)]) /\
  get (fun r : N => r) 255%N (after (fun r : N => r) (Put 1%N 10%N) (init 100 3))
  = (Ok None, after (fun r : N => r) (Put 1%N 10%N) (init 100 3)).
Proof.
  assert (HC : 1 <= 100) by lia.
  assert (Hnear : hash_sub 3%N 1%N <= 3) by (vm_compute; discriminate).
  assert (Hfar : 3 < hash_sub 255%N 1%N) by (vm_compute; reflexivity).
  split; [exact HC|]. split; [exact Hnear|]. split; [exact Hfar|]. split.
  - exact (proj1 (lookup_within_threshold (fun r : N => r) 100 3 1%N 3%N 10%N HC)
             Hnear).
  - exact (proj2 (lookup_within_threshold (fun r : N => r) 100 3 1%N 255%N 10%N HC)
             Hfar).
Defined.

Lemma access_count_counts_hits_witness :
  1 <= 100 /\ 0 <= 3 /\
  after_all (fun r : N => r) (Put 1%N 10%N :: repeat (Get 1%N) 3) (init 100 3)
  = mk [(1%N, 10%N)] 100 3 [(1%N, 1 + Z.of_nat 3)].
Proof.
  assert (HC : 1 <= 100) by lia.
  assert (HT : 0 <= 3) by lia.
  split; [exact HC|]. split; [exact HT|].
  exact (access_count_counts_hits (fun r : N => r) 100 3 1%N 10%N 3 HC HT).
Defined.

End FrameCacheMoreWitnesses.

(** ** The skip detector: what a decision touches *)

Module FrameSkipDetectorMore.
Import FrameSkipDetector FrameSkipDetectorFacts.

(** X9.  [should_process_frame] only reads the detector: whatever it
    returns or raises, the interval, the threshold and the stored reference
    are as before.  The one exception it raises by itself is the
    [ZeroDivisionError] of a keyframe interval 0, on every frame. *)
Theorem should_process_frame_reads_only {Roi : Type}
    (gray_mse : Roi -> Roi -> result spec_float)
    (s : t Roi) (roi : option Roi) (frame_index : Z) :
  snd (should_process_frame gray_mse frame_index roi s) = s /\
  (keyframe_interval s = 0 ->
   fst (should_process_frame gray_mse frame_index roi s) = Raise ZeroDivisionError) /\
  (keyframe_interval s <> 0 ->
   (forall p r, prev_roi s = Some p -> roi = Some r ->
                exists d, gray_mse r p = Ok d) ->
   exists b, fst (should_process_frame gray_mse frame_index roi s) = Ok b).
Proof.
  split; [apply should_process_frame_state|]. split.
  - intros HK. destruct s as [K S prev]. simpl in HK. subst K. reflexivity.
  - intros HK Hmse. destruct s as [K S prev]. simpl in *.
    unfold should_process_frame, bind, gets, lift, ret, py_mod. simpl.
    destruct (Z.eqb_spec K 0); [contradiction|]. simpl.
    destruct (frame_index mod K =? 0); simpl; [eauto|].
    destruct prev as [p|]; simpl; [|eauto].
    destruct roi as [r|]; simpl.
    + destruct (Hmse p r eq_refl eq_refl) as [d ->]. simpl.
      destruct (Float64.gtb d S); simpl; eauto.
    + destruct (Float64.gtb Float64.inf S); simpl; eauto.
Qed.

Lemma should_process_frame_reads_only_witness :
  keyframe_interval (mk 5 (Float64.of_int 50) (Some tt)) <> 0 /\
  (forall p r : unit, Some tt = Some p -> Some tt = Some r ->
     exists d, (fun _ _ : unit => Ok (Float64.of_int 0)) r p = Ok d) /\
  exists b,
    fst (should_process_frame (fun _ _ : unit => Ok (Float64.of_int 0))
           7 (Some tt) (mk 5 (Float64.of_int 50) (Some tt))) = Ok b.
Proof.
  assert (HK : keyframe_interval (mk 5 (Float64.of_int 50) (Some tt)) <> 0)
    by (simpl; lia).
  assert (Hm : forall p r : unit, Some tt = Some p -> Some tt = Some r ->
             exists d, (fun _ _ : unit => Ok (Float64.of_int 0)) r p = Ok d)
    by (intros; eexists; reflexivity).
  split; [exact HK|]. split; [exact Hm|].
  exact (proj2 (proj2 (should_process_frame_reads_only
                         (fun _ _ : unit => Ok (Float64.of_int 0))
                         (mk 5 (Float64.of_int 50) (Some tt)) (Some tt) 7))
           HK Hm).
Defined.

End FrameSkipDetectorMore.

(** ** The watermark detector: bounding boxes *)

Module BoundingBoxFacts.
Import NpFacts WatermarkDetector.

Lemma In_combine_seq {A} (l : list A) (start i : nat) (x : A) :
  In (i, x) (combine (seq start (length l)) l) <->
  (start <= i)%nat /\ nth_error l (i - start) = Some x.
Proof.
  revert start. induction l as [|y l IH]; intros start; simpl.
  - split; [tauto|]. intros [_ H]. destruct (i - start)%nat; discriminate.
  - rewrite IH. split.
    + intros [E|[Hle Hn]].
      * injection E as <- <-. split; [lia|]. now rewrite Nat.sub_diag.
      * split; [lia|]. replace (i - start)%nat with (S (i - S start)) by lia.
        exact Hn.
    + intros [Hle Hn]. destruct (Nat.eq_dec start i) as [<-|Hne].
      * left. rewrite Nat.sub_diag in Hn. simpl in Hn. congruence.
      * right. split; [lia|].
        replace (i - start)%nat with (S (i - S start)) in Hn by lia. exact Hn.
Qed.

Lemma In_positive_in_row (i i' j : nat) (r : list Z) :
  In (i', j) (Np.positive_in_row i r) <->
  i' = i /\ exists v, nth_error r j = Some v /\ 0 < v.
Proof.
  unfold Np.positive_in_row. rewrite in_map_iff. split.
  - intros ([j0 v] & E & Hin). simpl in E. injection E as <- <-.
    apply filter_In in Hin. destruct Hin as [Hin Hpos]. simpl in Hpos.
    apply In_combine_seq in Hin. destruct Hin as [_ Hn].
    rewrite Nat.sub_0_r in Hn. split; [reflexivity|].
    exists v. split; [exact Hn | lia].
  - intros [-> (v & Hn & Hpos)]. exists (j, v). split; [reflexivity|].
    apply filter_In. split.
    + apply In_combine_seq. rewrite Nat.sub_0_r. split; [lia | exact Hn].
    + simpl. now apply Z.ltb_lt.
Qed.

(** [np.where(a > 0)] lists the positive cells and nothing else. *)
Lemma In_where_positive (a : Np.ndarray Z) (i j : nat) :
  In (i, j) (Np.where_positive a) <-> Np.positive_at a i j.
Proof.
  unfold Np.where_positive, Np.positive_at. rewrite in_concat. split.
  - intros (l & Hl & Hin). apply in_map_iff in Hl.
    destruct Hl as ([i0 r] & <- & Hr). simpl in Hin.
    apply In_combine_seq in Hr. destruct Hr as [_ Hr].
    rewrite Nat.sub_0_r in Hr.
    apply In_positive_in_row in Hin. destruct Hin as [-> (v & Hv & Hpos)].
    exists r, v. auto.
  - intros (r & v & Hr & Hv & Hpos).
    exists (Np.positive_in_row i r). split.
    + apply in_map_iff. exists (i, r). split; [reflexivity|].
      apply In_combine_seq. rewrite Nat.sub_0_r. split; [lia | exact Hr].
    + apply In_positive_in_row. split; [reflexivity|]. eauto.
Qed.

Lemma minimum_spec (x : Z) (xs : list Z) :
  In (minimum x xs) (x :: xs) /\ forall y, In y (x :: xs) -> minimum x xs <= y.
Proof.
  unfold minimum. revert x. induction xs as [|z xs IH]; intros x; simpl.
  - split; [now left|]. intros y [<-|[]]. lia.
  - destruct (IH (Z.min x z)) as [Hin Hle]. split.
    + destruct Hin as [E|Hin]; [|now right; right].
      rewrite <- E. destruct (Z.min_spec x z) as [[_ ->]|[_ ->]]; tauto.
    + intros y [<-|[<-|Hy]].
      * specialize (Hle (Z.min x z) (or_introl eq_refl)). lia.
      * specialize (Hle (Z.min x z) (or_introl eq_refl)). lia.
      * apply Hle. now right.
Qed.

Lemma maximum_spec (x : Z) (xs : list Z) :
  In (maximum x xs) (x :: xs) /\ forall y, In y (x :: xs) -> y <= maximum x xs.
Proof.
  unfold maximum. revert x. induction xs as [|z xs IH]; intros x; simpl.
  - split; [now left|]. intros y [<-|[]]. lia.
  - destruct (IH (Z.max x z)) as [Hin Hle]. split.
    + destruct Hin as [E|Hin]; [|now right; right].
      rewrite <- E. destruct (Z.max_spec x z) as [[_ ->]|[_ ->]]; tauto.
    + intros y [<-|[<-|Hy]].
      * specialize (Hle (Z.max x z) (or_introl eq_refl)). lia.
      * specialize (Hle (Z.max x z) (or_introl eq_refl)). lia.
      * apply Hle. now right.
Qed.

(** The coordinates returned, in terms of the rows and columns that hold a
    positive cell. *)
Lemma get_roi_coordinates_ok (watermark_mask : Np.ndarray Z) (margin : Z)
    (y_min y_max x_min x_max : Z) :
  get_roi_coordinates watermark_mask margin = Ok (y_min, y_max, x_min, x_max) ->
  exists lo_y hi_y lo_x hi_x : nat,
    y_min = Z.max 0 (Z.of_nat lo_y - margin) /\
    y_max = Z.min (Z.of_nat (Np.rows watermark_mask)) (Z.of_nat hi_y + margin) /\
    x_min = Z.max 0 (Z.of_nat lo_x - margin) /\
    x_max = Z.min (Z.of_nat (Np.cols watermark_mask)) (Z.of_nat hi_x + margin) /\
    (exists j, Np.positive_at watermark_mask lo_y j) /\
    (exists j, Np.positive_at watermark_mask hi_y j) /\
    (exists i, Np.positive_at watermark_mask i lo_x) /\
    (exists i, Np.positive_at watermark_mask i hi_x) /\
    (forall i j, Np.positive_at watermark_mask i j ->
                 (lo_y <= i <= hi_y)%nat /\ (lo_x <= j <= hi_x)%nat).
Proof.
  unfold get_roi_coordinates.
  set (found := Np.where_positive watermark_mask).
  assert (Hfound : forall i j, In (i, j) found <-> Np.positive_at watermark_mask i j)
    by (intros; apply In_where_positive).
  destruct found as [|[i0 j0] rest] eqn:Ef; [discriminate|].
  cbn [List.map fst snd]. intros E. injection E as <- <- <- <-.
  set (ys := List.map (fun p : nat * nat => Z.of_nat (fst p)) rest).
  set (xs := List.map (fun p : nat * nat => Z.of_nat (snd p)) rest).
  destruct (minimum_spec (Z.of_nat i0) ys) as [Hmy Hmy'].
  destruct (maximum_spec (Z.of_nat i0) ys) as [HMy HMy'].
  destruct (minimum_spec (Z.of_nat j0) xs) as [Hmx Hmx'].
  destruct (maximum_spec (Z.of_nat j0) xs) as [HMx HMx'].
  assert (Hys : forall z, In z (Z.of_nat i0 :: ys) ->
                exists i j, z = Z.of_nat i /\ In (i, j) ((i0, j0) :: rest)).
  { intros z [<-|Hz]; [exists i0, j0; split; [reflexivity | now left]|].
    apply in_map_iff in Hz. destruct Hz as ([i j] & <- & Hin).
    exists i, j. split; [reflexivity | now right]. }
  assert (Hxs : forall z, In z (Z.of_nat j0 :: xs) ->
                exists i j, z = Z.of_nat j /\ In (i, j) ((i0, j0) :: rest)).
  { intros z [<-|Hz]; [exists i0, j0; split; [reflexivity | now left]|].
    apply in_map_iff in Hz. destruct Hz as ([i j] & <- & Hin).
    exists i, j. split; [reflexivity | now right]. }
  destruct (Hys _ Hmy) as (lo_y & jy & Ely & Hly).
  destruct (Hys _ HMy) as (hi_y & jY & Ehy & Hhy).
  destruct (Hxs _ Hmx) as (ix & lo_x & Elx & Hlx).
  destruct (Hxs _ HMx) as (iX & hi_x & Ehx & Hhx).
  exists lo_y, hi_y, lo_x, hi_x.
  rewrite <- Ely, <- Ehy, <- Elx, <- Ehx.
  repeat (split; [reflexivity|]).
  split; [exists jy; now apply Hfound|].
  split; [exists jY; now apply Hfound|].
  split; [exists ix; now apply Hfound|].
  split; [exists iX; now apply Hfound|].
  intros i j Hpos. apply Hfound in Hpos.
  assert (Hiy : In (Z.of_nat i) (Z.of_nat i0 :: ys)).
  { destruct Hpos as [E|Hin]; [injection E as -> ->; now left|].
    right. apply in_map_iff. exists (i, j). auto. }
  assert (Hjx : In (Z.of_nat j) (Z.of_nat j0 :: xs)).
  { destruct Hpos as [E|Hin]; [injection E as -> ->; now left|].
    right. apply in_map_iff. exists (i, j). auto. }
  pose proof (Hmy' _ Hiy). pose proof (HMy' _ Hiy).
  pose proof (Hmx' _ Hjx). pose proof (HMx' _ Hjx). lia.
Qed.

Lemma in_shape_of_positive (a : Np.ndarray Z) (i j : nat) :
  Np.well_shaped a -> Np.positive_at a i j ->
  (i < Np.rows a)%nat /\ (j < Np.cols a)%nat.
Proof.
  intros [Hr Hc] (r & v & Hi & Hj & _).
  assert (Hlen : length r = Np.cols a).
  { rewrite Forall_forall in Hc. apply Hc. eapply nth_error_In; eauto. }
  split.
  - rewrite <- Hr. apply nth_error_Some. congruence.
  - rewrite <- Hlen. apply nth_error_Some. congruence.
Qed.

Lemma box_within_mask
    (watermark_mask : Np.ndarray Z) (margin y_min y_max x_min x_max : Z) :
  Np.well_shaped watermark_mask -> 0 <= margin ->
  get_roi_coordinates watermark_mask margin = Ok (y_min, y_max, x_min, x_max) ->
  0 <= y_min <= y_max /\ y_max <= Z.of_nat (Np.rows watermark_mask) /\
  0 <= x_min <= x_max /\ x_max <= Z.of_nat (Np.cols watermark_mask).
Proof.
  intros Hwf Hm E.
  destruct (get_roi_coordinates_ok _ _ _ _ _ _ E)
    as (lo_y & hi_y & lo_x & hi_x & -> & -> & -> & -> &
        [j1 H1] & [j2 H2] & [i3 H3] & [i4 H4] & Hall).
  pose proof (in_shape_of_positive _ _ _ Hwf H1) as [? _].
  pose proof (in_shape_of_positive _ _ _ Hwf H2) as [? _].
  pose proof (in_shape_of_positive _ _ _ Hwf H3) as [_ ?].
  pose proof (in_shape_of_positive _ _ _ Hwf H4) as [_ ?].
  pose proof (Hall _ _ H1) as [? _]. pose proof (Hall _ _ H3) as [_ ?].
  lia.
Qed.

End BoundingBoxFacts.

Module BoundingBox.
Import NpFacts WatermarkDetector BoundingBoxFacts.

(** X10.  [get_roi_coordinates] raises its "no watermark" error exactly for
    the masks without a positive cell; for every other mask it returns
    coordinates, whatever the margin. *)
Theorem bounding_box_fails_only_without_foreground
    (watermark_mask : Np.ndarray Z) (margin : Z) :
  (get_roi_coordinates watermark_mask margin = Raise no_watermark <->
   forall i j, ~ Np.positive_at watermark_mask i j) /\
  ((exists i j, Np.positive_at watermark_mask i j) ->
   exists c, get_roi_coordinates watermark_mask margin = Ok c).
Proof.
  assert (Hfound : forall i j, In (i, j) (Np.where_positive watermark_mask)
                               <-> Np.positive_at watermark_mask i j)
    by (intros; apply In_where_positive).
  unfold get_roi_coordinates.
  destruct (Np.where_positive watermark_mask) as [|[i0 j0] rest].
  - split.
    + split; [|reflexivity]. intros _ i j H. now apply Hfound in H.
    + intros (i & j & H). now apply Hfound in H.
  - cbn [List.map fst snd]. split.
    + split; [discriminate|]. intros H. exfalso.
      apply (H i0 j0). apply Hfound. now left.
    + intros _. eexists. reflexivity.
Qed.

(** X11.  For a margin that is not negative the coordinates returned lie
    within the mask and are ordered:
    [0 <= y_min <= y_max <= rows] and [0 <= x_min <= x_max <= cols]. *)
Theorem bounding_box_within_mask
    (watermark_mask : Np.ndarray Z) (margin y_min y_max x_min x_max : Z) :
  Np.well_shaped watermark_mask -> 0 <= margin ->
  get_roi_coordinates watermark_mask margin = Ok (y_min, y_max, x_min, x_max) ->
  0 <= y_min <= y_max /\ y_max <= Z.of_nat (Np.rows watermark_mask) /\
  0 <= x_min <= x_max /\ x_max <= Z.of_nat (Np.cols watermark_mask).
Proof. apply box_within_mask. Qed.

(** X12.  With a margin of at least 1 the half-open box
    [y_min <= i < y_max], [x_min <= j < x_max] holds every positive cell of
    the mask. *)
Theorem bounding_box_holds_foreground
    (watermark_mask : Np.ndarray Z) (margin y_min y_max x_min x_max : Z)
    (i j : nat) :
  Np.well_shaped watermark_mask -> 1 <= margin ->
  get_roi_coordinates watermark_mask margin = Ok (y_min, y_max, x_min, x_max) ->
  Np.positive_at watermark_mask i j ->
  y_min <= Z.of_nat i < y_max /\ x_min <= Z.of_nat j < x_max.
Proof.
  intros Hwf Hm E Hpos.
  destruct (get_roi_coordinates_ok _ _ _ _ _ _ E)
    as (lo_y & hi_y & lo_x & hi_x & -> & -> & -> & -> & _ & _ & _ & _ & Hall).
  pose proof (in_shape_of_positive _ _ _ Hwf Hpos) as [? ?].
  pose proof (Hall _ _ Hpos) as [? ?].
  lia.
Qed.

(** X13.  With the margin 0 the box is one row and one column short: the
    last row and the last column that hold a positive cell are [y_max] and
    [x_max] themselves, which the slices [y_min:y_max] and [x_min:x_max]
    leave out. *)
Theorem bounding_box_margin_zero_drops_last
    (watermark_mask : Np.ndarray Z) (y_min y_max x_min x_max : Z) :
  Np.well_shaped watermark_mask ->
  get_roi_coordinates watermark_mask 0 = Ok (y_min, y_max, x_min, x_max) ->
  (exists i j, Np.positive_at watermark_mask i j /\ Z.of_nat i = y_max) /\
  (exists i j, Np.positive_at watermark_mask i j /\ Z.of_nat j = x_max).
Proof.
  intros Hwf E.
  destruct (get_roi_coordinates_ok _ _ _ _ _ _ E)
    as (lo_y & hi_y & lo_x & hi_x & _ & -> & _ & -> &
        _ & [j2 H2] & _ & [i4 H4] & _).
  pose proof (in_shape_of_positive _ _ _ Hwf H2) as [? _].
  pose proof (in_shape_of_positive _ _ _ Hwf H4) as [_ ?].
  split.
  - exists hi_y, j2. split; [exact H2 | lia].
  - exists i4, hi_x. split; [exact H4 | lia].
Qed.

(** X14.  Cropping the mask with the coordinates of its own bounding box
    (margin not negative) gives an array of [y_max - y_min] rows and
    [x_max - x_min] columns whose cell [(i, j)] is the cell
    [(y_min + i, x_min + j)] of the mask. *)
Theorem extract_roi_mask_of_bounding_box
    (watermark_mask : Np.ndarray Z) (margin y_min y_max x_min x_max : Z)
    (i j : nat) :
  Np.well_shaped watermark_mask -> 0 <= margin ->
  get_roi_coordinates watermark_mask margin = Ok (y_min, y_max, x_min, x_max) ->
  Z.of_nat (Np.rows (extract_roi_mask watermark_mask (y_min, y_max, x_min, x_max)))
  = y_max - y_min /\
  Z.of_nat (Np.cols (extract_roi_mask watermark_mask (y_min, y_max, x_min, x_max)))
  = x_max - x_min /\
  Np.well_shaped (extract_roi_mask watermark_mask (y_min, y_max, x_min, x_max)) /\
  (Z.of_nat i < y_max - y_min -> Z.of_nat j < x_max - x_min ->
   Np.item 0 (extract_roi_mask watermark_mask (y_min, y_max, x_min, x_max)) i j
   = Np.item 0 watermark_mask (Z.to_nat y_min + i) (Z.to_nat x_min + j)).
Proof.
  intros Hwf Hm E.
  destruct (box_within_mask _ _ _ _ _ _ Hwf Hm E)
    as (Hy & Hy' & Hx & Hx').
  unfold extract_roi_mask.
  assert (Cy0 : Np.clip (Np.rows watermark_mask) y_min = Z.to_nat y_min)
    by (rewrite clip_nonneg; lia).
  assert (Cy1 : Np.clip (Np.rows watermark_mask) y_max = Z.to_nat y_max)
    by (rewrite clip_nonneg; lia).
  assert (Cx0 : Np.clip (Np.cols watermark_mask) x_min = Z.to_nat x_min)
    by (rewrite clip_nonneg; lia).
  assert (Cx1 : Np.clip (Np.cols watermark_mask) x_max = Z.to_nat x_max)
    by (rewrite clip_nonneg; lia).
  split; [simpl; rewrite Cy0, Cy1; lia|].
  split; [simpl; rewrite Cx0, Cx1; lia|].
  split; [now apply getslice_well_shaped|].
  intros Hi Hj. rewrite item_getslice by (rewrite ?Cy0, ?Cy1, ?Cx0, ?Cx1; lia).
  now rewrite Cy0, Cx0.
Qed.

End BoundingBox.

Module BoundingBoxWitnesses.
Import WatermarkDetector BoundingBox.

(** A 3 x 4 mask with one foreground cell, in row 1 and column 2. *)
Lemma one_cell_positive :
  Np.positive_at (Np.mk 3 4 [[0; 0; 0; 0]; [0; 0; 255; 0]; [0; 0; 0; 0]]) 1 2.
Proof. exists [0; 0; 255; 0], 255. repeat split. Defined.

Lemma one_cell_well_shaped :
  Np.well_shaped (Np.mk 3 4 [[0; 0; 0; 0]; [0; 0; 255; 0]; [0; 0; 0; 0]]).
Proof. split; simpl; [reflexivity | repeat constructor]. Defined.

Lemma bounding_box_fails_only_without_foreground_witness :
  (exists i j,
      Np.positive_at (Np.mk 3 4 [[0; 0; 0; 0]; [0; 0; 255; 0]; [0; 0; 0; 0]]) i j) /\
  exists c,
    get_roi_coordinates (Np.mk 3 4 [[0; 0; 0; 0]; [0; 0; 255; 0]; [0; 0; 0; 0]]) 50
    = Ok c.
Proof.
  assert (H : exists i j,
             Np.positive_at
               (Np.mk 3 4 [[0; 0; 0; 0]; [0; 0; 255; 0]; [0; 0; 0; 0]]) i j)
    by (exists 1%nat, 2%nat; exact one_cell_positive).
  split; [exact H|].
  exact (proj2 (bounding_box_fails_only_without_foreground _ 50) H).
Defined.

Lemma bounding_box_within_mask_witness :
  Np.well_shaped (Np.mk 3 4 [[0; 0; 0; 0]; [0; 0; 255; 0]; [0; 0; 0; 0]]) /\
  0 <= 50 /\
  get_roi_coordinates (Np.mk 3 4 [[0; 0; 0; 0]; [0; 0; 255; 0]; [0; 0; 0; 0]]) 50
  = Ok (0, 3, 0, 4) /\
  0 <= 0 <= 3 /\ 3 <= Z.of_nat 3 /\ 0 <= 0 <= 4 /\ 4 <= Z.of_nat 4.
Proof.
  assert (Hm : 0 <= 50) by lia.
  assert (E : get_roi_coordinates
                (Np.mk 3 4 [[0; 0; 0; 0]; [0; 0; 255; 0]; [0; 0; 0; 0]]) 50
              = Ok (0, 3, 0, 4)) by reflexivity.
  split; [exact one_cell_well_shaped|]. split; [exact Hm|]. split; [exact E|].
  exact (bounding_box_within_mask _ 50 0 3 0 4 one_cell_well_shaped Hm E).
Defined.

Lemma bounding_box_holds_foreground_witness :
  1 <= 1 /\
  get_roi_coordinates (Np.mk 3 4 [[0; 0; 0; 0]; [0; 0; 255; 0]; [0; 0; 0; 0]]) 1
  = Ok (0, 2, 1, 3) /\
  0 <= Z.of_nat 1 < 2 /\ 1 <= Z.of_nat 2 < 3.
Proof.
  assert (Hm : 1 <= 1) by lia.
  assert (E : get_roi_coordinates
                (Np.mk 3 4 [[0; 0; 0; 0]; [0; 0; 255; 0]; [0; 0; 0; 0]]) 1
              = Ok (0, 2, 1, 3)) by reflexivity.
  split; [exact Hm|]. split; [exact E|].
  exact (bounding_box_holds_foreground _ 1 0 2 1 3 1 2
           one_cell_well_shaped Hm E one_cell_positive).
Defined.

Lemma bounding_box_margin_zero_drops_last_witness :
  get_roi_coordinates (Np.mk 3 4 [[0; 0; 0; 0]; [0; 0; 255; 0]; [0; 0; 0; 0]]) 0
  = Ok (1, 1, 2, 2) /\
  (exists i j,
      Np.positive_at (Np.mk 3 4 [[0; 0; 0; 0]; [0; 0; 255; 0]; [0; 0; 0; 0]]) i j /\
      Z.of_nat i = 1).
Proof.
  assert (E : get_roi_coordinates
                (Np.mk 3 4 [[0; 0; 0; 0]; [0; 0; 255; 0]; [0; 0; 0; 0]]) 0
              = Ok (1, 1, 2, 2)) by reflexivity.
  split; [exact E|].
  exact (proj1 (bounding_box_margin_zero_drops_last _ 1 1 2 2
                  one_cell_well_shaped E)).
Defined.

Lemma extract_roi_mask_of_bounding_box_witness :
  0 <= 1 /\ Z.of_nat 1 < 2 - 0 /\ Z.of_nat 1 < 3 - 1 /\
  Np.item 0 (extract_roi_mask
               (Np.mk 3 4 [[0; 0; 0; 0]; [0; 0; 255; 0]; [0; 0; 0; 0]])
               (0, 2, 1, 3)) 1 1
  = Np.item 0 (Np.mk 3 4 [[0; 0; 0; 0]; [0; 0; 255; 0]; [0; 0; 0; 0]])
      (Z.to_nat 0 + 1) (Z.to_nat 1 + 1).
Proof.
  assert (Hm : 0 <= 1) by lia.
  assert (E : get_roi_coordinates
                (Np.mk 3 4 [[0; 0; 0; 0]; [0; 0; 255; 0]; [0; 0; 0; 0]]) 1
              = Ok (0, 2, 1, 3)) by reflexivity.
  assert (Hi : Z.of_nat 1 < 2 - 0) by (simpl; lia).
  assert (Hj : Z.of_nat 1 < 3 - 1) by (simpl; lia).
  split; [exact Hm|]. split; [exact Hi|]. split; [exact Hj|].
  exact (proj2 (proj2 (proj2
           (extract_roi_mask_of_bounding_box _ 1 0 2 1 3 1 1
              one_cell_well_shaped Hm E))) Hi Hj).
Defined.

End BoundingBoxWitnesses.

(** ** The watermark detector: the masks it builds *)

Module MaskFacts.
Import NpFacts WatermarkDetector WatermarkDetectorFacts.

Lemma zeros_like_well_shaped {A} (a : Np.ndarray A) :
  Np.well_shaped (Np.zeros_like a).
Proof.
  split; simpl.
  - apply repeat_length.
  - apply Forall_forall. intros r Hr. apply repeat_spec in Hr. subst r.
    apply repeat_length.
Qed.

Lemma dilate_once_well_shaped (k : nat) (a : Np.ndarray Z) :
  Np.well_shaped (dilate_once k a).
Proof.
  split; simpl.
  - now rewrite length_map, length_seq.
  - apply Forall_map. apply Forall_forall. intros i _.
    now rewrite length_map, length_seq.
Qed.

Lemma fold_max_ge_init (l : list Z) (x : Z) : x <= fold_left Z.max l x.
Proof.
  revert x. induction l as [|v l IH]; intros x; simpl; [lia|].
  specialize (IH (Z.max x v)). lia.
Qed.

Lemma fold_max_ge_In (l : list Z) (x v : Z) :
  In v l -> v <= fold_left Z.max l x.
Proof.
  revert x. induction l as [|u l IH]; intros x; simpl; [tauto|].
  intros [->|Hin].
  - pose proof (fold_max_ge_init l (Z.max x v)). lia.
  - now apply IH.
Qed.

Lemma fold_max_binary (l : list Z) (x : Z) :
  (x = 0 \/ x = 255) -> Forall (fun v => v = 0 \/ v = 255) l ->
  fold_left Z.max l x = 0 \/ fold_left Z.max l x = 255.
Proof.
  revert x. induction l as [|v l IH]; intros x Hx H; simpl; [exact Hx|].
  inversion H as [|? ? Hv Hl]; subst. apply IH; [lia | exact Hl].
Qed.

Lemma dilate_at_binary (k : nat) (a : Np.ndarray Z) (i j : Z) :
  (forall i j, Np.item 0 a i j = 0 \/ Np.item 0 a i j = 255) ->
  dilate_at k a i j = 0 \/ dilate_at k a i j = 255.
Proof.
  intros H. unfold dilate_at. apply fold_max_binary; [now left|].
  apply Forall_forall. intros v Hv. apply in_flat_map in Hv.
  destruct Hv as (y & _ & Hv). apply in_map_iff in Hv.
  destruct Hv as (x & <- & _). unfold cell. destruct (_ && _); [apply H | now left].
Qed.

Lemma dilate_once_binary (k : nat) (a : Np.ndarray Z) :
  (forall i j, Np.item 0 a i j = 0 \/ Np.item 0 a i j = 255) ->
  forall i j, Np.item 0 (dilate_once k a) i j = 0
              \/ Np.item 0 (dilate_once k a) i j = 255.
Proof.
  intros H i j. rewrite item_dilate_once.
  destruct (_ && _); [now apply dilate_at_binary | now left].
Qed.

Lemma threshold_votes_binary (min_count : Z) (votes : Np.ndarray Z) (i j : nat) :
  Np.item 0 (threshold_votes min_count votes) i j = 0 \/
  Np.item 0 (threshold_votes min_count votes) i j = 255.
Proof.
  unfold threshold_votes. rewrite item_map.
  destruct (nth_error _ j) as [v|]; [|now left].
  destruct (min_count <=? v); [now right | now left].
Qed.

(** A dilation with a kernel of at least one cell does not lose a cell. *)
Lemma dilate_once_extensive (k : nat) (a : Np.ndarray Z) (i j : nat) :
  (1 <= k)%nat -> (i < Np.rows a)%nat -> (j < Np.cols a)%nat ->
  Np.item 0 a i j <= Np.item 0 (dilate_once k a) i j.
Proof.
  intros Hk Hi Hj. rewrite item_dilate_once.
  destruct (Nat.ltb_spec i (Np.rows a)); [|lia].
  destruct (Nat.ltb_spec j (Np.cols a)); [|lia]. simpl.
  unfold dilate_at. apply fold_max_ge_In.
  assert (Hw : forall c, In c (window k c)).
  { intros c. unfold window. apply in_map_iff. exists (k / 2)%nat.
    split; [lia|]. apply in_seq.
    pose proof (Nat.div_lt k 2 ltac:(lia) ltac:(lia)). lia. }
  apply in_flat_map. exists (Z.of_nat i). split; [apply Hw|].
  apply in_map_iff. exists (Z.of_nat j). split; [|apply Hw].
  unfold cell.
  destruct (Z.leb_spec 0 (Z.of_nat i)); [|lia].
  destruct (Z.ltb_spec (Z.of_nat i) (Z.of_nat (Np.rows a))); [|lia].
  destruct (Z.leb_spec 0 (Z.of_nat j)); [|lia].
  destruct (Z.ltb_spec (Z.of_nat j) (Z.of_nat (Np.cols a))); [|lia].
  simpl. now rewrite !Nat2Z.id.
Qed.

End MaskFacts.

Module Masks.
Import NpFacts WatermarkDetector WatermarkDetectorFacts MaskFacts.

Section WithOpenCV.
Variable otsu_binary : image -> result (Np.ndarray Z).
Variable selected : rect.

Local Abbreviation detect_watermark_in_frame :=
  (detect_watermark_in_frame otsu_binary).
Local Abbreviation generate_mask := (generate_mask otsu_binary selected).
Local Abbreviation count_votes := (count_votes otsu_binary).
Local Abbreviation with_roi := (with_roi selected).

(** X15.  The mask that [detect_watermark_in_frame] returns has the shape
    of the frame, is 0 in every cell outside the slice of the region
    [y:y+h, x:x+w], and inside it holds the binarised region. *)
Theorem detected_mask_is_zero_outside_roi
    (s : t) (frame : image) (x y w h : Z) (mask : Np.ndarray Z) :
  roi s = Some (x, y, w, h) ->
  Np.well_shaped frame ->
  (forall b, otsu_binary (Np.getslice frame y (y + h) x (x + w)) = Ok b ->
             Np.well_shaped b) ->
  detect_watermark_in_frame s frame = Ok mask ->
  Np.rows mask = Np.rows frame /\ Np.cols mask = Np.cols frame /\
  Np.well_shaped mask /\
  exists binary_frame,
    otsu_binary (Np.getslice frame y (y + h) x (x + w)) = Ok binary_frame /\
    forall i j : nat,
      (i < Np.rows frame)%nat -> (j < Np.cols frame)%nat ->
      (~ Np.in_slice frame y (y + h) x (x + w) i j -> Np.item 0 mask i j = 0) /\
      (Np.in_slice frame y (y + h) x (x + w) i j ->
       Np.item 0 mask i j =
       Np.bitem 0 binary_frame (i - Np.clip (Np.rows frame) y)
                               (j - Np.clip (Np.cols frame) x)).
Proof.
  intros Hroi Hf Hotsu. unfold WatermarkDetector.detect_watermark_in_frame.
  rewrite Hroi. unfold rbind.
  destruct (otsu_binary (Np.getslice frame y (y + h) x (x + w))) as [b|e] eqn:Eb;
    [|discriminate].
  intros E.
  destruct (setslice_spec _ _ _ _ _ _ _ E (zeros_like_well_shaped frame)
              (Hotsu b eq_refl)) as (Hr & Hc & Hwf & Hitem).
  simpl in Hr, Hc.
  split; [exact Hr|]. split; [exact Hc|]. split; [exact Hwf|].
  exists b. split; [reflexivity|].
  intros i j Hi Hj. specialize (Hitem 0 i j Hi Hj).
  change (Np.in_sliceb (Np.zeros_like frame) y (y + h) x (x + w) i j)
    with (Np.in_sliceb frame y (y + h) x (x + w) i j) in Hitem.
  simpl in Hitem. split.
  - intros Hout. rewrite Hitem.
    destruct (Np.in_sliceb frame y (y + h) x (x + w) i j) eqn:Hin.
    + apply in_sliceb_spec in Hin. contradiction.
    + apply item_zeros_like.
  - intros Hin. rewrite Hitem. apply in_sliceb_spec in Hin. now rewrite Hin.
Qed.

(** X16.  A detector that has a region is never asked to select one again:
    [generate_mask] leaves it exactly as it is, whether the call returns or
    raises, and the outcome is the same whatever [select_roi] would have
    returned. *)
Theorem detector_with_region_is_left_alone
    (selected' : rect) (s : t) (frame0 : image) (frames : list image) :
  roi s <> None ->
  snd (generate_mask frame0 frames s) = s /\
  generate_mask frame0 frames s =
  WatermarkDetector.generate_mask otsu_binary selected' frame0 frames s.
Proof.
  intros Hroi. rewrite !generate_mask_eq.
  destruct s as [n m k [r|]]; [|exfalso; apply Hroi; reflexivity].
  unfold WatermarkDetector.with_roi. simpl. split; reflexivity.
Qed.

Lemma iter_dilate_shape (k n : nat) (a : Np.ndarray Z) :
  Np.rows (Nat.iter n (dilate_once k) a) = Np.rows a /\
  Np.cols (Nat.iter n (dilate_once k) a) = Np.cols a.
Proof. induction n as [|n [IHr IHc]]; simpl; auto. Qed.

Lemma iter_dilate_binary (k n : nat) (a : Np.ndarray Z) :
  (forall i j, Np.item 0 a i j = 0 \/ Np.item 0 a i j = 255) ->
  forall i j, Np.item 0 (Nat.iter n (dilate_once k) a) i j = 0 \/
              Np.item 0 (Nat.iter n (dilate_once k) a) i j = 255.
Proof.
  intros H. induction n as [|n IH]; simpl; [exact H|].
  now apply dilate_once_binary.
Qed.

Lemma iter_dilate_extensive (k n : nat) (a : Np.ndarray Z) (i j : nat) :
  (1 <= k)%nat -> (i < Np.rows a)%nat -> (j < Np.cols a)%nat ->
  Np.item 0 a i j <= Np.item 0 (Nat.iter n (dilate_once k) a) i j.
Proof.
  intros Hk Hi Hj. induction n as [|n IH]; simpl; [lia|].
  destruct (iter_dilate_shape k n a) as [Er Ec].
  eapply Z.le_trans; [exact IH|].
  apply dilate_once_extensive; [exact Hk | now rewrite Er | now rewrite Ec].
Qed.

(** What a returned mask is made of. *)
Lemma generate_mask_ok (s : t) (frame0 : image) (frames : list image)
    (m : Np.ndarray Z) :
  fst (generate_mask frame0 frames s) = Ok m ->
  exists votes,
    count_votes (with_roi s) frame0 frames = Ok votes /\
    0 <= dilation_kernel_size s /\
    m = Nat.iter 2
          (dilate_once (if (Z.to_nat (dilation_kernel_size s) =? 0)%nat
                        then 3%nat else Z.to_nat (dilation_kernel_size s)))
          (threshold_votes (min_frame_count s) votes).
Proof.
  rewrite generate_mask_eq. simpl fst.
  destruct (count_votes (with_roi s) frame0 frames) as [votes|e]; [|discriminate].
  destruct (Z.ltb_spec (dilation_kernel_size s) 0); [discriminate|].
  unfold dilate. destruct (_ || _); [discriminate|].
  intros E. injection E as <-. exists votes. auto.
Qed.

(** X17.  A mask returned by [generate_mask] is a binary image: it has the
    shape of the vote counts, every row has the full width, and every cell
    is 0 or 255. *)
Theorem generated_mask_is_binary
    (s : t) (frame0 : image) (frames : list image) (m : Np.ndarray Z) :
  fst (generate_mask frame0 frames s) = Ok m ->
  Np.well_shaped m /\
  (exists votes,
      count_votes (with_roi s) frame0 frames = Ok votes /\
      Np.rows m = Np.rows votes /\ Np.cols m = Np.cols votes) /\
  forall i j, Np.item 0 m i j = 0 \/ Np.item 0 m i j = 255.
Proof.
  intros E. destruct (generate_mask_ok s frame0 frames m E) as (votes & Hv & _ & ->).
  split; [apply dilate_once_well_shaped|]. split.
  - exists votes. split; [exact Hv|].
    exact (iter_dilate_shape _ 2 (threshold_votes (min_frame_count s) votes)).
  - apply iter_dilate_binary. intros i j. apply threshold_votes_binary.
Qed.

(** X18.  The dilation only adds to the mask: every cell whose vote count
    reaches [min_frame_count] is foreground (255) in the mask returned. *)
Theorem voted_cells_survive_dilation
    (s : t) (frame0 : image) (frames : list image) (m votes : Np.ndarray Z)
    (i j : nat) (r : list Z) (v : Z) :
  fst (generate_mask frame0 frames s) = Ok m ->
  count_votes (with_roi s) frame0 frames = Ok votes ->
  (i < Np.rows votes)%nat -> (j < Np.cols votes)%nat ->
  nth_error (Np.data votes) i = Some r -> nth_error r j = Some v ->
  min_frame_count s <= v ->
  Np.item 0 m i j = 255.
Proof.
  intros E Hv Hi Hj Hr Hc Hmin.
  destruct (generate_mask_ok s frame0 frames m E) as (votes' & Hv' & _ & ->).
  rewrite Hv in Hv'. injection Hv' as <-.
  set (k := if (Z.to_nat (dilation_kernel_size s) =? 0)%nat
            then 3%nat else Z.to_nat (dilation_kernel_size s)).
  assert (Hk : (1 <= k)%nat).
  { unfold k. destruct (Nat.eqb_spec (Z.to_nat (dilation_kernel_size s)) 0); lia. }
  assert (Ht : Np.item 0 (threshold_votes (min_frame_count s) votes) i j = 255).
  { unfold threshold_votes. rewrite item_map.
    rewrite (nth_error_nth _ _ [] Hr), Hc.
    destruct (Z.leb_spec (min_frame_count s) v); [reflexivity | lia]. }
  pose proof (iter_dilate_extensive k 2
                (threshold_votes (min_frame_count s) votes) i j Hk Hi Hj) as Hle.
  destruct (iter_dilate_binary k 2 (threshold_votes (min_frame_count s) votes)
              (threshold_votes_binary (min_frame_count s) votes) i j) as [H0|H255].
  - rewrite Ht in Hle. lia.
  - exact H255.
Qed.

End WithOpenCV.
End Masks.

Module MasksWitnesses.
Import WatermarkDetector Masks Samples.

Lemma marked_strip_well_shaped : Np.well_shaped marked_strip.
Proof. split; simpl; [reflexivity | repeat constructor]. Defined.

(** The marked strip with the region of its first two cells. *)
Lemma detected_mask_is_zero_outside_roi_witness :
  Np.well_shaped marked_strip /\
  detect_watermark_in_frame otsu_black_white (default_detector (0, 0, 2, 1))
    marked_strip = Ok (Np.mk 1 5 [[255; 0; 0; 0; 0]]) /\
  Np.rows (Np.mk 1 5 [[255; 0; 0; 0; 0]]) = Np.rows marked_strip /\
  Np.cols (Np.mk 1 5 [[255; 0; 0; 0; 0]]) = Np.cols marked_strip.
Proof.
  assert (E : detect_watermark_in_frame otsu_black_white
                (default_detector (0, 0, 2, 1)) marked_strip
              = Ok (Np.mk 1 5 [[255; 0; 0; 0; 0]])) by (vm_compute; reflexivity).
  assert (Hb : forall b,
             otsu_black_white (Np.getslice marked_strip 0 (0 + 1) 0 (0 + 2)) = Ok b ->
             Np.well_shaped b).
  { intros b Eb. injection Eb as <-. split; simpl; [reflexivity | repeat constructor]. }
  split; [exact marked_strip_well_shaped|]. split; [exact E|].
  destruct (detected_mask_is_zero_outside_roi otsu_black_white
              (default_detector (0, 0, 2, 1)) marked_strip 0 0 2 1
              (Np.mk 1 5 [[255; 0; 0; 0; 0]]) eq_refl marked_strip_well_shaped Hb E)
    as (Hr & Hc & _).
  split; [exact Hr | exact Hc].
Defined.

(** Three strips, two of them marked at the left end; kernel size 3 and a
    threshold of 2 votes. *)
Lemma generated_mask_is_binary_witness :
  fst (generate_mask otsu_black_white (0, 0, 5, 1) marked_strip
         [marked_strip; plain_strip] (mk 3 2 3 (Some (0, 0, 5, 1))))
  = Ok (Np.mk 1 5 [[255; 255; 255; 0; 0]]) /\
  Np.well_shaped (Np.mk 1 5 [[255; 255; 255; 0; 0]]).
Proof.
  assert (E : fst (generate_mask otsu_black_white (0, 0, 5, 1) marked_strip
                     [marked_strip; plain_strip] (mk 3 2 3 (Some (0, 0, 5, 1))))
              = Ok (Np.mk 1 5 [[255; 255; 255; 0; 0]])) by (vm_compute; reflexivity).
  split; [exact E|].
  exact (proj1 (generated_mask_is_binary otsu_black_white (0, 0, 5, 1)
                  (mk 3 2 3 (Some (0, 0, 5, 1))) marked_strip
                  [marked_strip; plain_strip]
                  (Np.mk 1 5 [[255; 255; 255; 0; 0]]) E)).
Defined.

Lemma detector_with_region_is_left_alone_witness :
  roi (mk 3 2 3 (Some (0, 0, 5, 1))) <> None /\
  generate_mask otsu_black_white (0, 0, 5, 1) marked_strip
    [marked_strip; plain_strip] (mk 3 2 3 (Some (0, 0, 5, 1)))
  = generate_mask otsu_black_white (4, 0, 1, 1) marked_strip
      [marked_strip; plain_strip] (mk 3 2 3 (Some (0, 0, 5, 1))).
Proof.
  assert (H : roi (mk 3 2 3 (Some (0, 0, 5, 1))) <> None) by discriminate.
  split; [exact H|].
  exact (proj2 (detector_with_region_is_left_alone otsu_black_white (0, 0, 5, 1)
                  (4, 0, 1, 1) (mk 3 2 3 (Some (0, 0, 5, 1))) marked_strip
                  [marked_strip; plain_strip] H)).
Defined.

Lemma voted_cells_survive_dilation_witness :
  count_votes otsu_black_white
    (with_roi (0, 0, 5, 1) (mk 3 2 3 (Some (0, 0, 5, 1))))
    marked_strip [marked_strip; plain_strip]
  = Ok (Np.mk 1 5 [[2; 0; 0; 0; 0]]) /\
  2 <= 2 /\
  Np.item 0 (Np.mk 1 5 [[255; 255; 255; 0; 0]]) 0 0 = 255.
Proof.
  assert (E : fst (generate_mask otsu_black_white (0, 0, 5, 1) marked_strip
                     [marked_strip; plain_strip] (mk 3 2 3 (Some (0, 0, 5, 1))))
              = Ok (Np.mk 1 5 [[255; 255; 255; 0; 0]])) by (vm_compute; reflexivity).
  assert (Hv : count_votes otsu_black_white
                 (with_roi (0, 0, 5, 1) (mk 3 2 3 (Some (0, 0, 5, 1))))
                 marked_strip [marked_strip; plain_strip]
               = Ok (Np.mk 1 5 [[2; 0; 0; 0; 0]])) by (vm_compute; reflexivity).
  assert (Hmin : min_frame_count (mk 3 2 3 (Some (0, 0, 5, 1))) <= 2)
    by (simpl; lia).
  split; [exact Hv|]. split; [exact Hmin|].
  exact (voted_cells_survive_dilation otsu_black_white (0, 0, 5, 1)
           (mk 3 2 3 (Some (0, 0, 5, 1))) marked_strip
           [marked_strip; plain_strip]
           (Np.mk 1 5 [[255; 255; 255; 0; 0]]) (Np.mk 1 5 [[2; 0; 0; 0; 0]])
           0 0 [2; 0; 0; 0; 0] 2 E Hv
           ltac:(simpl; lia) ltac:(simpl; lia) eq_refl eq_refl Hmin).
Defined.

End MasksWitnesses.

(** ** The cache behind the processor: round trip on any content *)

Module FrameCacheRoundTrip.
Import DictFacts FrameCache FrameCacheFacts FrameCacheMore.

Section WithRegions.
Context {Roi Buf : Type}.
Variable compute_hash : Roi -> ImageHash.

Local Abbreviation put := (put compute_hash).
Local Abbreviation get := (get compute_hash).
Local Abbreviation after_all := (after_all compute_hash).
Local Abbreviation state := (FrameCache.t Buf).

(** A [put] that returns has stored the buffer under the hash of the
    region, whatever else the cache holds. *)
Lemma put_stores (s : state) (R : Roi) (P : Buf) :
  consistent s ->
  fst (put R P s) = Ok tt ->
  getitem hash_eq_dec (compute_hash R) (cache (snd (put R P s))) = Some P.
Proof.
  intros Hs. destruct (Z.lt_ge_cases (len (cache s)) (cache_size s)) as [Hroom|Hfull].
  - rewrite put_room by exact Hroom. simpl. intros _. apply getitem_setitem_eq.
  - destruct (min_key (access_count s)) as [victim|] eqn:Hmin.
    + rewrite (put_full compute_hash s R P victim Hs Hfull Hmin). simpl. intros _.
      apply getitem_setitem_eq.
    + rewrite put_empty_min by assumption. simpl. discriminate.
Qed.

(** With room for at least one entry [put] always has a victim to choose
    when the cache is full. *)
Lemma put_returns (s : state) (R : Roi) (P : Buf) :
  consistent s -> 1 <= cache_size s ->
  fst (put R P s) = Ok tt.
Proof.
  intros Hcons HC.
  destruct (Z.lt_ge_cases (len (cache s)) (cache_size s)) as [Hroom|Hfull].
  - rewrite put_room by exact Hroom. reflexivity.
  - destruct (min_key (access_count s)) as [victim|] eqn:Hmin.
    + rewrite (put_full compute_hash s R P victim Hcons Hfull Hmin). reflexivity.
    + exfalso. apply min_key_None in Hmin. destruct Hcons as [Hk _].
      rewrite Hmin in Hk. destruct (cache s); [|discriminate].
      unfold len in Hfull. simpl in Hfull. lia.
Qed.

(** The entry under the hash of the region is the nearest one, at
    distance 0, and within every threshold that is not negative. *)
Lemma get_stored (s : state) (R : Roi) (P : Buf) :
  consistent s -> 0 <= similarity_threshold s ->
  getitem hash_eq_dec (compute_hash R) (cache s) = Some P ->
  fst (get R s) = Ok (Some P).
Proof.
  intros Hs HT HP.
  pose proof (getitem_Some_In hash_eq_dec _ _ _ HP) as Hin.
  pose proof (proj2 (hash_sub_zero_iff (compute_hash R) (compute_hash R)) eq_refl)
    as H0.
  destruct (get_cases compute_hash s R Hs)
    as [[He _]|(l1 & bm & l2 & v & n & Hks & F1 & F2 & Hv & Hn & Hcase)].
  - rewrite He in Hin. contradiction.
  - assert (Hbm : hash_sub (compute_hash R) bm <= 0).
    { rewrite Hks in Hin. apply in_app_or in Hin. destruct Hin as [I|[E|I]].
      - rewrite Forall_forall in F1. specialize (F1 _ I). lia.
      - subst bm. lia.
      - rewrite Forall_forall in F2. specialize (F2 _ I). lia. }
    assert (Hz : hash_sub (compute_hash R) bm = 0).
    { pose proof (count_nonzero_nonneg (N.lxor (compute_hash R) bm)).
      unfold hash_sub in *. lia. }
    apply hash_sub_zero_iff in Hz. subst bm.
    rewrite HP in Hv. injection Hv as <-.
    destruct Hcase as [[_ E]|[Hfar _]].
    + rewrite E. reflexivity.
    + lia.
Qed.

(** X19.  The round trip holds on every cache, not only on an empty one:
    drive a cache of capacity at least 1 and a threshold that is not
    negative from empty by any calls; then [put R P] returns, and a [get R]
    right after it returns [P]. *)
Theorem put_then_get_on_any_cache
    (C T : Z) (cs : list (call Roi Buf)) (R : Roi) (P : Buf) :
  1 <= C -> 0 <= T ->
  let s := after_all cs (init C T) in
  fst (put R P s) = Ok tt /\
  fst (get R (snd (put R P s))) = Ok (Some P).
Proof.
  intros HC HT s.
  destruct (after_all_invariant compute_hash C T cs ltac:(lia))
    as (Hcons & Hsz & Hthr & Hlen).
  fold s in Hcons, Hsz, Hthr, Hlen.
  assert (Hput : fst (put R P s) = Ok tt) by (apply put_returns; [exact Hcons | lia]).
  split; [exact Hput|].
  destruct (put_frame compute_hash s R P Hcons) as (Hcons' & _ & Hthr').
  apply get_stored; [exact Hcons' | lia |].
  now apply put_stores.
Qed.

End WithRegions.
End FrameCacheRoundTrip.

Module FrameCacheRoundTripWitnesses.
Import FrameCache FrameCacheRoundTrip.

(** A cache that holds two other entries already. *)
Lemma put_then_get_on_any_cache_witness :
  1 <= 100 /\ 0 <= 3 /\
  fst (get (fun r : N => r) 4%N
         (snd (put (fun r : N => r) 4%N 40%N
                 (after_all (fun r : N => r) [Put 1%N 10%N; Put 2%N 20%N]
                    (init 100 3)))))
  = Ok (Some 40%N).
Proof.
  assert (HC : 1 <= 100) by lia.
  assert (HT : 0 <= 3) by lia.
  split; [exact HC|]. split; [exact HT|].
  exact (proj2 (put_then_get_on_any_cache (fun r : N => r) 100 3
                  [Put 1%N 10%N; Put 2%N 20%N] 4%N 40%N HC HT)).
Defined.

End FrameCacheRoundTripWitnesses.

(** ** The processor: skipped frames, cache hits and misses, the frame loop *)

Module WatermarkProcessorMore.
Import NpFacts WatermarkDetector WatermarkProcessor WatermarkProcessorFacts.

Lemma swap_channels_involutive (p : pixel) : swap_channels (swap_channels p) = p.
Proof. now destruct p as [[c0 c1] c2]. Qed.

Lemma uint8_in_range (v : Z) :
  0 <= v < 256 -> In v (List.map Z.of_nat (seq 0 256)).
Proof.
  intros H. replace v with (Z.of_nat (Z.to_nat v)) by lia.
  apply in_map. apply in_seq. lia.
Qed.

(** The two extreme weights on all pairs of [uint8] values, by evaluation. *)
Lemma blend_channel_sweep :
  forallb (fun p =>
    forallb (fun r =>
      (blend_channel (Float32.of_int 1) p r =? p) &&
      (blend_channel (S754_zero false) p r =? r))
      (List.map Z.of_nat (seq 0 256)))
    (List.map Z.of_nat (seq 0 256)) = true.
Proof. vm_compute. reflexivity. Qed.

(** X21.  The blend is exact at the two ends of the feather: for [uint8]
    values the weight 1 gives the regenerated value and the weight 0 the
    raw value, with no loss in the [float32] arithmetic or in the store. *)
Theorem blend_is_exact_at_extreme_weights (regenerated raw : Z) :
  0 <= regenerated < 256 -> 0 <= raw < 256 ->
  blend_channel (Float32.of_int 1) regenerated raw = regenerated /\
  blend_channel (S754_zero false) regenerated raw = raw.
Proof.
  intros Hp Hr. pose proof blend_channel_sweep as H.
  rewrite forallb_forall in H. specialize (H _ (uint8_in_range _ Hp)).
  rewrite forallb_forall in H. specialize (H _ (uint8_in_range _ Hr)).
  apply andb_true_iff in H. destruct H as [H1 H0].
  split; [now apply Z.eqb_eq in H1 | now apply Z.eqb_eq in H0].
Qed.

(** The frame that [composite] returns has the shape of the frame given. *)
Lemma composite_shape (frame_bgr : image) (coords : rect)
    (blend_mask : Np.ndarray spec_float) (processed : option image)
    (roi out : image) :
  composite frame_bgr coords blend_mask processed roi = Ok out ->
  Np.rows out = Np.rows frame_bgr /\ Np.cols out = Np.cols frame_bgr.
Proof.
  destruct coords as [[[y_min y_max] x_min] x_max]. unfold composite, rbind.
  destruct processed as [p|]; [|discriminate].
  destruct (Np.map2 scale blend_mask p); [|discriminate].
  destruct (Np.map2 scale (Np.map one_minus blend_mask) roi); [|discriminate].
  destruct (Np.map2 add_pixels _ _); [|discriminate].
  unfold Np.setslice. destruct (_ && _); [|discriminate].
  intros E. injection E as <-. split; reflexivity.
Qed.

Section WithServices.
Variable compute_hash : image -> FrameCache.ImageHash.
Variable gray_mse : image -> image -> result spec_float.
Variable model : image -> Np.ndarray Z -> result image.
Variable gaussian_blur : Np.ndarray Z -> result (Np.ndarray spec_float).

Local Abbreviation process_frame :=
  (process_frame compute_hash gray_mse model gaussian_blur).
Local Abbreviation process_frame_wrapper :=
  (process_frame_wrapper compute_hash gray_mse model gaussian_blur).
Local Abbreviation process_frames :=
  (process_frames compute_hash gray_mse model gaussian_blur).
Local Abbreviation should_process_frame :=
  (FrameSkipDetector.should_process_frame gray_mse).

(** X8.  A frame that is not classified must-process leaves the processor
    exactly as it was: the cache, the snapshot and the reference region of
    the skip detector are those of the last processed frame.  If the
    decision itself raises, [process_frame] raises the same exception. *)
Theorem skipped_frame_leaves_processor_unchanged
    (frame_bgr : image) (frame_index : Z) (s : t) :
  fst (should_process_frame frame_index (Some (extract_roi s frame_bgr))
         (skip_detector s)) <> Ok true ->
  snd (process_frame frame_bgr frame_index s) = s /\
  (forall e,
      fst (should_process_frame frame_index (Some (extract_roi s frame_bgr))
             (skip_detector s)) = Raise e ->
      fst (process_frame frame_bgr frame_index s) = Raise e).
Proof.
  intros Hno.
  unfold WatermarkProcessor.process_frame, bind, zoom, gets, lift. simpl.
  pose proof (FrameSkipDetectorFacts.should_process_frame_state gray_mse
                (skip_detector s) (Some (extract_roi s frame_bgr)) frame_index)
    as Hst.
  destruct (should_process_frame frame_index (Some (extract_roi s frame_bgr))
              (skip_detector s)) as [[b|e] d] eqn:Esp; simpl in Hst, Hno; subst d;
    rewrite set_skip_detector_same.
  - destruct b; [congruence|]. simpl.
    destruct (gaussian_blur (roi_mask s)) as [bm|e]; simpl;
      (split; [reflexivity | discriminate]).
  - simpl. split; [reflexivity|]. intros e' E. now injection E as ->.
Qed.

(** X20.  On a cache hit the inpainting model is not consulted: a
    must-process frame whose region the cache knows gives the same result
    and the same processor whatever the model is.  The snapshot is the
    cached buffer, the reference of the skip detector is the region of this
    frame, and the cache is as [get] left it. *)
Theorem cache_hit_needs_no_model
    (model' : image -> Np.ndarray Z -> result image)
    (frame_bgr : image) (frame_index : Z) (s : t) (p : image) :
  fst (should_process_frame frame_index (Some (extract_roi s frame_bgr))
         (skip_detector s)) = Ok true ->
  fst (FrameCache.get compute_hash (extract_roi s frame_bgr) (frame_cache s))
  = Ok (Some p) ->
  process_frame frame_bgr frame_index s =
  WatermarkProcessor.process_frame compute_hash gray_mse model' gaussian_blur
    frame_bgr frame_index s /\
  prev_processed_roi (snd (process_frame frame_bgr frame_index s)) = Some p /\
  FrameSkipDetector.prev_roi
    (skip_detector (snd (process_frame frame_bgr frame_index s)))
  = Some (extract_roi s frame_bgr) /\
  frame_cache (snd (process_frame frame_bgr frame_index s))
  = snd (FrameCache.get compute_hash (extract_roi s frame_bgr) (frame_cache s)).
Proof.
  intros Hyes Hhit.
  unfold WatermarkProcessor.process_frame, WatermarkProcessor.regenerate,
    bind, zoom, gets, lift, modify, ret. simpl.
  pose proof (FrameSkipDetectorFacts.should_process_frame_state gray_mse
                (skip_detector s) (Some (extract_roi s frame_bgr)) frame_index)
    as Hst.
  destruct (should_process_frame frame_index (Some (extract_roi s frame_bgr))
              (skip_detector s)) as [[b|e] d] eqn:Esp; simpl in Hst, Hyes; subst d;
    rewrite set_skip_detector_same; [|discriminate].
  injection Hyes as ->.
  destruct (FrameCache.get compute_hash (extract_roi s frame_bgr) (frame_cache s))
    as [[[q|]|e] c1]; simpl in Hhit; try discriminate.
  injection Hhit as ->. simpl.
  destruct (gaussian_blur (roi_mask s)) as [bm|e]; simpl; repeat split.
Qed.

(** X22.  A miss regenerates and stores.  For a must-process frame whose
    region the cache does not know, and a model that returns [inpainted]:
    the snapshot is [inpainted] with the first and third channel swapped,
    and (the cache being consistent, with room for an entry and a threshold
    that is not negative) the cache now answers a lookup of the same region
    with that buffer. *)
Theorem cache_miss_stores_regenerated
    (frame_bgr inpainted : image) (frame_index : Z) (s : t) :
  FrameCache.consistent (frame_cache s) ->
  1 <= FrameCache.cache_size (frame_cache s) ->
  0 <= FrameCache.similarity_threshold (frame_cache s) ->
  fst (should_process_frame frame_index (Some (extract_roi s frame_bgr))
         (skip_detector s)) = Ok true ->
  fst (FrameCache.get compute_hash (extract_roi s frame_bgr) (frame_cache s))
  = Ok None ->
  lama_inpaint model (extract_roi s frame_bgr) (roi_mask s) = Ok inpainted ->
  prev_processed_roi (snd (process_frame frame_bgr frame_index s))
  = Some (cvtColor_swap inpainted) /\
  fst (FrameCache.get compute_hash (extract_roi s frame_bgr)
         (frame_cache (snd (process_frame frame_bgr frame_index s))))
  = Ok (Some (cvtColor_swap inpainted)).
Proof.
  intros Hcons HC HT Hyes Hmiss Hmodel.
  set (roi := extract_roi s frame_bgr) in *.
  pose proof (FrameCacheFacts.get_consistent compute_hash (frame_cache s) roi Hcons)
    as Hcons1.
  destruct (FrameCacheFacts.get_frame compute_hash (frame_cache s) roi)
    as (_ & _ & Hsz1 & Hthr1).
  unfold WatermarkProcessor.process_frame, WatermarkProcessor.regenerate,
    bind, zoom, gets, lift, modify, ret. simpl. fold roi.
  pose proof (FrameSkipDetectorFacts.should_process_frame_state gray_mse
                (skip_detector s) (Some roi) frame_index) as Hst.
  destruct (should_process_frame frame_index (Some roi) (skip_detector s))
    as [[b|e] d] eqn:Esp; simpl in Hst, Hyes; subst d;
    rewrite set_skip_detector_same; [|discriminate].
  injection Hyes as ->.
  destruct (FrameCache.get compute_hash roi (frame_cache s)) as [[[q|]|e] c1];
    simpl in Hmiss, Hcons1, Hsz1, Hthr1; try discriminate.
  simpl. rewrite Hmodel. simpl.
  pose proof (FrameCacheRoundTrip.put_returns compute_hash c1 roi
                (cvtColor_swap inpainted) Hcons1 ltac:(lia)) as Hput.
  pose proof (FrameCacheRoundTrip.put_stores compute_hash c1 roi
                (cvtColor_swap inpainted) Hcons1 Hput) as Hstored.
  destruct (FrameCacheFacts.put_frame compute_hash c1 roi
              (cvtColor_swap inpainted) Hcons1) as (Hcons2 & _ & Hthr2).
  destruct (FrameCache.put compute_hash roi (cvtColor_swap inpainted) c1)
    as [[[]|e] c2]; simpl in Hput, Hstored, Hcons2, Hthr2; [|discriminate].
  simpl.
  assert (Hget : fst (FrameCache.get compute_hash roi c2)
                 = Ok (Some (cvtColor_swap inpainted))).
  { apply FrameCacheRoundTrip.get_stored; [exact Hcons2 | lia | exact Hstored]. }
  destruct (gaussian_blur (roi_mask s)) as [bm|e]; simpl; split;
    try reflexivity; exact Hget.
Qed.

End WithServices.
End WatermarkProcessorMore.

(** ** The frame loop and what surrounds it *)

Module FrameLoop.
Import NpFacts WatermarkDetector WatermarkProcessor WatermarkProcessorFacts.
Import WatermarkProcessorMore BoundingBoxFacts Main.

Section WithServices.
Variable compute_hash : image -> FrameCache.ImageHash.
Variable gray_mse : image -> image -> result spec_float.
Variable model : image -> Np.ndarray Z -> result image.
Variable gaussian_blur : Np.ndarray Z -> result (Np.ndarray spec_float).

Local Abbreviation process_frame :=
  (process_frame compute_hash gray_mse model gaussian_blur).
Local Abbreviation process_frame_wrapper :=
  (process_frame_wrapper compute_hash gray_mse model gaussian_blur).
Local Abbreviation process_frames :=
  (process_frames compute_hash gray_mse model gaussian_blur).
Local Abbreviation process_video :=
  (process_video compute_hash gray_mse model gaussian_blur).

(** X23.  The two colour conversions of [process_frame_wrapper] cancel
    outside the region: the frame it returns has the shape of the frame it
    was given and the same pixel in every cell outside the slice
    [y_min:y_max, x_min:x_max]. *)
Theorem wrapper_keeps_frame_outside_region
    (frame out : image) (frame_count : Z) (s s' : t)
    (y_min y_max x_min x_max : Z) :
  process_frame_wrapper frame frame_count s = (Ok out, s') ->
  roi_coords s = (y_min, y_max, x_min, x_max) ->
  Np.well_shaped frame ->
  (forall b, gaussian_blur (roi_mask s) = Ok b -> Np.well_shaped b) ->
  (forall p, prev_processed_roi s' = Some p -> Np.well_shaped p) ->
  Np.rows out = Np.rows frame /\ Np.cols out = Np.cols frame /\
  forall i j : nat,
    (i < Np.rows frame)%nat -> (j < Np.cols frame)%nat ->
    ~ Np.in_slice frame y_min y_max x_min x_max i j ->
    Np.item black out i j = Np.item black frame i j.
Proof.
  unfold WatermarkProcessor.process_frame_wrapper, bind, ret.
  destruct (process_frame (cvtColor_swap frame) frame_count s)
    as [[out0|e] s1] eqn:E0; intros E; [|discriminate].
  injection E as <- <-. intros Hcoords Hf Hblur Hsnap.
  destruct (process_frame_spec _ _ _ _ _ _ _ _ _ E0) as (_ & _ & _ & Hout).
  destruct (Hout out0 eq_refl) as (b & bm & p & _ & _ & Hp & Hbm & Hcomp).
  rewrite Hcoords in Hcomp. unfold extract_roi in Hcomp. rewrite Hcoords in Hcomp.
  assert (Hfb : Np.well_shaped (cvtColor_swap frame))
    by (apply map_well_shaped; exact Hf).
  destruct (composite_spec _ _ _ _ _ _ _ _ Hcomp Hfb (Hblur bm Hbm) (Hsnap p Hp))
    as (Hr & Hc & Wout & Hitem).
  change (Np.rows (cvtColor_swap frame)) with (Np.rows frame) in *.
  change (Np.cols (cvtColor_swap frame)) with (Np.cols frame) in *.
  split; [exact Hr|]. split; [exact Hc|].
  intros i j Hi Hj Houtside.
  unfold cvtColor_swap at 1.
  rewrite (item_map_in swap_channels black black out0 i j Wout)
    by (rewrite ?Hr, ?Hc; assumption).
  rewrite (Hitem i j Hi Hj).
  change (Np.in_sliceb (cvtColor_swap frame) y_min y_max x_min x_max i j)
    with (Np.in_sliceb frame y_min y_max x_min x_max i j).
  destruct (Np.in_sliceb frame y_min y_max x_min x_max i j) eqn:Hin.
  - apply in_sliceb_spec in Hin. contradiction.
  - unfold cvtColor_swap.
    rewrite (item_map_in swap_channels black black frame i j Hf Hi Hj).
    apply swap_channels_involutive.
Qed.

(** X24.  A run of the frame loop that returns gives one frame per frame
    taken, each of the shape of its input, and leaves the coordinates and
    the mask of the processor as they were. *)
Theorem process_frames_one_output_per_frame
    (frames outs : list image) (frame_count : Z) (s s' : t) :
  process_frames frames frame_count s = (Ok outs, s') ->
  Forall2 (fun frame out =>
             Np.rows out = Np.rows frame /\ Np.cols out = Np.cols frame)
          frames outs /\
  roi_coords s' = roi_coords s /\ roi_mask s' = roi_mask s.
Proof.
  revert outs frame_count s. induction frames as [|f fs IH]; intros outs k s; simpl.
  - unfold ret. intros E. injection E as <- <-. repeat split. constructor.
  - unfold bind at 1. unfold WatermarkProcessor.process_frame_wrapper at 1.
    unfold bind at 1, ret at 1.
    destruct (process_frame (cvtColor_swap f) k s) as [[out0|e] s1] eqn:E0;
      [|discriminate].
    destruct (process_frame_spec _ _ _ _ _ _ _ _ _ E0) as (Hc1 & Hm1 & _ & Hout).
    destruct (Hout out0 eq_refl) as (b & bm & p & _ & _ & _ & _ & Hcomp).
    destruct (composite_shape _ _ _ _ _ _ Hcomp) as [Hr0 Hc0].
    unfold bind.
    destruct (process_frames fs (k + 1) s1) as [[os|e] s2] eqn:E2; [|discriminate].
    unfold ret. intros E. injection E as <- <-.
    destruct (IH _ _ _ E2) as (IHf & IHc & IHm).
    split; [|split; congruence].
    constructor; [|exact IHf]. split; [exact Hr0 | exact Hc0].
Qed.

(** X26.  A mask without foreground makes [process_video] return the bare
    video information, whatever the frames of the clip are; the report of
    the main loop then fails on its first lookup with [KeyError], as that
    dictionary has no entry for the key video_info. *)
Theorem empty_mask_breaks_report
    (resolution duration fps processing_time : string) (total_frames : Z)
    (clip_h clip_w : Z) (frames : list image) (watermark_mask : Np.ndarray Z) :
  (forall i j, ~ Np.positive_at watermark_mask i j) ->
  process_video (get_video_info resolution duration fps total_frames)
    clip_h clip_w frames watermark_mask processing_time
  = Ok (VDict (get_video_info resolution duration fps total_frames)) /\
  rbind (process_video (get_video_info resolution duration fps total_frames)
           clip_h clip_w frames watermark_mask processing_time) report
  = Raise KeyError.
Proof.
  intros Hnone.
  assert (Hfound : Np.where_positive watermark_mask = []).
  { destruct (Np.where_positive watermark_mask) as [|[i0 j0] rest] eqn:E;
      [reflexivity|].
    exfalso. apply (Hnone i0 j0). apply In_where_positive. rewrite E. now left. }
  assert (Hsetup : process_video_setup clip_h clip_w watermark_mask = None).
  { unfold process_video_setup. rewrite Hfound. reflexivity. }
  unfold Main.process_video. rewrite Hsetup. split; reflexivity.
Qed.

(** X27.  When the mask has foreground and [process_video] returns, the
    report finds all five values: those of [get_video_info] and the
    processing time. *)
Theorem report_after_processing
    (resolution duration fps processing_time : string) (total_frames : Z)
    (clip_h clip_w : Z) (frames : list image) (watermark_mask : Np.ndarray Z)
    (processing_info : value) (i j : nat) :
  Np.positive_at watermark_mask i j ->
  process_video (get_video_info resolution duration fps total_frames)
    clip_h clip_w frames watermark_mask processing_time
  = Ok processing_info ->
  report processing_info
  = Ok [VStr resolution; VStr duration; VStr fps; VInt total_frames;
        VStr processing_time].
Proof.
  intros Hpos. unfold Main.process_video, process_video_setup.
  apply In_where_positive in Hpos.
  destruct (Np.where_positive watermark_mask) as [|[i0 j0] rest];
    [contradiction|].
  cbn [List.map fst snd].
  destruct (process_frames frames 0 _) as [[outs|e] s1]; [|discriminate].
  intros E. injection E as <-. reflexivity.
Qed.

End WithServices.

(** X25.  For a clip of the size of the mask, [process_video] derives the
    region that [get_roi_coordinates] gives with its default margin, and
    the mask of its processor is [extract_roi_mask] of it; the processor
    starts with an empty cache and no snapshot.  The region cut out of a
    frame of that size has the shape of this mask. *)
Theorem process_video_setup_matches_detector
    (watermark_mask : Np.ndarray Z) (frame : image) :
  Np.rows frame = Np.rows watermark_mask ->
  Np.cols frame = Np.cols watermark_mask ->
  let setup :=
    process_video_setup (Z.of_nat (Np.rows watermark_mask))
      (Z.of_nat (Np.cols watermark_mask)) watermark_mask in
  (setup = None <-> forall i j, ~ Np.positive_at watermark_mask i j) /\
  (forall s, setup = Some s ->
     get_roi_coordinates watermark_mask 50 = Ok (roi_coords s) /\
     roi_mask s = extract_roi_mask watermark_mask (roi_coords s) /\
     s = init (roi_coords s) (roi_mask s) /\
     Np.rows (extract_roi s frame) = Np.rows (roi_mask s) /\
     Np.cols (extract_roi s frame) = Np.cols (roi_mask s)).
Proof.
  intros Hr Hc. cbv zeta.
  unfold process_video_setup, get_roi_coordinates.
  pose proof (fun i j => In_where_positive watermark_mask i j) as Hfound.
  destruct (Np.where_positive watermark_mask) as [|[i0 j0] rest].
  - split.
    + split; [|reflexivity]. intros _ i j H. now apply Hfound in H.
    + intros s Hs. discriminate.
  - cbn [List.map fst snd]. split.
    + split; [discriminate|]. intros H. exfalso.
      apply (H i0 j0). apply Hfound. now left.
    + intros s Hs. injection Hs as <-.
      unfold extract_roi, extract_roi_mask, init, Np.getslice.
      cbn [roi_coords roi_mask Np.rows Np.cols]. rewrite Hr, Hc.
      repeat split.
Qed.

End FrameLoop.

Module FurtherProcessorWitnesses.
Import WatermarkDetector WatermarkProcessor WatermarkProcessorMore FrameLoop.
Import Main Samples.
Local Open Scope string_scope.

(** The processor of the samples before and after its first frame. *)
Local Abbreviation s0 := (init small_coords small_mask).
Local Abbreviation s1 :=
  (snd (process_frame same_hash no_difference paint_white sharp_mask
          small_frame 0 (init small_coords small_mask))).

Lemma small_frame_well_shaped : Np.well_shaped small_frame.
Proof. split; simpl; [reflexivity | repeat constructor]. Defined.

Lemma blend_is_exact_at_extreme_weights_witness :
  0 <= 200 < 256 /\ 0 <= 37 < 256 /\
  blend_channel (Float32.of_int 1) 200 37 = 200 /\
  blend_channel (S754_zero false) 200 37 = 37.
Proof.
  assert (Hp : 0 <= 200 < 256) by lia.
  assert (Hr : 0 <= 37 < 256) by lia.
  split; [exact Hp|]. split; [exact Hr|].
  exact (blend_is_exact_at_extreme_weights 200 37 Hp Hr).
Defined.

(** Frame 1 after frame 0: not a keyframe, and no difference. *)
Lemma skipped_frame_leaves_processor_unchanged_witness :
  fst (FrameSkipDetector.should_process_frame no_difference 1
         (Some (extract_roi s1 small_frame)) (skip_detector s1)) <> Ok true /\
  snd (process_frame same_hash no_difference paint_white sharp_mask
         small_frame 1 s1) = s1.
Proof.
  assert (H : fst (FrameSkipDetector.should_process_frame no_difference 1
                     (Some (extract_roi s1 small_frame)) (skip_detector s1))
              <> Ok true) by (vm_compute; discriminate).
  split; [exact H|].
  exact (proj1 (skipped_frame_leaves_processor_unchanged same_hash no_difference
                  paint_white sharp_mask small_frame 1 s1 H)).
Defined.

(** Frame 5 after frame 0: a keyframe whose region the cache knows; a model
    that fails makes no difference. *)
Lemma cache_hit_needs_no_model_witness :
  fst (FrameSkipDetector.should_process_frame no_difference 5
         (Some (extract_roi s1 small_frame)) (skip_detector s1)) = Ok true /\
  fst (FrameCache.get same_hash (extract_roi s1 small_frame) (frame_cache s1))
  = Ok (Some (Np.mk 1 2 [[white; white]])) /\
  process_frame same_hash no_difference paint_white sharp_mask small_frame 5 s1
  = process_frame same_hash no_difference (fun _ _ => Raise CvError) sharp_mask
      small_frame 5 s1.
Proof.
  assert (Hyes : fst (FrameSkipDetector.should_process_frame no_difference 5
                        (Some (extract_roi s1 small_frame)) (skip_detector s1))
                 = Ok true) by (vm_compute; reflexivity).
  assert (Hhit : fst (FrameCache.get same_hash (extract_roi s1 small_frame)
                        (frame_cache s1))
                 = Ok (Some (Np.mk 1 2 [[white; white]])))
    by (vm_compute; reflexivity).
  split; [exact Hyes|]. split; [exact Hhit|].
  exact (proj1 (cache_hit_needs_no_model same_hash no_difference paint_white
                  sharp_mask (fun _ _ => Raise CvError) small_frame 5 s1
                  (Np.mk 1 2 [[white; white]]) Hyes Hhit)).
Defined.

(** Frame 0 on the fresh processor. *)
Lemma cache_miss_stores_regenerated_witness :
  FrameCache.consistent (frame_cache s0) /\
  1 <= FrameCache.cache_size (frame_cache s0) /\
  0 <= FrameCache.similarity_threshold (frame_cache s0) /\
  lama_inpaint paint_white (extract_roi s0 small_frame) (roi_mask s0)
  = Ok (Np.mk 1 2 [[white; white]]) /\
  prev_processed_roi s1 = Some (cvtColor_swap (Np.mk 1 2 [[white; white]])).
Proof.
  assert (Hcons : FrameCache.consistent (frame_cache s0)).
  { split; simpl; [reflexivity | constructor]. }
  assert (HC : 1 <= FrameCache.cache_size (frame_cache s0)) by (simpl; lia).
  assert (HT : 0 <= FrameCache.similarity_threshold (frame_cache s0))
    by (simpl; lia).
  assert (Hmodel : lama_inpaint paint_white (extract_roi s0 small_frame)
                     (roi_mask s0) = Ok (Np.mk 1 2 [[white; white]]))
    by (vm_compute; reflexivity).
  split; [exact Hcons|]. split; [exact HC|]. split; [exact HT|].
  split; [exact Hmodel|].
  exact (proj1 (cache_miss_stores_regenerated same_hash no_difference paint_white
                  sharp_mask small_frame (Np.mk 1 2 [[white; white]]) 0 s0
                  Hcons HC HT ltac:(vm_compute; reflexivity)
                  ltac:(vm_compute; reflexivity) Hmodel)).
Defined.

Lemma wrapper_keeps_frame_outside_region_witness :
  Np.well_shaped small_frame /\
  ~ Np.in_slice small_frame 0 1 0 2 1 0 /\
  exists out s',
    process_frame_wrapper same_hash no_difference paint_white sharp_mask
      small_frame 0 s0 = (Ok out, s') /\
    Np.item black out 1 0 = Np.item black small_frame 1 0.
Proof.
  set (run := process_frame_wrapper same_hash no_difference paint_white sharp_mask
                small_frame 0 s0).
  set (out := Np.mk 2 3 [[white; gray 20; gray 30]; [gray 40; gray 50; gray 60]]).
  assert (Hrun : run = (Ok out, snd run)) by (vm_compute; reflexivity).
  assert (Hblur : forall b, sharp_mask (roi_mask s0) = Ok b -> Np.well_shaped b).
  { intros b Hb. vm_compute in Hb. injection Hb as <-.
    split; simpl; [reflexivity | repeat constructor]. }
  assert (Hsnap : forall p, prev_processed_roi (snd run) = Some p ->
                            Np.well_shaped p).
  { intros p Hp. vm_compute in Hp. injection Hp as <-.
    split; simpl; [reflexivity | repeat constructor]. }
  assert (Hout : ~ Np.in_slice small_frame 0 1 0 2 1 0).
  { unfold Np.in_slice. vm_compute. lia. }
  split; [exact small_frame_well_shaped|]. split; [exact Hout|].
  exists out, (snd run). split; [exact Hrun|].
  exact (proj2 (proj2 (wrapper_keeps_frame_outside_region same_hash no_difference
                         paint_white sharp_mask small_frame out 0 s0 (snd run)
                         0 1 0 2 Hrun eq_refl small_frame_well_shaped Hblur Hsnap))
           1%nat 0%nat ltac:(simpl; lia) ltac:(simpl; lia) Hout).
Defined.

Lemma process_frames_one_output_per_frame_witness :
  exists outs s',
    process_frames same_hash no_difference paint_white sharp_mask
      [small_frame; small_frame] 0 s0 = (Ok outs, s') /\
    Forall2 (fun frame out =>
               Np.rows out = Np.rows frame /\ Np.cols out = Np.cols frame)
            [small_frame; small_frame] outs.
Proof.
  set (run := process_frames same_hash no_difference paint_white sharp_mask
                [small_frame; small_frame] 0 s0).
  set (out := Np.mk 2 3 [[white; gray 20; gray 30]; [gray 40; gray 50; gray 60]]).
  assert (Hrun : run = (Ok [out; out], snd run)) by (vm_compute; reflexivity).
  exists [out; out], (snd run). split; [exact Hrun|].
  exact (proj1 (process_frames_one_output_per_frame same_hash no_difference
                  paint_white sharp_mask [small_frame; small_frame] [out; out]
                  0 s0 (snd run) Hrun)).
Defined.

(** A mask of the size of the small frame with its first cell marked. *)
Lemma process_video_setup_matches_detector_witness :
  Np.rows small_frame = Np.rows (Np.mk 2 3 [[255; 0; 0]; [0; 0; 0]]) /\
  Np.cols small_frame = Np.cols (Np.mk 2 3 [[255; 0; 0]; [0; 0; 0]]) /\
  (process_video_setup (Z.of_nat 2) (Z.of_nat 3)
     (Np.mk 2 3 [[255; 0; 0]; [0; 0; 0]]) = None <->
   forall i j, ~ Np.positive_at (Np.mk 2 3 [[255; 0; 0]; [0; 0; 0]]) i j).
Proof.
  assert (Hr : Np.rows small_frame = Np.rows (Np.mk 2 3 [[255; 0; 0]; [0; 0; 0]]))
    by reflexivity.
  assert (Hc : Np.cols small_frame = Np.cols (Np.mk 2 3 [[255; 0; 0]; [0; 0; 0]]))
    by reflexivity.
  split; [exact Hr|]. split; [exact Hc|].
  exact (proj1 (process_video_setup_matches_detector
                  (Np.mk 2 3 [[255; 0; 0]; [0; 0; 0]]) small_frame Hr Hc)).
Defined.

Lemma empty_mask_breaks_report_witness :
  (forall i j, ~ Np.positive_at (Np.mk 1 1 [[0]]) i j) /\
  rbind (process_video same_hash no_difference paint_white sharp_mask
           (get_video_info "3x2" "1.00" "2.00" 2) 2 3 [small_frame; small_frame]
           (Np.mk 1 1 [[0]]) "0:00:01") report
  = Raise KeyError.
Proof.
  assert (H : forall i j, ~ Np.positive_at (Np.mk 1 1 [[0]]) i j).
  { intros i j (r & v & Hr & Hv & Hpos).
    destruct i as [|i]; simpl in Hr; [|destruct i; discriminate].
    injection Hr as <-.
    destruct j as [|j]; simpl in Hv; [|destruct j; discriminate].
    injection Hv as <-. lia. }
  split; [exact H|].
  exact (proj2 (empty_mask_breaks_report same_hash no_difference paint_white
                  sharp_mask "3x2" "1.00" "2.00" "0:00:01" 2 2 3
                  [small_frame; small_frame] (Np.mk 1 1 [[0]]) H)).
Defined.

Lemma report_after_processing_witness :
  Np.positive_at (Np.mk 2 3 [[255; 0; 0]; [0; 0; 0]]) 0 0 /\
  report (VDict [("video_info", VDict (get_video_info "3x2" "1.00" "2.00" 2));
                 ("processing_time", VStr "0:00:01")])
  = Ok [VStr "3x2"; VStr "1.00"; VStr "2.00"; VInt 2; VStr "0:00:01"].
Proof.
  assert (Hpos : Np.positive_at (Np.mk 2 3 [[255; 0; 0]; [0; 0; 0]]) 0 0).
  { exists [255; 0; 0], 255. repeat split. }
  split; [exact Hpos|].
  exact (report_after_processing same_hash no_difference paint_white sharp_mask
           "3x2" "1.00" "2.00" "0:00:01" 2 2 3 [small_frame; small_frame]
           (Np.mk 2 3 [[255; 0; 0]; [0; 0; 0]])
           (VDict [("video_info", VDict (get_video_info "3x2" "1.00" "2.00" 2));
                   ("processing_time", VStr "0:00:01")])
           0 0 Hpos ltac:(vm_compute; reflexivity)).
Defined.

End FurtherProcessorWitnesses.

(** ** The cache when hashing can fail *)

Module FrameCacheHashingFacts.
Import FrameCache FrameCacheFacts FrameCacheMore.

Section WithRegions.
Context {Roi Buf : Type}.
Variable compute_hash : Roi -> result ImageHash.

Local Abbreviation get := (FrameCacheHashing.get compute_hash).
Local Abbreviation put := (FrameCacheHashing.put compute_hash).
Local Abbreviation after_all := (FrameCacheHashing.after_all compute_hash).
Local Abbreviation state := (FrameCache.t Buf).

Lemma get_hashed (roi : Roi) (h : ImageHash) (s : state) :
  compute_hash roi = Ok h ->
  get roi s = FrameCache.get (fun h : ImageHash => h) h s.
Proof.
  intros E. unfold FrameCacheHashing.get, bind, lift. now rewrite E.
Qed.

Lemma put_hashed (roi : Roi) (p : Buf) (h : ImageHash) (s : state) :
  compute_hash roi = Ok h ->
  put roi p s = FrameCache.put (fun h : ImageHash => h) h p s.
Proof.
  intros E. unfold FrameCacheHashing.put, bind, lift. now rewrite E.
Qed.

Lemma get_unhashed (roi : Roi) (e : exn) (s : state) :
  compute_hash roi = Raise e -> get roi s = (Raise e, s).
Proof.
  intros E. unfold FrameCacheHashing.get, bind, lift. now rewrite E.
Qed.

Lemma put_unhashed (roi : Roi) (p : Buf) (e : exn) (s : state) :
  compute_hash roi = Raise e -> put roi p s = (Raise e, s).
Proof.
  intros E. unfold FrameCacheHashing.put, bind, lift. now rewrite E.
Qed.

(** The calls whose hashing fails leave no trace: the cache is the one that
    the other calls, taken by their hashes, leave behind. *)
Lemma after_all_hashed (cs : list (call Roi Buf)) (s : state) :
  exists hs : list (call ImageHash Buf),
    after_all cs s = FrameCache.after_all (fun h : ImageHash => h) hs s.
Proof.
  revert s. induction cs as [|c cs IH]; intros s.
  - exists []. reflexivity.
  - unfold FrameCacheHashing.after_all. cbn [fold_left].
    fold (after_all cs (FrameCacheHashing.after compute_hash c s)).
    destruct (IH (FrameCacheHashing.after compute_hash c s)) as [hs Hhs].
    rewrite Hhs. destruct c as [roi p|roi]; unfold FrameCacheHashing.after.
    + destruct (compute_hash roi) as [h|e] eqn:E.
      * exists (Put h p :: hs). now rewrite (put_hashed roi p h s E).
      * exists hs. now rewrite (put_unhashed roi p e s E).
    + destruct (compute_hash roi) as [h|e] eqn:E.
      * exists (Get h :: hs). now rewrite (get_hashed roi h s E).
      * exists hs. now rewrite (get_unhashed roi e s E).
Qed.

(** X1.  The only exceptions of [get] and [put] are those of hashing the
    region.  On a cache of capacity at least 1, driven from empty by any
    calls (some of which may have raised): for a region that hashes, [get]
    returns a buffer or [None] and [put] returns; for a region whose hashing
    raises, both raise that exception and leave the cache as it was. *)
Theorem calls_raise_only_from_hashing (C T : Z) (cs : list (call Roi Buf)) :
  1 <= C ->
  (forall roi,
      match compute_hash roi with
      | Ok _ => exists o, fst (get roi (after_all cs (init C T))) = Ok o
      | Raise e =>
          get roi (after_all cs (init C T)) = (Raise e, after_all cs (init C T))
      end) /\
  (forall roi p,
      match compute_hash roi with
      | Ok _ => fst (put roi p (after_all cs (init C T))) = Ok tt
      | Raise e =>
          put roi p (after_all cs (init C T)) = (Raise e, after_all cs (init C T))
      end).
Proof.
  intros HC. destruct (after_all_hashed cs (init C T)) as [hs Hhs].
  rewrite Hhs.
  destruct (own_operations_never_fail (fun h : ImageHash => h) C T hs HC)
    as [Hget Hput].
  split.
  - intros roi. destruct (compute_hash roi) as [h|e] eqn:E.
    + rewrite (get_hashed roi h _ E). apply Hget.
    + now apply get_unhashed.
  - intros roi p. destruct (compute_hash roi) as [h|e] eqn:E.
    + rewrite (put_hashed roi p h _ E). apply Hput.
    + now apply put_unhashed.
Qed.

End WithRegions.
End FrameCacheHashingFacts.

Module FrameCacheHashingWitnesses.
Import FrameCache FrameCacheHashingFacts.

(** Regions are numbers; the region 0 stands for an empty region, on which
    the hashing raises, and every other region is its own hash. *)
Lemma calls_raise_only_from_hashing_witness :
  1 <= 2 /\
  (exists o,
      fst (FrameCacheHashing.get
             (fun r : N => if (r =? 0)%N then Raise CvError else Ok r) 1%N
             (FrameCacheHashing.after_all
                (fun r : N => if (r =? 0)%N then Raise CvError else Ok r)
                [Put 1%N 10%N; Get 0%N; Put 2%N 20%N] (init 2 3))) = Ok o) /\
  FrameCacheHashing.put
    (fun r : N => if (r =? 0)%N then Raise CvError else Ok r) 0%N 30%N
    (FrameCacheHashing.after_all
       (fun r : N => if (r =? 0)%N then Raise CvError else Ok r)
       [Put 1%N 10%N; Get 0%N; Put 2%N 20%N] (init 2 3))
  = (Raise CvError,
     FrameCacheHashing.after_all
       (fun r : N => if (r =? 0)%N then Raise CvError else Ok r)
       [Put 1%N 10%N; Get 0%N; Put 2%N 20%N] (init 2 3)).
Proof.
  assert (HC : 1 <= 2) by lia.
  split; [exact HC|].
  destruct (calls_raise_only_from_hashing
              (fun r : N => if (r =? 0)%N then Raise CvError else Ok r)
              2 3 [Put 1%N 10%N; Get 0%N; Put 2%N 20%N] HC) as [Hg Hp].
  split; [exact (Hg 1%N) | exact (Hp 0%N 30%N)].
Defined.

End FrameCacheHashingWitnesses.
